(** * library-codegen-agent: context subsystem and orchestration state machine

    A shallow embedding of the Python sources

      - [src/context/chunker.py]   (SemanticChunker)
      - [src/context/database.py]  (VectorDatabase.search, _cosine_similarity)
      - [src/context/manager.py]   (ContextManager retrieval path)
      - [src/agent/nodes.py], [src/agent/graph.py], [config/settings.py]
      - [src/utils/helpers.py], [src/llm/azure_client.py]
      - [src/tools/code_example_extractor.py], [src/tools/mcp_server.py]
      - [src/context/embeddings.py]  (cosine_similarity)

    Python [str] is a sequence of Unicode code points, modelled as [list N].
    Python [int] is [Z].  Python [float] is IEEE binary64 and numpy [float32]
    is IEEE binary32; both are [spec_float] values computed with the
    operations of [SpecFloat] at the matching precision.  The sums inside
    numpy's [np.dot] and [np.linalg.norm] are numpy's: the two functions
    enter as parameters. *)

From Stdlib Require Import ZArith NArith List Bool Lia String Ascii.
From Stdlib Require Import Sorting.Sorted Sorting.Permutation.
From Stdlib Require Import Floats.SpecFloat.
From Stdlib Require Import DecimalString.
Import ListNotations.

Set Implicit Arguments.
Open Scope Z_scope.

(* ================================================================== *)
(** * Python built-ins used by the sources *)
(* ================================================================== *)

Module Py.

(** A character is a code point; a string is a list of them. *)
Definition char := N.
Definition str := list char.

(** String literals of the sources, written as Rocq strings. *)
Definition codes (s : string) : str :=
  List.map N_of_ascii (list_ascii_of_string s).

Definition NL : char := 10%N.
Definition SPACE : char := 32%N.
Definition DOT : char := 46%N.
Definition BANG : char := 33%N.
Definition QUESTION : char := 63%N.

(** [len(x)] *)
Definition len {A} (l : list A) : Z := Z.of_nat (List.length l).

(** Truthiness of a sequence: [if x:] *)
Definition truthy {A} (l : list A) : bool :=
  match l with [] => false | _ :: _ => true end.

(** The code points [str.strip()] removes: CPython's
    [_PyUnicode_IsWhitespace]. *)
Definition is_space (c : char) : bool :=
  ((9 <=? c) && (c <=? 13)
   || (28 <=? c) && (c <=? 32)
   || (c =? 133) || (c =? 160) || (c =? 5760)
   || (8192 <=? c) && (c <=? 8202)
   || (c =? 8232) || (c =? 8233) || (c =? 8239) || (c =? 8287)
   || (c =? 12288))%N.

Fixpoint lstrip (s : str) : str :=
  match s with
  | [] => []
  | c :: s' => if is_space c then lstrip s' else s
  end.

Definition rstrip (s : str) : str := rev (lstrip (rev s)).

(** [s.strip()] *)
Definition strip (s : str) : str := rstrip (lstrip s).

(** Normalisation of a slice bound against a sequence of length [n]
    (negative bounds count from the end, everything is clipped). *)
Definition clamp (n i : Z) : Z :=
  if i <? 0 then Z.max 0 (i + n) else Z.min i n.

(** [l[a:b]] *)
Definition slice {A} (l : list A) (a b : Z) : list A :=
  let lo := clamp (len l) a in
  let hi := clamp (len l) b in
  firstn (Z.to_nat (hi - lo)) (skipn (Z.to_nat lo) l).

(** [l[:b]] *)
Definition slice_to {A} (l : list A) (b : Z) : list A :=
  firstn (Z.to_nat (clamp (len l) b)) l.

(** Index of the last occurrence of [c] in [w], if any. *)
Fixpoint last_index (c : char) (w : str) : option nat :=
  match w with
  | [] => None
  | x :: w' =>
      match last_index c w' with
      | Some i => Some (S i)
      | None => if (x =? c)%N then Some O else None
      end
  end.

(** [s.rfind(c, a, b)] for a one-character [c]: the highest index in
    the slice [a:b] holding [c], or -1. *)
Definition rfind (s : str) (c : char) (a b : Z) : Z :=
  let lo := clamp (len s) a in
  match last_index c (slice s a b) with
  | Some i => lo + Z.of_nat i
  | None => -1
  end.

(** [sep.join(parts)] *)
Fixpoint join (sep : str) (parts : list str) : str :=
  match parts with
  | [] => []
  | [p] => p
  | p :: ps => p ++ sep ++ join sep ps
  end.

(** [parts[-1]] on a non-empty list. *)
Definition last_item (parts : list str) : str := List.last parts [].

Fixpoint str_eqb (a b : str) : bool :=
  match a, b with
  | [], [] => true
  | x :: a', y :: b' => (x =? y)%N && str_eqb a' b'
  | _, _ => false
  end.

Fixpoint is_prefix (p s : str) : bool :=
  match p, s with
  | [], _ => true
  | x :: p', y :: s' => (x =? y)%N && is_prefix p' s'
  | _ :: _, [] => false
  end.

(** [needle in hay] *)
Fixpoint contains (needle hay : str) : bool :=
  is_prefix needle hay
  || match hay with
     | [] => false
     | _ :: hay' => contains needle hay'
     end.

(** [re.split(r'\n\n+', text)]: the text is cut at every maximal run of
    two or more newlines; [skipping] is set while such a run is being
    consumed, [cur] holds the current piece in reverse. *)
Fixpoint re_split_paragraphs_aux (skipping : bool) (cur : str) (s : str)
  : list str :=
  match s with
  | [] => [rev cur]
  | c :: s' =>
      if (c =? NL)%N then
        if skipping then re_split_paragraphs_aux true cur s'
        else
          match s' with
          | c2 :: _ =>
              if (c2 =? NL)%N
              then rev cur :: re_split_paragraphs_aux true [] s'
              else re_split_paragraphs_aux false (c :: cur) s'
          | [] => re_split_paragraphs_aux false (c :: cur) s'
          end
      else re_split_paragraphs_aux false (c :: cur) s'
  end.

Definition re_split_paragraphs (text : str) : list str :=
  re_split_paragraphs_aux false [] text.

(** [a or b] on optional integers: [None] and [0] are falsy. *)
Definition or_int (a : option Z) (b : Z) : Z :=
  match a with
  | Some v => if v =? 0 then b else v
  | None => b
  end.

End Py.

(* ================================================================== *)
(** * config/settings.py *)
(* ================================================================== *)

Module Config.

(** The "Agent Configuration" block of [Settings]; every field can be
    overridden from the environment. *)
Record Settings := {
  max_iterations : Z;
  max_context_tokens : Z;
  chunk_size : Z;
  chunk_overlap : Z;
  top_k_results : Z
}.

Definition defaults : Settings := {|
  max_iterations := 10;
  max_context_tokens := 8000;
  chunk_size := 1000;
  chunk_overlap := 200;
  top_k_results := 5
|}.

End Config.

(* ================================================================== *)
(** * src/context/chunker.py *)
(* ================================================================== *)

Module Chunker.
Import Py.

Record SemanticChunker := {
  chunk_size : Z;
  chunk_overlap : Z
}.

(** [SemanticChunker.__init__] *)
Definition init (settings : Config.Settings)
           (size overlap : option Z) : SemanticChunker := {|
  chunk_size := or_int size (Config.chunk_size settings);
  chunk_overlap := or_int overlap (Config.chunk_overlap settings)
|}.

Definition PARA_SEP : str := [NL; NL].

(** ** [_split_by_semantic_boundaries] *)

(** Loop state: [chunks], [current_chunk], [current_length]. *)
Definition sem_state := (list str * list str * Z)%type.

(** One iteration of [for para in paragraphs]. *)
Definition sem_step (self : SemanticChunker) (st : sem_state) (para0 : str)
  : sem_state :=
  let '(chunks, current_chunk, current_length) := st in
  let para := strip para0 in
  if negb (truthy para) then st
  else
    let para_length := len para in
    if (current_length + para_length >? chunk_size self)
       && truthy current_chunk
    then
      let chunks' := chunks ++ [join PARA_SEP current_chunk] in
      if (chunk_overlap self >? 0) && (len current_chunk >? 1) then
        let overlap_text := last_item current_chunk in
        (chunks', [overlap_text; para], len overlap_text + para_length)
      else
        (chunks', [para], para_length)
    else
      (chunks, current_chunk ++ [para], current_length + para_length).

Definition split_by_semantic_boundaries (self : SemanticChunker)
           (text : str) : list str :=
  let '(chunks, current_chunk, _) :=
    fold_left (sem_step self) (re_split_paragraphs text) ([], [], 0) in
  if truthy current_chunk
  then chunks ++ [join PARA_SEP current_chunk]
  else chunks.

(** ** [_split_by_size] *)

(** What one iteration of the [while] loop computes from [start]. *)
Record window := {
  w_start : Z;             (* [start] on entry *)
  w_end : Z;               (* [end] after the sentence search *)
  w_chunk : str;           (* [text[start:end].strip()] *)
  w_next : Z               (* [start] for the next iteration *)
}.

Definition size_step (self : SemanticChunker) (text : str) (start : Z)
  : window :=
  let text_length := len text in
  let end0 := start + chunk_size self in
  let end1 :=
    if end0 <? text_length then
      let sentence_end :=
        Z.max (Z.max (rfind text DOT start end0)
                     (rfind text BANG start end0))
              (rfind text QUESTION start end0) in
      if sentence_end >? start then sentence_end + 1 else end0
    else end0 in
  {| w_start := start;
     w_end := end1;
     w_chunk := strip (slice text start end1);
     w_next := if end1 <? text_length
               then end1 - chunk_overlap self else end1 |}.

(** The [while start < text_length] loop; [fuel] bounds the number of
    iterations, [None] means the bound was reached with the loop still
    running. *)
Fixpoint split_loop (fuel : nat) (self : SemanticChunker) (text : str)
         (start : Z) (chunks : list str) : option (list str) :=
  match fuel with
  | O => None
  | S fuel' =>
      if start <? len text then
        let w := size_step self text start in
        split_loop fuel' self text (w_next w)
                   (if truthy (w_chunk w)
                    then chunks ++ [w_chunk w] else chunks)
      else Some chunks
  end.

Definition split_by_size (fuel : nat) (self : SemanticChunker)
           (text : str) : option (list str) :=
  split_loop fuel self text 0 [].

(** The windows visited by the first [fuel] iterations of the loop. *)
Fixpoint split_trace (fuel : nat) (self : SemanticChunker) (text : str)
         (start : Z) : list window :=
  match fuel with
  | O => []
  | S fuel' =>
      if start <? len text then
        let w := size_step self text start in
        w :: split_trace fuel' self text (w_next w)
      else []
  end.

(** ** [chunk_text] *)

(** The [for chunk in chunks] loop building [final_chunks]. *)
Fixpoint chunk_text_loop (fuel : nat) (self : SemanticChunker)
         (chunks : list str) : option (list str) :=
  match chunks with
  | [] => Some []
  | chunk :: rest =>
      match (if len chunk >? chunk_size self
             then split_by_size fuel self chunk
             else Some [chunk]) with
      | None => None
      | Some pieces =>
          match chunk_text_loop fuel self rest with
          | None => None
          | Some final => Some (pieces ++ final)
          end
      end
  end.

Definition chunk_text (fuel : nat) (self : SemanticChunker) (text : str)
  : option (list str) :=
  chunk_text_loop fuel self (split_by_semantic_boundaries self text).

End Chunker.

(* ================================================================== *)
(** * Floating point: numpy float32 and Python float *)
(* ================================================================== *)

Module Float.

(** numpy [float32]: IEEE binary32. *)
Definition f32 := spec_float.
(** Python [float]: IEEE binary64. *)
Definition f64 := spec_float.

Definition add32 : f32 -> f32 -> f32 := SFadd 24 128.
Definition mul32 : f32 -> f32 -> f32 := SFmul 24 128.
Definition div32 : f32 -> f32 -> f32 := SFdiv 24 128.
Definition sqrt32 : f32 -> f32 := SFsqrt 24 128.
Definition mul64 : f64 -> f64 -> f64 := SFmul 53 1024.

Definition zero : spec_float := S754_zero false.

(** [np.array(xs, dtype=np.float32)] applied to one Python float. *)
Definition to_f32 (x : f64) : f32 :=
  match x with
  | S754_finite s m e => binary_round 24 128 s m e
  | _ => x
  end.

(** [float(x)] applied to a numpy float32: exact widening. *)
Definition to_f64 (x : f32) : f64 :=
  match x with
  | S754_finite s m e => binary_round 53 1024 s m e
  | _ => x
  end.

Definition is_nan (x : spec_float) : bool :=
  match x with S754_nan => true | _ => false end.

(** The literals of the sources as binary64 values. *)
(* 1.3 = 0x1.4cccccccccccdp+0 *)
Definition lit_1_3 : f64 := S754_finite false 5854679515581645 (-52).
(* 0.8 = 0x1.999999999999ap-1 *)
Definition lit_0_8 : f64 := S754_finite false 7205759403792794 (-53).
(* 0.3 = 0x1.3333333333333p-2 *)
Definition lit_0_3 : f64 := S754_finite false 5404319552844595 (-54).
(* 1.0 and -1.0 *)
Definition one : f64 := S754_finite false 4503599627370496 (-52).
Definition minus_one : f64 := S754_finite true 4503599627370496 (-52).

(** [x] lies in the closed interval [-1, 1]. *)
Definition in_unit_interval (x : f64) : bool :=
  SFleb minus_one x && SFleb x one.

(** [l.sort(key=key, reverse=True)]: a stable sort into descending key
    order.  Python compares keys with [<] only; the result below is the
    one every stable sort produces when the keys are totally ordered
    (no NaN among them). *)
Fixpoint insert_desc {A} (key : A -> f64) (x : A) (l : list A) : list A :=
  match l with
  | [] => [x]
  | y :: l' =>
      if SFltb (key x) (key y) then y :: insert_desc key x l'
      else x :: l
  end.

Definition sort_desc {A} (key : A -> f64) (l : list A) : list A :=
  fold_right (insert_desc key) [] l.

End Float.

(* ================================================================== *)
(** * src/context/database.py *)
(* ================================================================== *)

Module VectorDatabase.
Import Py Float.

(** The [metadata] mapping written by the context manager. *)
Record Metadata := {
  md_source : option str;
  md_type : option str
}.

(** [{}] *)
Definition empty_metadata : Metadata :=
  {| md_source := None; md_type := None |}.

(** One row of the [embeddings] table; [metadata] is a nullable
    column, the embedding is the float32 array stored in the blob. *)
Record Row := {
  row_id : Z;
  row_text : str;
  row_embedding : list f32;
  row_metadata : option Metadata
}.

Record SearchResult := {
  res_id : Z;
  res_text : str;
  res_similarity : f64;
  res_metadata : Metadata
}.

Section WithNumpy.

(** numpy's [np.dot] on two one-dimensional float32 arrays, [None] for
    the [ValueError] it raises, and [np.linalg.norm] on one such array.
    In which order numpy adds the products up is numpy's own affair, so
    both functions are taken as they come. *)
Variable np_dot : list f32 -> list f32 -> option f32.
Variable np_linalg_norm : list f32 -> f32.

(** [_cosine_similarity]; the [0.0] of the guarded branch and the
    float32 quotient are both returned as the value [search] then
    passes to [float()]. *)
Definition cosine_similarity (vec1 vec2 : list f32) : option f32 :=
  match np_dot vec1 vec2 with
  | None => None
  | Some dot_product =>
      let norm1 := np_linalg_norm vec1 in
      let norm2 := np_linalg_norm vec2 in
      if SFeqb norm1 zero || SFeqb norm2 zero then Some zero
      else Some (div32 dot_product (mul32 norm1 norm2))
  end.

(** The [for row in cursor] loop of [search], rows in table order. *)
Fixpoint scan (rows : list Row) (query_vec : list f32)
  : option (list SearchResult) :=
  match rows with
  | [] => Some []
  | row :: rows' =>
      match cosine_similarity query_vec (row_embedding row) with
      | None => None
      | Some similarity =>
          let metadata :=
            match row_metadata row with
            | Some m => m
            | None => empty_metadata
            end in
          match scan rows' query_vec with
          | None => None
          | Some results =>
              Some ({| res_id := row_id row;
                       res_text := row_text row;
                       res_similarity := to_f64 similarity;
                       res_metadata := metadata |} :: results)
          end
      end
  end.

(** [search] *)
Definition search (rows : list Row) (query_embedding : list f64)
           (top_k : Z) : option (list SearchResult) :=
  let query_vec := List.map to_f32 query_embedding in
  match scan rows query_vec with
  | None => None
  | Some results => Some (slice_to (sort_desc res_similarity results) top_k)
  end.

End WithNumpy.

End VectorDatabase.

(* ================================================================== *)
(** * src/context/manager.py: the retrieval path *)
(* ================================================================== *)

Module ContextManager.
Import Py Float VectorDatabase.

Record ContextManager := {
  db : list Row;
  max_tokens : Z
}.

(** [ContextManager.__init__] over the rows already in the store. *)
Definition init (settings : Config.Settings) (rows : list Row)
  : ContextManager :=
  {| db := rows; max_tokens := Config.max_context_tokens settings |}.

Record Scored := {
  sc_result : SearchResult;
  adjusted_score : f64
}.

Definition KEYWORDS : list str :=
  [codes "example"; codes "how to"; codes "usage"].

Definition CODE_EXAMPLE : str := codes "code_example".

(** [_estimate_tokens] *)
Definition estimate_tokens (text : str) : Z := len text / 4.

(** The token-budget loop of [retrieve_relevant_context]:
    [context_texts] and [total_tokens] are threaded, [break] stops. *)
Fixpoint budget_loop (budget : Z) (candidates : list str)
         (context_texts : list str) (total_tokens : Z) : list str * Z :=
  match candidates with
  | [] => (context_texts, total_tokens)
  | text :: rest =>
      let tokens := estimate_tokens text in
      if total_tokens + tokens <=? budget
      then budget_loop budget rest (context_texts ++ [text])
                       (total_tokens + tokens)
      else (context_texts, total_tokens)
  end.

Section WithCollaborators.

(** [str.lower] *)
Variable lower : str -> str.
(** [EmbeddingService.embed_text] *)
Variable embed_text : str -> list f64.
(** [np.dot] and [np.linalg.norm], as the database calls them. *)
Variable np_dot : list f32 -> list f32 -> option f32.
Variable np_linalg_norm : list f32 -> f32.

Definition needs_examples (query : str) : bool :=
  let query_lower := lower query in
  existsb (fun keyword => contains keyword query_lower) KEYWORDS.

Definition is_code_example (result : SearchResult) : bool :=
  match md_type (res_metadata result) with
  | Some t => str_eqb t CODE_EXAMPLE
  | None => false
  end.

(** The score computed in the body of [for result in results]. *)
Definition adjust (needs : bool) (result : SearchResult) : f64 :=
  let score := res_similarity result in
  if needs && is_code_example result then mul64 score lit_1_3
  else score.

(** [_rank_and_filter] *)
Definition rank_and_filter (results : list SearchResult) (query : str)
  : list Scored :=
  let needs := needs_examples query in
  let scored_results :=
    List.map (fun result =>
                {| sc_result := result;
                   adjusted_score := adjust needs result |}) results in
  sort_desc adjusted_score scored_results.

(** The texts the budget loop iterates over:
    [filtered_results[:top_k]]. *)
Definition candidates (self : ContextManager)
           (settings : Config.Settings) (query library_name : str)
           (top_k : option Z) : option (list str) :=
  let top_k := match top_k with
               | None => Config.top_k_results settings
               | Some k => k
               end in
  let enhanced_query := library_name ++ [SPACE] ++ query in
  let query_embedding := embed_text enhanced_query in
  match search np_dot np_linalg_norm (db self) query_embedding
               (top_k * 2) with
  | None => None
  | Some results =>
      let filtered_results := rank_and_filter results query in
      Some (List.map (fun r => res_text (sc_result r))
                     (slice_to filtered_results top_k))
  end.

(** [retrieve_relevant_context] *)
Definition retrieve_relevant_context (self : ContextManager)
           (settings : Config.Settings) (query library_name : str)
           (top_k : option Z) : option (list str) :=
  match candidates self settings query library_name top_k with
  | None => None
  | Some texts => Some (fst (budget_loop (max_tokens self) texts [] 0))
  end.

End WithCollaborators.

End ContextManager.

(* ================================================================== *)
(** * src/agent/nodes.py and src/agent/graph.py *)
(* ================================================================== *)

Module Agent.
Import Py Float.

(** langchain messages. *)
Inductive Message :=
| SystemMessage (content : str)
| HumanMessage (content : str)
| AIMessage (content : str).

(** One entry of [search_results] or of a crawl's [results]: a mapping
    read with [.get("url")] and [.get("content")]. *)
Record Page := {
  page_url : option str;
  page_content : option str
}.

(** What [DocumentationCrawler.crawl] returns: the service's response,
    or [{}] after a caught error. *)
Record CrawlData := {
  crawl_results : option (list Page)
}.

(** What [GitHubAnalyzer.analyze] returns. *)
Record GithubInfo := {
  gh_found : bool;
  gh_readme : option str
}.

(** The state mapping threaded through the stages.  A key the initial
    state does not set is an [option] field, [None] while absent. *)
Record AgentState := {
  library_name : str;
  task : str;
  messages : list Message;
  search_results : option (list Page);
  crawled_documentation : option CrawlData;
  github_info : option GithubInfo;
  code_examples : option (list str);
  relevant_context : option (list str);
  generated_code : option str;
  explanation : option str;
  confidence_score : f64;
  iteration_count : option Z;
  error_message : option str;
  next_action : option string
}.

(** [state[key] = value], one function per key the stages assign. *)
Definition set_messages (v : list Message) (s : AgentState) :=
  {| library_name := library_name s; task := task s; messages := v;
     search_results := search_results s;
     crawled_documentation := crawled_documentation s;
     github_info := github_info s; code_examples := code_examples s;
     relevant_context := relevant_context s;
     generated_code := generated_code s; explanation := explanation s;
     confidence_score := confidence_score s;
     iteration_count := iteration_count s;
     error_message := error_message s; next_action := next_action s |}.

Definition set_search_results (v : list Page) (s : AgentState) :=
  {| library_name := library_name s; task := task s;
     messages := messages s; search_results := Some v;
     crawled_documentation := crawled_documentation s;
     github_info := github_info s; code_examples := code_examples s;
     relevant_context := relevant_context s;
     generated_code := generated_code s; explanation := explanation s;
     confidence_score := confidence_score s;
     iteration_count := iteration_count s;
     error_message := error_message s; next_action := next_action s |}.

Definition set_crawled_documentation (v : CrawlData) (s : AgentState) :=
  {| library_name := library_name s; task := task s;
     messages := messages s; search_results := search_results s;
     crawled_documentation := Some v;
     github_info := github_info s; code_examples := code_examples s;
     relevant_context := relevant_context s;
     generated_code := generated_code s; explanation := explanation s;
     confidence_score := confidence_score s;
     iteration_count := iteration_count s;
     error_message := error_message s; next_action := next_action s |}.

Definition set_github_info (v : GithubInfo) (s : AgentState) :=
  {| library_name := library_name s; task := task s;
     messages := messages s; search_results := search_results s;
     crawled_documentation := crawled_documentation s;
     github_info := Some v; code_examples := code_examples s;
     relevant_context := relevant_context s;
     generated_code := generated_code s; explanation := explanation s;
     confidence_score := confidence_score s;
     iteration_count := iteration_count s;
     error_message := error_message s; next_action := next_action s |}.

Definition set_code_examples (v : list str) (s : AgentState) :=
  {| library_name := library_name s; task := task s;
     messages := messages s; search_results := search_results s;
     crawled_documentation := crawled_documentation s;
     github_info := github_info s; code_examples := Some v;
     relevant_context := relevant_context s;
     generated_code := generated_code s; explanation := explanation s;
     confidence_score := confidence_score s;
     iteration_count := iteration_count s;
     error_message := error_message s; next_action := next_action s |}.

Definition set_relevant_context (v : list str) (s : AgentState) :=
  {| library_name := library_name s; task := task s;
     messages := messages s; search_results := search_results s;
     crawled_documentation := crawled_documentation s;
     github_info := github_info s; code_examples := code_examples s;
     relevant_context := Some v;
     generated_code := generated_code s; explanation := explanation s;
     confidence_score := confidence_score s;
     iteration_count := iteration_count s;
     error_message := error_message s; next_action := next_action s |}.

Definition set_generated_code (v : str) (s : AgentState) :=
  {| library_name := library_name s; task := task s;
     messages := messages s; search_results := search_results s;
     crawled_documentation := crawled_documentation s;
     github_info := github_info s; code_examples := code_examples s;
     relevant_context := relevant_context s;
     generated_code := Some v; explanation := explanation s;
     confidence_score := confidence_score s;
     iteration_count := iteration_count s;
     error_message := error_message s; next_action := next_action s |}.

Definition set_confidence_score (v : f64) (s : AgentState) :=
  {| library_name := library_name s; task := task s;
     messages := messages s; search_results := search_results s;
     crawled_documentation := crawled_documentation s;
     github_info := github_info s; code_examples := code_examples s;
     relevant_context := relevant_context s;
     generated_code := generated_code s; explanation := explanation s;
     confidence_score := v;
     iteration_count := iteration_count s;
     error_message := error_message s; next_action := next_action s |}.

Definition set_error_message (v : str) (s : AgentState) :=
  {| library_name := library_name s; task := task s;
     messages := messages s; search_results := search_results s;
     crawled_documentation := crawled_documentation s;
     github_info := github_info s; code_examples := code_examples s;
     relevant_context := relevant_context s;
     generated_code := generated_code s; explanation := explanation s;
     confidence_score := confidence_score s;
     iteration_count := iteration_count s;
     error_message := Some v; next_action := next_action s |}.

Definition set_next_action (v : string) (s : AgentState) :=
  {| library_name := library_name s; task := task s;
     messages := messages s; search_results := search_results s;
     crawled_documentation := crawled_documentation s;
     github_info := github_info s; code_examples := code_examples s;
     relevant_context := relevant_context s;
     generated_code := generated_code s; explanation := explanation s;
     confidence_score := confidence_score s;
     iteration_count := iteration_count s;
     error_message := error_message s; next_action := Some v |}.

(** ** Calls to the collaborators *)

(** The awaited calls a stage makes, in the order it makes them. *)
Inductive Call :=
| LlmGenerate (msgs : list Message)
| CrawlerSearch (library task : str)
| CrawlerCrawl (url instructions : str)
| GithubAnalyze (library : str)
| ExtractExamples (crawled : option CrawlData) (github : option GithubInfo)
| IndexContent (documentation : option CrawlData)
               (github : option GithubInfo)
               (examples : option (list str))
| RetrieveContext (query library : str).

(** A computation that records its calls. *)
Definition Eff (A : Type) : Type := (A * list Call)%type.

Definition ret {A} (x : A) : Eff A := (x, []).

Definition bind {A B} (m : Eff A) (k : A -> Eff B) : Eff B :=
  let '(a, log1) := m in
  let '(b, log2) := k a in
  (b, log1 ++ log2).

Definition perform {A} (c : Call) (answer : A) : Eff A := (answer, [c]).

Notation "x <- m ;; k" := (bind m (fun x => k))
  (at level 61, m at next level, right associativity).

(** ** Prompts of [nodes.py] *)

Definition ANALYZE_SYSTEM_PROMPT : str := codes
"You are an expert at analyzing code generation requests.
Determine what information would be needed to generate code for an unknown library.
Consider: documentation, API references, code examples, GitHub repository.".

Definition analysis_prompt (library task : str) : str :=
  (codes "
Library: " ++ library ++ codes "
Task: " ++ task ++ codes "

What information should we gather? Respond with a JSON object containing:
- needs_documentation: bool
- needs_github_analysis: bool
- needs_code_examples: bool
- search_query: str (optimized search query for documentation)
")%list.

Definition GENERATE_SYSTEM_PROMPT : str := codes
"You are an expert Python developer. Generate clean, working code
based on the provided documentation and examples. Include proper error handling and comments.".

Definition generation_prompt (library task context_text : str) : str :=
  (codes "
Library: " ++ library ++ codes "
Task: " ++ task ++ codes "

Available Documentation and Examples:
" ++ context_text ++ codes "

Generate Python code to accomplish the task. Include:
1. Required imports
2. Main implementation
3. Example usage
4. Brief explanation of how it works
")%list.

Definition crawl_instructions (library : str) : str :=
  (codes "Extract API documentation and usage examples for "
     ++ library)%list.

Definition VALIDATION_ERROR : str :=
  codes "Generated code may not use the specified library".

Section Nodes.

(** The answers of the collaborators ([AgentNodes.__init__] builds
    the objects); a stage is modelled on the calls that return. *)
Variable llm_generate : list Message -> str.
Variable crawler_search : str -> str -> list Page.
Variable crawler_crawl : str -> str -> CrawlData.
Variable github_analyze : str -> GithubInfo.
Variable extract :
  option CrawlData -> option GithubInfo -> list str.
Variable retrieve_context : str -> str -> list str.
(** [str.lower] *)
Variable lower : str -> str.
(** langgraph's [add_messages], the reducer of the [messages] key. *)
Variable add_messages : list Message -> list Message -> list Message.

Definition analyze_query (state : AgentState) : Eff AgentState :=
  let prompt := analysis_prompt (library_name state) (task state) in
  let msgs := [SystemMessage ANALYZE_SYSTEM_PROMPT;
               HumanMessage prompt] in
  response <- perform (LlmGenerate msgs) (llm_generate msgs) ;;
  ret (set_next_action "search_documentation"
         (set_messages [HumanMessage prompt; AIMessage response]
                       state)).

Definition search_documentation (state : AgentState) : Eff AgentState :=
  results <- perform
               (CrawlerSearch (library_name state) (task state))
               (crawler_search (library_name state) (task state)) ;;
  ret (set_next_action "crawl_documentation"
         (set_search_results results state)).

Definition crawl_documentation (state : AgentState) : Eff AgentState :=
  match search_results state with
  | None | Some [] => ret (set_next_action "analyze_github" state)
  | Some (top :: _) =>
      match page_url top with
      | None | Some [] => ret (set_next_action "analyze_github" state)
      | Some top_url =>
          let instructions := crawl_instructions (library_name state) in
          crawled_data <- perform
                            (CrawlerCrawl top_url instructions)
                            (crawler_crawl top_url instructions) ;;
          ret (set_next_action "analyze_github"
                 (set_crawled_documentation crawled_data state))
      end
  end.

Definition analyze_github (state : AgentState) : Eff AgentState :=
  info <- perform (GithubAnalyze (library_name state))
                  (github_analyze (library_name state)) ;;
  ret (set_next_action "extract_examples"
         (set_github_info info state)).

Definition extract_examples (state : AgentState) : Eff AgentState :=
  examples <- perform
                (ExtractExamples (crawled_documentation state)
                                 (github_info state))
                (extract (crawled_documentation state)
                         (github_info state)) ;;
  ret (set_next_action "manage_context"
         (set_code_examples examples state)).

Definition manage_context (state : AgentState) : Eff AgentState :=
  _ <- perform (IndexContent (crawled_documentation state)
                             (github_info state)
                             (code_examples state)) tt ;;
  context <- perform
               (RetrieveContext (task state) (library_name state))
               (retrieve_context (task state) (library_name state)) ;;
  ret (set_next_action "generate_code"
         (set_relevant_context context state)).

Definition generate_code (state : AgentState) : Eff AgentState :=
  let context_text :=
    join [NL; NL]
         (match relevant_context state with
          | Some texts => texts
          | None => []
          end) in
  let prompt :=
    generation_prompt (library_name state) (task state) context_text in
  let msgs := [SystemMessage GENERATE_SYSTEM_PROMPT;
               HumanMessage prompt] in
  response <- perform (LlmGenerate msgs) (llm_generate msgs) ;;
  let state := set_generated_code response state in
  ret (set_next_action "validate_code"
         (set_messages (messages state ++ [AIMessage response])
                       state)).

Definition validate_code (state : AgentState) : Eff AgentState :=
  let code := match generated_code state with
              | Some c => c
              | None => []
              end in
  let state :=
    if negb (contains (lower (library_name state)) (lower code))
    then set_error_message VALIDATION_ERROR
           (set_confidence_score lit_0_3 state)
    else set_confidence_score lit_0_8 state in
  ret (set_next_action "end" state).

(** [should_continue] *)
Definition should_continue (state : AgentState) : string :=
  let next_action := match next_action state with
                     | Some a => a
                     | None => "end"%string
                     end in
  if (match iteration_count state with
      | Some n => n
      | None => 0
      end) >=? 10
  then "end"%string
  else next_action.

(** ** The graph of [CodeGenAgent._build_graph] *)

Inductive Node :=
| AnalyzeQuery | SearchDocumentation | CrawlDocumentation
| AnalyzeGithub | ExtractExamplesNode | ManageContext
| GenerateCode | ValidateCode.

Inductive Target := Goto (n : Node) | END.

Definition node_function (n : Node) : AgentState -> Eff AgentState :=
  match n with
  | AnalyzeQuery => analyze_query
  | SearchDocumentation => search_documentation
  | CrawlDocumentation => crawl_documentation
  | AnalyzeGithub => analyze_github
  | ExtractExamplesNode => extract_examples
  | ManageContext => manage_context
  | GenerateCode => generate_code
  | ValidateCode => validate_code
  end.

(** The mapping given to [add_conditional_edges] for each node;
    [validate_code] has the plain edge to [END] instead. *)
Definition conditional_edges (n : Node)
  : option (list (string * Target)) :=
  match n with
  | AnalyzeQuery =>
      Some [("search_documentation", Goto SearchDocumentation);
            ("end", END)]
  | SearchDocumentation =>
      Some [("crawl_documentation", Goto CrawlDocumentation);
            ("analyze_github", Goto AnalyzeGithub);
            ("end", END)]
  | CrawlDocumentation =>
      Some [("analyze_github", Goto AnalyzeGithub); ("end", END)]
  | AnalyzeGithub =>
      Some [("extract_examples", Goto ExtractExamplesNode);
            ("end", END)]
  | ExtractExamplesNode =>
      Some [("manage_context", Goto ManageContext); ("end", END)]
  | ManageContext =>
      Some [("generate_code", Goto GenerateCode); ("end", END)]
  | GenerateCode =>
      Some [("validate_code", Goto ValidateCode); ("end", END)]
  | ValidateCode => None
  end%string.

Fixpoint lookup (key : string) (m : list (string * Target))
  : option Target :=
  match m with
  | [] => None
  | (k, v) :: m' => if String.eqb key k then Some v else lookup key m'
  end.

(** Where the graph goes after node [n] left [state]; [None] when the
    value of [should_continue] is not a key of the node's mapping. *)
Definition route (n : Node) (state : AgentState) : option Target :=
  match conditional_edges n with
  | None => Some END
  | Some m => lookup (should_continue state) m
  end.

(** The graph's state after node [n] ran on [state]: every key takes
    the value the node returned, except [messages], whose declared
    reducer combines the old list with the returned one. *)
Definition after_node (n : Node) (state : AgentState) : AgentState :=
  let returned := fst (node_function n state) in
  set_messages (add_messages (messages state) (messages returned))
               returned.

(** The graph states after each stage of [graph.ainvoke], in order:
    at most [fuel] stages from node [n]. *)
Fixpoint run_states (fuel : nat) (n : Node) (state : AgentState)
  : list AgentState :=
  match fuel with
  | O => []
  | S fuel' =>
      let state' := after_node n state in
      state' ::
        match route n state' with
        | Some (Goto n') => run_states fuel' n' state'
        | Some END | None => []
        end
  end.

(** [graph.ainvoke]: the final state, [None] on a routing error or
    when [fuel] stages did not reach [END]. *)
Fixpoint invoke (fuel : nat) (n : Node) (state : AgentState)
  : option AgentState :=
  match fuel with
  | O => None
  | S fuel' =>
      let state' := after_node n state in
      match route n state' with
      | Some (Goto n') => invoke fuel' n' state'
      | Some END => Some state'
      | None => None
      end
  end.

(** The initial state of [CodeGenAgent.generate_code]. *)
Definition initial_state (library task : str) : AgentState :=
  {| library_name := library; task := task; messages := [];
     search_results := None; crawled_documentation := None;
     github_info := None; code_examples := None;
     relevant_context := None; generated_code := None;
     explanation := None; confidence_score := zero;
     iteration_count := Some 0; error_message := None;
     next_action := None |}.

End Nodes.

End Agent.

(* ================================================================== *)
(** * src/utils/helpers.py *)
(* ================================================================== *)

Module Helpers.
Import Py.

(** [str(i)] for an integer. *)
Definition str_of_int (i : Z) : str :=
  codes (NilZero.string_of_int (Z.to_int i)).

Definition ELLIPSIS : str := codes "...".

(** [truncate_text] *)
Definition truncate_text (text : str) (max_length : Z) : str :=
  if len text <=? max_length then text
  else (slice_to text max_length ++ ELLIPSIS)%list.

(** [estimate_tokens] *)
Definition estimate_tokens (text : str) : Z := len text / 4.

(** The piece [format_context] builds for the [i]-th context. *)
Definition context_piece (i : Z) (context : str) : str :=
  let header := ([NL] ++ codes "--- Context " ++ str_of_int i
                      ++ codes " ---" ++ [NL])%list in
  (header ++ context ++ [NL])%list.

(** The [for i, context in enumerate(contexts, 1)] loop of
    [format_context]; [break] returns what was gathered. *)
Fixpoint format_loop (max_length : Z) (contexts : list str) (i : Z)
         (formatted : list str) (current_length : Z) : list str :=
  match contexts with
  | [] => formatted
  | context :: rest =>
      let piece := context_piece i context in
      let piece_length := len piece in
      if current_length + piece_length >? max_length then formatted
      else format_loop max_length rest (i + 1)
                       (formatted ++ [piece])%list
                       (current_length + piece_length)
  end.

(** [format_context] *)
Definition format_context (contexts : list str) (max_length : Z) : str :=
  List.concat (format_loop max_length contexts 1 [] 0).

End Helpers.

(* ================================================================== *)
(** * src/context/chunker.py: [chunk_code] *)
(* ================================================================== *)

Module ChunkCode.
Import Py Chunker.

Definition DEFINITION_KEYWORDS : list str :=
  [codes "def "; codes "class "; codes "async def "].

(** The lookahead [(?=\n(?:def |class |async def ))] succeeds in front of
    [s]. *)
Definition at_definition (s : str) : bool :=
  match s with
  | c :: rest =>
      (c =? NL)%N && existsb (fun k => is_prefix k rest) DEFINITION_KEYWORDS
  | [] => false
  end.

(** [re.split(pattern, code)] for that pattern: the text is cut, without
    loss, in front of every newline that starts a definition; [cur]
    holds the current piece in reverse. *)
Fixpoint re_split_definitions_aux (cur : str) (s : str) : list str :=
  match s with
  | [] => [rev cur]
  | c :: s' =>
      if at_definition s
      then rev cur :: re_split_definitions_aux [c] s'
      else re_split_definitions_aux (c :: cur) s'
  end.

Definition re_split_definitions (code : str) : list str :=
  re_split_definitions_aux [] code.

(** [[chunk.strip() for chunk in chunks if chunk.strip()]] *)
Definition stripped_pieces (pieces : list str) : list str :=
  List.map strip (filter (fun chunk => truthy (strip chunk)) pieces).

(** [len(chunk) > self.chunk_size * 1.5]: Python compares the integer
    with the float exactly, and the float product is [1.5 * chunk_size]
    exactly while [3 * chunk_size] is below 2^53. *)
Definition exceeds_code_limit (self : SemanticChunker) (chunk : str) : bool :=
  2 * len chunk >? 3 * chunk_size self.

(** The [for chunk in chunks] loop of [chunk_code]. *)
Fixpoint chunk_code_loop (fuel : nat) (self : SemanticChunker)
         (chunks : list str) : option (list str) :=
  match chunks with
  | [] => Some []
  | chunk :: rest =>
      match (if exceeds_code_limit self chunk
             then split_by_size fuel self chunk
             else Some [chunk]) with
      | None => None
      | Some pieces =>
          match chunk_code_loop fuel self rest with
          | None => None
          | Some final => Some (pieces ++ final)%list
          end
      end
  end.

(** [chunk_code]; [fuel] bounds the iterations of each size-based
    split. *)
Definition chunk_code (fuel : nat) (self : SemanticChunker) (code : str)
  : option (list str) :=
  chunk_code_loop fuel self (stripped_pieces (re_split_definitions code)).

End ChunkCode.

(* ================================================================== *)
(** * src/context/database.py: the table and its writers *)
(* ================================================================== *)

Module Store.
Import Py Float VectorDatabase.

(** The [embeddings] table: its rows in rowid order, and the largest
    rowid the table ever held, which [INTEGER PRIMARY KEY AUTOINCREMENT]
    keeps across deletions. *)
Record Table := {
  rows : list Row;
  last_id : Z
}.

(** The table [_initialize_db] creates when the file is new. *)
Definition empty : Table := {| rows := []; last_id := 0 |}.

(** [json.dumps(metadata) if metadata else None]: a missing or empty
    mapping is stored as NULL. *)
Definition stored_metadata (metadata : option Metadata) : option Metadata :=
  match metadata with
  | Some {| md_source := None; md_type := None |} => None
  | other => other
  end.

(** [insert]: the new row gets the next rowid, which is returned. *)
Definition insert (table : Table) (text : str) (embedding : list f64)
           (metadata : option Metadata) : Table * Z :=
  let id := last_id table + 1 in
  ({| rows := (rows table
                 ++ [{| row_id := id;
                        row_text := text;
                        row_embedding := List.map to_f32 embedding;
                        row_metadata := stored_metadata metadata |}])%list;
      last_id := id |},
   id).

(** [clear]: [DELETE FROM embeddings]. *)
Definition clear (table : Table) : Table :=
  {| rows := []; last_id := last_id table |}.

(** [count]: [SELECT COUNT( * ) FROM embeddings]. *)
Definition count (table : Table) : Z := len (rows table).

(** [search] on the table, with numpy's [np.dot] and
    [np.linalg.norm]. *)
Definition search (np_dot : list f32 -> list f32 -> option f32)
           (np_linalg_norm : list f32 -> f32)
           (table : Table) (query_embedding : list f64) (top_k : Z)
  : option (list SearchResult) :=
  VectorDatabase.search np_dot np_linalg_norm (rows table)
                        query_embedding top_k.

End Store.

(* ================================================================== *)
(** * src/context/manager.py: indexing *)
(* ================================================================== *)

Module Indexing.
Import Py Float VectorDatabase Chunker.

(** The mappings [index_content] builds before storing. *)
Record Chunk := {
  ck_text : str;
  ck_source : str;
  ck_type : str
}.

Definition DOCUMENTATION : str := codes "documentation".
Definition README : str := codes "readme".
Definition GITHUB_README : str := codes "github_readme".

Definition tagged (source type : str) (texts : list str) : list Chunk :=
  List.map (fun text => {| ck_text := text; ck_source := source;
                           ck_type := type |}) texts.

(** [_process_documentation]: the pages of [documentation["results"]]
    with a non-empty content, each chunked; [None] when a
    [chunk_text] call does not return within [fuel]. *)
Fixpoint process_pages (fuel : nat) (chunker : SemanticChunker)
         (pages : list Agent.Page) : option (list Chunk) :=
  match pages with
  | [] => Some []
  | page :: rest =>
      let content := match Agent.page_content page with
                     | Some c => c | None => [] end in
      let url := match Agent.page_url page with
                 | Some u => u | None => [] end in
      match (if truthy content
             then chunk_text fuel chunker content
             else Some []) with
      | None => None
      | Some doc_chunks =>
          match process_pages fuel chunker rest with
          | None => None
          | Some chunks =>
              Some (tagged url DOCUMENTATION doc_chunks ++ chunks)%list
          end
      end
  end.

Definition process_documentation (fuel : nat) (chunker : SemanticChunker)
           (documentation : Agent.CrawlData) : option (list Chunk) :=
  process_pages fuel chunker
                (match Agent.crawl_results documentation with
                 | Some pages => pages | None => [] end).

(** [_process_readme] *)
Definition process_readme (fuel : nat) (chunker : SemanticChunker)
           (readme : str) : option (list Chunk) :=
  match chunk_text fuel chunker readme with
  | None => None
  | Some readme_chunks => Some (tagged GITHUB_README README readme_chunks)
  end.

(** [_process_examples]: one chunk per example, numbered from 0. *)
Fixpoint process_examples_from (i : Z) (examples : list str) : list Chunk :=
  match examples with
  | [] => []
  | example :: rest =>
      {| ck_text := example;
         ck_source := (codes "example_" ++ Helpers.str_of_int i)%list;
         ck_type := ContextManager.CODE_EXAMPLE |}
        :: process_examples_from (i + 1) rest
  end.

Definition process_examples (examples : list str) : list Chunk :=
  process_examples_from 0 examples.

(** The [for chunk, embedding in zip(chunks, embeddings)] loop of
    [_store_chunks]. *)
Fixpoint store_loop (table : Store.Table) (chunks : list Chunk)
         (embeddings : list (list f64)) : Store.Table :=
  match chunks, embeddings with
  | chunk :: chunks', embedding :: embeddings' =>
      let metadata := {| md_source := Some (ck_source chunk);
                         md_type := Some (ck_type chunk) |} in
      store_loop (fst (Store.insert table (ck_text chunk) embedding
                                    (Some metadata)))
                 chunks' embeddings'
  | _, _ => table
  end.

Section WithEmbeddings.

(** [EmbeddingService.embed_texts] *)
Variable embed_texts : list str -> list (list f64).

(** [_store_chunks] *)
Definition store_chunks (table : Store.Table) (chunks : list Chunk)
  : Store.Table :=
  let texts := List.map ck_text chunks in
  store_loop table chunks (embed_texts texts).

(** [index_content]: the table after the call, with the number of chunks
    the call logs; [None] when a chunking call does not return.  An empty
    documentation mapping has no [results] and yields no chunk, as does
    skipping it. *)
Definition index_content (fuel : nat) (chunker : SemanticChunker)
           (table : Store.Table)
           (documentation : option Agent.CrawlData)
           (github_info : option Agent.GithubInfo)
           (code_examples : option (list str))
  : option (Store.Table * Z) :=
  match (match documentation with
         | Some d => process_documentation fuel chunker d
         | None => Some []
         end) with
  | None => None
  | Some doc_chunks =>
      match (match github_info with
             | Some info =>
                 match Agent.gh_readme info with
                 | Some (c :: readme) =>
                     process_readme fuel chunker (c :: readme)
                 | _ => Some []
                 end
             | None => Some []
             end) with
      | None => None
      | Some readme_chunks =>
          let example_chunks :=
            match code_examples with
            | Some (e :: examples) => process_examples (e :: examples)
            | _ => []
            end in
          let all_chunks :=
            (doc_chunks ++ readme_chunks ++ example_chunks)%list in
          Some (if truthy all_chunks then store_chunks table all_chunks
                else table,
                len all_chunks)
      end
  end.

End WithEmbeddings.

End Indexing.

(* ================================================================== *)
(** * src/llm/azure_client.py *)
(* ================================================================== *)

Module AzureClient.
Import Py.

(** A langchain message: one of the three classes the client tests
    for, or any other [BaseMessage]. *)
Inductive BaseMessage :=
| Lang (m : Agent.Message)
| OtherMessage (content : str).

(** [message.content] *)
Definition content_of (message : BaseMessage) : str :=
  match message with
  | Lang (Agent.SystemMessage c) => c
  | Lang (Agent.HumanMessage c) => c
  | Lang (Agent.AIMessage c) => c
  | OtherMessage c => c
  end.

(** The mapping sent to the API for one message. *)
Record OpenAIMessage := {
  role : str;
  content : str
}.

(** [_convert_messages] *)
Definition convert_messages (messages : list BaseMessage)
  : list OpenAIMessage :=
  List.map (fun message =>
              let role := match message with
                          | Lang (Agent.SystemMessage _) => codes "system"
                          | Lang (Agent.HumanMessage _) => codes "user"
                          | Lang (Agent.AIMessage _) => codes "assistant"
                          | OtherMessage _ => codes "user"
                          end in
              {| role := role; content := content_of message |})
           messages.

(** [_handle_stream]: [chunk.choices[0].delta.content] of each chunk,
    [None] when the delta has no content. *)
Fixpoint handle_stream (deltas : list (option str)) (full_content : str)
  : str :=
  match deltas with
  | [] => full_content
  | Some (c :: content) :: rest =>
      handle_stream rest (full_content ++ c :: content)%list
  | _ :: rest => handle_stream rest full_content
  end.

Definition JSON_INSTRUCTION : str :=
  ([NL; NL] ++ codes "Respond with valid JSON only.")%list.

(** The first lines of [generate_with_json]: the last message, when it
    is a [HumanMessage], has the instruction appended to its content.
    The message object is the caller's, so the caller's list reads as the
    result from then on. *)
Fixpoint add_json_instruction (messages : list BaseMessage)
  : list BaseMessage :=
  match messages with
  | [] => []
  | [Lang (Agent.HumanMessage c)] =>
      [Lang (Agent.HumanMessage (c ++ JSON_INSTRUCTION)%list)]
  | [m] => [m]
  | m :: rest => m :: add_json_instruction rest
  end.

Fixpoint find_index (c : char) (s : str) : option nat :=
  match s with
  | [] => None
  | x :: s' =>
      if (x =? c)%N then Some O
      else match find_index c s' with
           | Some i => Some (S i)
           | None => None
           end
  end.

(** [s.find(c)] for a one-character [c]. *)
Definition find (s : str) (c : char) : Z :=
  match find_index c s with
  | Some i => Z.of_nat i
  | None => -1
  end.

Definition LBRACE : char := 123%N.
Definition RBRACE : char := 125%N.

(** The text [generate_with_json] passes to [json.loads], if any. *)
Definition json_span (response : str) : option str :=
  let json_start := find response LBRACE in
  let json_end := rfind response RBRACE 0 (len response) + 1 in
  if (json_start >=? 0) && (json_end >? json_start)
  then Some (slice response json_start json_end)
  else None.

Section WithService.

(** The parsed JSON values, with [{}]. *)
Variable Json : Type.
Variable empty_object : Json.
(** [json.loads]; [None] stands for [JSONDecodeError]. *)
Variable json_loads : str -> option Json.
(** [generate], on the calls that return. *)
Variable generate : list BaseMessage -> str.

(** [generate_with_json]: the value returned, and the caller's messages
    after the call. *)
Definition generate_with_json (messages : list BaseMessage)
  : Json * list BaseMessage :=
  let messages := add_json_instruction messages in
  let response := generate messages in
  (match json_span response with
   | Some json_str =>
       match json_loads json_str with
       | Some value => value
       | None => empty_object
       end
   | None => empty_object
   end,
   messages).

End WithService.

End AzureClient.

(* ================================================================== *)
(** * src/agent/graph.py: [CodeGenAgent.generate_code] *)
(* ================================================================== *)

Module CodeGenAgent.
Import Py Float Agent.

(** The mapping [generate_code] returns. *)
Record Result := {
  code : option str;
  explanation : option str;
  confidence : f64;
  context_used : option (list str)
}.

Section WithCollaborators.

Variable llm_generate : list Message -> str.
Variable crawler_search : str -> str -> list Page.
Variable crawler_crawl : str -> str -> CrawlData.
Variable github_analyze : str -> GithubInfo.
Variable extract : option CrawlData -> option GithubInfo -> list str.
Variable retrieve_context : str -> str -> list str.
Variable lower : str -> str.
Variable add_messages : list Message -> list Message -> list Message.

(** [generate_code]; [None] when the graph does not reach [END] within
    [fuel] stages or a routing error occurs. *)
Definition generate_code (fuel : nat) (library_name task : str)
  : option Result :=
  match invoke llm_generate crawler_search crawler_crawl github_analyze
               extract retrieve_context lower add_messages
               fuel AnalyzeQuery (initial_state library_name task) with
  | Some result =>
      Some {| code := generated_code result;
              explanation := Agent.explanation result;
              confidence := confidence_score result;
              context_used := relevant_context result |}
  | None => None
  end.

End WithCollaborators.

End CodeGenAgent.

(* ================================================================== *)
(** * src/tools/mcp_server.py *)
(* ================================================================== *)

Module MCPServer.
Import Py.

(** What the server reads of a tool. *)
Record Tool := {
  name : str;
  description : str
}.

(** [self.tools]: a [dict], which keeps its keys in insertion order. *)
Definition Tools := list (str * Tool).

(** [tools[key] = tool]: an existing key keeps its place. *)
Fixpoint dict_set (tools : Tools) (key : str) (tool : Tool) : Tools :=
  match tools with
  | [] => [(key, tool)]
  | (k, t) :: rest =>
      if str_eqb k key then (k, tool) :: rest
      else (k, t) :: dict_set rest key tool
  end.

(** [register_tool] *)
Definition register_tool (tools : Tools) (tool : Tool) : Tools :=
  dict_set tools (name tool) tool.

(** [get_tool]: [self.tools.get(name)] *)
Fixpoint get_tool (tools : Tools) (key : str) : option Tool :=
  match tools with
  | [] => None
  | (k, t) :: rest => if str_eqb k key then Some t else get_tool rest key
  end.

(** [list_tools] *)
Definition list_tools (tools : Tools) : list (str * str) :=
  List.map (fun entry => (name (snd entry), description (snd entry))) tools.

Definition DOCUMENTATION_CRAWLER : Tool :=
  {| name := codes "documentation_crawler";
     description :=
       codes "Searches for and crawls library documentation websites" |}.

Definition GITHUB_ANALYZER : Tool :=
  {| name := codes "github_analyzer";
     description :=
       codes "Analyzes GitHub repositories to extract structure and examples" |}.

Definition CODE_EXAMPLE_EXTRACTOR : Tool :=
  {| name := codes "code_example_extractor";
     description :=
       codes "Extracts Python code examples from documentation and repositories" |}.

(** [MCPServer.__init__] *)
Definition init : Tools :=
  register_tool
    (register_tool (register_tool [] DOCUMENTATION_CRAWLER) GITHUB_ANALYZER)
    CODE_EXAMPLE_EXTRACTOR.

(** [execute_tool]: the tool to run, [None] for the [ValueError] of an
    unknown name. *)
Definition execute_tool (tools : Tools) (tool_name : str) : option Tool :=
  get_tool tools tool_name.

End MCPServer.

(* ================================================================== *)
(** * src/context/embeddings.py: [cosine_similarity] *)
(* ================================================================== *)

Module Embeddings.
Import Py Float.

Definition div64 : f64 -> f64 -> f64 := SFdiv 53 1024.

Section WithNumpy.

(** numpy's [np.dot] and [np.linalg.norm] on the float64 arrays that
    [np.array] builds from lists of Python floats; [None] is the
    [ValueError] of [np.dot]. *)
Variable np_dot : list f64 -> list f64 -> option f64.
Variable np_linalg_norm : list f64 -> f64.

(** [EmbeddingService.cosine_similarity] *)
Definition cosine_similarity (embedding1 embedding2 : list f64)
  : option f64 :=
  match np_dot embedding1 embedding2 with
  | None => None
  | Some dot_product =>
      let norm1 := np_linalg_norm embedding1 in
      let norm2 := np_linalg_norm embedding2 in
      if SFeqb norm1 zero || SFeqb norm2 zero then Some zero
      else Some (div64 dot_product (mul64 norm1 norm2))
  end.

End WithNumpy.

End Embeddings.

(* ================================================================== *)
(** * src/tools/code_example_extractor.py *)
(* ================================================================== *)

Module CodeExampleExtractor.
Import Py.

Definition FENCE : str := codes "```".
Definition CODE_OPEN : str := codes "<code".
Definition CODE_CLOSE : str := codes "</code>".
Definition GT : char := 62%N.

(** The leftmost occurrence of [pat] in [s]: the text before it and the
    text after it. *)
Fixpoint split_at_first (pat s : str) : option (str * str) :=
  if is_prefix pat s then Some ([], skipn (List.length pat) s)
  else match s with
       | [] => None
       | c :: rest =>
           match split_at_first pat rest with
           | Some (before, after) => Some (c :: before, after)
           | None => None
           end
       end.

(** [```(?:python)?\n] at the start of [s]: the text that follows it. *)
Definition markdown_open (s : str) : option str :=
  if is_prefix (FENCE ++ codes "python" ++ [NL]) s
  then Some (skipn 10 s)
  else if is_prefix (FENCE ++ [NL]) s then Some (skipn 4 s)
  else None.

(** [<code[^>]*>] at the start of [s]: the text that follows it. *)
Definition html_open (s : str) : option str :=
  if is_prefix CODE_OPEN s
  then match split_at_first [GT] (skipn 5 s) with
       | Some (_, after) => Some after
       | None => None
       end
  else None.

(** [re.findall(open + "(.*?)" + close, s, re.DOTALL)]: the scan moves
    one character on where no match starts and behind the match where
    one does; every step uses up text, so [fuel] above the length of
    [s] is never exhausted. *)
Fixpoint findall_from (open : str -> option str) (close : str)
         (fuel : nat) (s : str) : list str :=
  match fuel with
  | O => []
  | S fuel' =>
      match s with
      | [] => []
      | _ :: rest =>
          match (match open s with
                 | Some body => split_at_first close body
                 | None => None
                 end) with
          | Some (group, after) =>
              group :: findall_from open close fuel' after
          | None => findall_from open close fuel' rest
          end
      end
  end.

Definition findall (open : str -> option str) (close : str) (s : str)
  : list str :=
  findall_from open close (S (List.length s)) s.

(** [extract_from_markdown] *)
Definition extract_from_markdown (text : str) : list str :=
  let matches := findall markdown_open FENCE text in
  List.map strip (List.filter (fun m => truthy (strip m)) matches).

Definition PYTHON_KEYWORDS : list str :=
  [codes "import "; codes "def "; codes "class "; codes "="].

(** [extract_from_html] *)
Definition extract_from_html (html : str) : list str :=
  let matches := findall html_open CODE_CLOSE html in
  List.filter (fun clean =>
                 existsb (fun keyword => contains keyword clean)
                         PYTHON_KEYWORDS)
              (List.map strip matches).

Section WithSetOrder.

(** [list(set(examples))]: the distinct examples, in the order the set
    happens to yield them. *)
Variable list_of_set : list str -> list str.

(** [extract]; a page without the [content] key has [None]. *)
Definition extract (crawled_data : option Agent.CrawlData)
           (github_info : option Agent.GithubInfo) : list str :=
  let from_documentation :=
    match crawled_data with
    | Some data =>
        match Agent.crawl_results data with
        | Some results =>
            List.flat_map
              (fun result =>
                 let content := match Agent.page_content result with
                                | Some c => c
                                | None => []
                                end in
                 (extract_from_markdown content
                    ++ extract_from_html content)%list)
              results
        | None => []
        end
    | None => []
    end in
  let from_readme :=
    match github_info with
    | Some info =>
        match Agent.gh_readme info with
        | Some readme =>
            if truthy readme then extract_from_markdown readme else []
        | None => []
        end
    | None => []
    end in
  let unique_examples :=
    list_of_set (from_documentation ++ from_readme)%list in
  List.filter (fun ex => len ex >? 50) unique_examples.

End WithSetOrder.

End CodeExampleExtractor.

(* ================================================================== *)
(** * src/utils/helpers.py: [clean_code] *)
(* ================================================================== *)

Module CleanCode.
Import Py.

Definition FENCE : str := codes "```".
Definition FENCE_PYTHON : str := codes "```python".

(** [re.sub(fence + r'\n?', '', code)]: every occurrence of [fence],
    found from the left and not overlapping, is removed together with a
    newline right behind it.  Every step uses up text, so [fuel] above
    the length of [code] is never exhausted. *)
Fixpoint remove_fences (fence : str) (fuel : nat) (code : str) : str :=
  match fuel with
  | O => []
  | S fuel' =>
      match code with
      | [] => []
      | c :: rest =>
          if is_prefix fence code
          then remove_fences fence fuel'
                 (match skipn (List.length fence) code with
                  | n :: after => if (n =? NL)%N then after else n :: after
                  | [] => []
                  end)
          else c :: remove_fences fence fuel' rest
      end
  end.

Definition re_sub_fence (fence : str) (code : str) : str :=
  remove_fences fence (S (List.length code)) code.

(** [s.split('\n')] *)
Fixpoint split_lines (s : str) : list str :=
  match s with
  | [] => [[]]
  | c :: rest =>
      if (c =? NL)%N then [] :: split_lines rest
      else match split_lines rest with
           | line :: lines => (c :: line) :: lines
           | [] => [[c]]
           end
  end.

(** [while lines and not lines[0]: lines.pop(0)] *)
Fixpoint drop_empty (lines : list str) : list str :=
  match lines with
  | [] => []
  | line :: rest => if truthy line then lines else drop_empty rest
  end.

(** [clean_code] *)
Definition clean_code (code : str) : str :=
  let code := re_sub_fence FENCE_PYTHON code in
  let code := re_sub_fence FENCE code in
  let lines := List.map rstrip (split_lines code) in
  let lines := drop_empty lines in
  let lines := rev (drop_empty (rev lines)) in
  join [NL] lines.

End CleanCode.

(* ================================================================== *)
(** * src/utils/helpers.py: [extract_urls] *)
(* ================================================================== *)

Module Urls.
Import Py.

(** The characters the class of [url_pattern] names besides [\s]:
    [< > quote { } | \ ^ ` [ ]]. *)
Definition URL_EXCLUDED : list char :=
  [60; 62; 34; 123; 125; 124; 92; 94; 96; 91; 93]%N.

(** A character the class [[^\s<>...]] accepts. *)
Definition url_char (c : char) : bool :=
  negb (is_space c || existsb (N.eqb c) URL_EXCLUDED).

(** The longest run of accepted characters at the start of [s], and the
    rest. *)
Fixpoint take_run (s : str) : str * str :=
  match s with
  | [] => ([], [])
  | c :: rest =>
      if url_char c
      then let '(run, after) := take_run rest in (c :: run, after)
      else ([], s)
  end.

(** A match of [scheme] and then one or more accepted characters at the
    start of [s]: the match and the text behind it. *)
Definition match_scheme (scheme s : str) : option (str * str) :=
  if is_prefix scheme s
  then match take_run (skipn (List.length scheme) s) with
       | ([], _) => None
       | (run, after) => Some ((scheme ++ run)%list, after)
       end
  else None.

(** A match of [https?://[^...]+] at the start of [s]. *)
Definition match_url (s : str) : option (str * str) :=
  match match_scheme (codes "https://") s with
  | Some found => Some found
  | None => match_scheme (codes "http://") s
  end.

(** [re.findall(url_pattern, s)]; [fuel] above the length of [s] is
    never exhausted. *)
Fixpoint findall_urls (fuel : nat) (s : str) : list str :=
  match fuel with
  | O => []
  | S fuel' =>
      match s with
      | [] => []
      | _ :: rest =>
          match match_url s with
          | Some (url, after) => url :: findall_urls fuel' after
          | None => findall_urls fuel' rest
          end
      end
  end.

(** [extract_urls] *)
Definition extract_urls (text : str) : list str :=
  findall_urls (S (List.length text)) text.

End Urls.

(* ================================================================== *)
(** * Concrete configurations and inputs *)
(* ================================================================== *)

Module ChunkerExamples.
Import Py Chunker.

(** [SemanticChunker(chunk_size=10, chunk_overlap=2)] *)
Definition chunker_10_2 : SemanticChunker :=
  {| chunk_size := 10; chunk_overlap := 2 |}.

(** [SemanticChunker(chunk_size=10, chunk_overlap=1)] *)
Definition chunker_10_1 : SemanticChunker :=
  {| chunk_size := 10; chunk_overlap := 1 |}.

(** One paragraph of 17 characters whose only full stop is its second
    character. *)
Definition stuck_text : str := codes "x.yyyyyyyyyyyyyyy".

(** Three four-letter paragraphs separated by blank lines. *)
Definition three_paragraphs : str :=
  (codes "aaaa" ++ [NL; NL] ++ codes "bbbb" ++ [NL; NL] ++ codes "cccc")%list.

(** A default-configured chunker, and a text of 1200 characters whose
    only full stop is at index 199. *)
Definition default_chunker : SemanticChunker :=
  init Config.defaults None None.

Definition stuck_text_default : str :=
  (repeat 120%N 199 ++ [DOT] ++ repeat 121%N 1000)%list.

End ChunkerExamples.

Module SearchExamples.
Import Py Float VectorDatabase.

(** A dot product that adds the products up in index order, at the
    precision given, and the norm as the square root of such a sum of
    squares; arrays of different lengths have no dot product.  The
    arrays of the examples have two components whose products are
    exact, so that each sum is one rounded addition whatever the
    order. *)
Fixpoint dot_from (prec emax : Z) (acc : spec_float)
         (vec1 vec2 : list spec_float) : option spec_float :=
  match vec1, vec2 with
  | [], [] => Some acc
  | a :: vec1', b :: vec2' =>
      dot_from prec emax
               (SFadd prec emax acc (SFmul prec emax a b)) vec1' vec2'
  | _, _ => None
  end.

Definition norm_of (prec emax : Z) (v : list spec_float) : spec_float :=
  SFsqrt prec emax
         (fold_left (fun acc a => SFadd prec emax acc (SFmul prec emax a a))
                    v zero).

(** The two at float32. *)
Definition dot (vec1 vec2 : list f32) : option f32 :=
  dot_from 24 128 zero vec1 vec2.

Definition norm (v : list f32) : f32 := norm_of 24 128 v.

(** The two at float64. *)
Definition dot64 (vec1 vec2 : list f64) : option f64 :=
  dot_from 53 1024 zero vec1 vec2.

Definition norm64 (v : list f64) : f64 := norm_of 53 1024 v.

(** The float32 value 1.0. *)
Definition one32 : f32 := S754_finite false 8388608 (-23).

(** A store with the single embedding [[1.0, 1.0]]. *)
Definition unit_diagonal_store : list Row :=
  [{| row_id := 1; row_text := codes "doc";
      row_embedding := [one32; one32]; row_metadata := None |}].

(** 1 + 2^-23, the float32 successor of 1.0, as a Python float. *)
Definition above_one : f64 := S754_finite false 4503600164241408 (-52).

End SearchExamples.

Module RankExamples.
Import Py Float VectorDatabase ContextManager.

(** [str.lower] on the ASCII letters. *)
Definition ascii_lower (s : str) : str :=
  List.map (fun c => if ((65 <=? c) && (c <=? 90))%N then (c + 32)%N else c) s.

Definition result (id : Z) (text : str) (similarity : f64)
           (type : str) : SearchResult :=
  {| res_id := id; res_text := text; res_similarity := similarity;
     res_metadata := {| md_source := None; md_type := Some type |} |}.

(* 0.5 and 0.4 = 0x1.999999999999ap-2 *)
Definition half : f64 := S754_finite false 4503599627370496 (-53).
Definition lit_0_4 : f64 := S754_finite false 7205759403792794 (-54).

(** A documentation chunk scoring 0.5 and a code example scoring 0.4. *)
Definition two_results : list SearchResult :=
  [result 1 (codes "reference") half (codes "documentation");
   result 2 (codes "snippet") lit_0_4 CODE_EXAMPLE].

(** Three documentation chunks scoring 0.5, NaN and 1.0. *)
Definition results_with_nan : list SearchResult :=
  [result 1 (codes "first") half (codes "documentation");
   result 2 (codes "second") S754_nan (codes "documentation");
   result 3 (codes "third") one (codes "documentation")].

End RankExamples.

Module RetrieveExamples.
Import Py Float VectorDatabase ContextManager.

(** An embedding service that maps every text to [[1.0, 0.0]]. *)
Definition embed_east (text : str) : list f64 := [one; zero].

Definition text_a : str := repeat 97%N 24.
Definition text_b : str := repeat 98%N 24.
Definition text_c : str := repeat 99%N 4.

(** Three rows, most similar first: estimates of 6, 6 and 1 tokens. *)
Definition store : list Row :=
  [{| row_id := 1; row_text := text_a;
      row_embedding := [SearchExamples.one32; zero];
      row_metadata := None |};
   {| row_id := 2; row_text := text_b;
      row_embedding := [SearchExamples.one32; SearchExamples.one32];
      row_metadata := None |};
   {| row_id := 3; row_text := text_c;
      row_embedding := [zero; SearchExamples.one32];
      row_metadata := None |}].

(** A manager with a budget of 10 tokens. *)
Definition manager : ContextManager := {| db := store; max_tokens := 10 |}.

Definition query : str := codes "parse a file".
Definition library : str := codes "requests".

End RetrieveExamples.

Module AgentExamples.
Import Py Float Agent.

(** A state as some stage could hand it to [should_continue]. *)
Definition state_with (count : Z) (action : string) : AgentState :=
  {| library_name := codes "requests";
     task := codes "Make a GET request to an API";
     messages := [];
     search_results := None; crawled_documentation := None;
     github_info := None; code_examples := None;
     relevant_context := None; generated_code := None;
     explanation := None; confidence_score := zero;
     iteration_count := Some count; error_message := None;
     next_action := Some action |}.

(** [MAX_ITERATIONS=5] in the environment. *)
Definition cap_5 : Config.Settings :=
  {| Config.max_iterations := 5;
     Config.max_context_tokens := 8000;
     Config.chunk_size := 1000;
     Config.chunk_overlap := 200;
     Config.top_k_results := 5 |}.

(** [MAX_ITERATIONS=20] in the environment. *)
Definition cap_20 : Config.Settings :=
  {| Config.max_iterations := 20;
     Config.max_context_tokens := 8000;
     Config.chunk_size := 1000;
     Config.chunk_overlap := 200;
     Config.top_k_results := 5 |}.

(** A crawler that is never reached in the degraded path. *)
Definition no_crawl (url instructions : str) : CrawlData :=
  {| crawl_results := None |}.

End AgentExamples.

Module CoverageExamples.
Import Py Float VectorDatabase Chunker.

(** [CHUNK_OVERLAP=0] in the environment. *)
Definition no_overlap : Config.Settings :=
  {| Config.max_iterations := 10;
     Config.max_context_tokens := 8000;
     Config.chunk_size := 1000;
     Config.chunk_overlap := 0;
     Config.top_k_results := 5 |}.

(** [SemanticChunker(chunk_size=10)] under those settings: [__init__]
    finds no overlap among its arguments and takes the 0 of the
    settings. *)
Definition chunker_10_0 : SemanticChunker :=
  Chunker.init no_overlap (Some 10) None.

(** Two definitions, the second on a line of its own. *)
Definition two_definitions : str :=
  (codes "def f(): pass" ++ [NL] ++ codes "def g(): pass")%list.

(** An embedding service that maps every text to [[1.0, 0.0]]. *)
Definition embed_all_east (texts : list str) : list (list f64) :=
  List.map (fun _ => [one; zero]) texts.

Definition two_examples : list str :=
  [codes "import requests"; codes "requests.get(url)"].

(** [set] as the list of first occurrences. *)
Definition first_occurrences (l : list str) : list str :=
  List.nodup (list_eq_dec N.eq_dec) l.

(** A README with one fenced block of 53 characters. *)
Definition readme_block : str :=
  codes "import requests; r = requests.get(url); print(r.text)".

Definition readme : str :=
  (codes "Usage" ++ [NL] ++ codes "```python" ++ [NL] ++ readme_block
     ++ [NL] ++ codes "```" ++ [NL])%list.

Definition github : Agent.GithubInfo :=
  {| Agent.gh_found := true; Agent.gh_readme := Some readme |}.

End CoverageExamples.

Unset Implicit Arguments.

(* ================================================================== *)
(** * Facts about the string operations *)
(* ================================================================== *)

Section ContainsFacts.
Import Py.

(** [needle in hay]: [hay] has [needle] as a contiguous part. *)
Definition occurs_in (needle hay : str) : Prop :=
  exists pre post, hay = (pre ++ needle ++ post)%list.

Lemma is_prefix_spec (p s : str) :
  is_prefix p s = true <-> exists post, s = (p ++ post)%list.
Proof.
  revert s; induction p as [|x p IH]; intros s; cbn.
  - split; [intros _; exists s; reflexivity | reflexivity].
  - destruct s as [|y s].
    + split; [discriminate | intros [post H]; discriminate].
    + rewrite andb_true_iff, N.eqb_eq, IH. split.
      * intros [-> [post ->]]. exists post. reflexivity.
      * intros [post H]. injection H as -> ->. split; eauto.
Qed.

Lemma contains_spec (needle hay : str) :
  contains needle hay = true <-> occurs_in needle hay.
Proof.
  unfold occurs_in.
  induction hay as [|c hay IH]; cbn [contains].
  - rewrite orb_false_r, is_prefix_spec. split.
    + intros [post H]. exists [], post. exact H.
    + intros (pre & post & H). destruct pre as [|a pre].
      * exists post. exact H.
      * discriminate.
  - rewrite orb_true_iff, is_prefix_spec, IH. split.
    + intros [[post H] | (pre & post & H)].
      * exists [], post. exact H.
      * exists (c :: pre), post. rewrite H. reflexivity.
    + intros (pre & post & H). destruct pre as [|a pre].
      * left. exists post. exact H.
      * right. injection H as _ H'. exists pre, post. exact H'.
Qed.

End ContainsFacts.

Section StripFacts.
Import Py.

(** A string that starts with a character [strip] keeps. *)
Definition starts_visible (s : str) : Prop :=
  exists c r, s = c :: r /\ is_space c = false.

Lemma starts_visible_truthy (s : str) : starts_visible s -> truthy s = true.
Proof. intros (c & r & -> & _). reflexivity. Qed.

Lemma lstrip_decompose (s : str) :
  exists pre, s = (pre ++ lstrip s)%list /\ Forall (fun c => is_space c = true) pre.
Proof.
  induction s as [|c s (pre & E & F)]; cbn [lstrip].
  - exists []. split; [reflexivity | constructor].
  - destruct (is_space c) eqn:Hc.
    + exists (c :: pre). split; [cbn; congruence | constructor; assumption].
    + exists []. split; [reflexivity | constructor].
Qed.

Lemma lstrip_head (s : str) :
  lstrip s = [] \/ starts_visible (lstrip s).
Proof.
  induction s as [|c s IH]; cbn [lstrip].
  - left; reflexivity.
  - destruct (is_space c) eqn:Hc; [exact IH|].
    right. exists c, s. split; [reflexivity | exact Hc].
Qed.

Lemma lstrip_keeps (s : str) (c : char) :
  In c s -> is_space c = false -> In c (lstrip s).
Proof.
  induction s as [|x s IH]; cbn [lstrip]; intros Hin Hc; [contradiction|].
  destruct (is_space x) eqn:Hx; [|exact Hin].
  destruct Hin as [-> | Hin]; [congruence | auto].
Qed.

Lemma lstrip_incl (s : str) (c : char) : In c (lstrip s) -> In c s.
Proof.
  destruct (lstrip_decompose s) as (pre & E & _).
  intros H. rewrite E. apply in_or_app. right. exact H.
Qed.

Lemma rstrip_prefix (s : str) :
  exists post, s = (rstrip s ++ post)%list.
Proof.
  unfold rstrip.
  destruct (lstrip_decompose (rev s)) as (pre & E & _).
  exists (rev pre).
  rewrite <- rev_app_distr, <- E, rev_involutive. reflexivity.
Qed.

Lemma rstrip_keeps (s : str) (c : char) :
  In c s -> is_space c = false -> In c (rstrip s).
Proof.
  intros Hin Hc. unfold rstrip.
  apply -> in_rev. apply lstrip_keeps; [apply in_rev in Hin; exact Hin | exact Hc].
Qed.

Lemma strip_keeps (s : str) (c : char) :
  In c s -> is_space c = false -> In c (strip s).
Proof.
  intros Hin Hc. unfold strip.
  apply rstrip_keeps; [apply lstrip_keeps|]; assumption.
Qed.

Lemma strip_incl (s : str) (c : char) : In c (strip s) -> In c s.
Proof.
  unfold strip. intros H. apply lstrip_incl.
  destruct (rstrip_prefix (lstrip s)) as (post & E).
  rewrite E. apply in_or_app. left. exact H.
Qed.

(** What [strip] returns is empty or starts with a visible character. *)
Lemma strip_head (s : str) : strip s = [] \/ starts_visible (strip s).
Proof.
  unfold strip.
  destruct (rstrip_prefix (lstrip s)) as (post & E).
  destruct (rstrip (lstrip s)) as [|c r] eqn:R; [left; reflexivity|].
  right. exists c, r. split; [reflexivity|].
  destruct (lstrip_head s) as [H | (c' & r' & H & Hc')].
  - rewrite H in E. discriminate.
  - rewrite H in E. cbn in E. injection E as -> _. exact Hc'.
Qed.

Lemma strip_truthy_visible (s : str) :
  truthy (strip s) = true -> starts_visible (strip s).
Proof.
  destruct (strip_head s) as [-> | H]; [discriminate | intros _; exact H].
Qed.

Lemma visible_strip_truthy (s : str) (c : char) :
  In c s -> is_space c = false -> truthy (strip s) = true.
Proof.
  intros Hin Hc. pose proof (strip_keeps s c Hin Hc) as H.
  destruct (strip s); [contradiction | reflexivity].
Qed.

Lemma join_head (sep p : str) (ps : list str) :
  starts_visible p -> starts_visible (join sep (p :: ps)).
Proof.
  intros (c & r & -> & Hc). cbn [join].
  destruct ps as [|q ps].
  - exists c, r. auto.
  - exists c, (r ++ sep ++ join sep (q :: ps))%list. auto.
Qed.

Lemma join_incl (sep : str) (parts : list str) (c : char) :
  In c (join sep parts) ->
  In c sep \/ exists p, In p parts /\ In c p.
Proof.
  induction parts as [|p ps IH]; cbn [join]; [contradiction|].
  destruct ps as [|q ps].
  - intros H. right. exists p. split; [left; reflexivity | exact H].
  - intros H. apply in_app_or in H. destruct H as [H | H].
    + right. exists p. split; [left; reflexivity | exact H].
    + apply in_app_or in H. destruct H as [H | H]; [left; exact H|].
      destruct (IH H) as [H' | (p' & Hp' & H')]; [left; exact H'|].
      right. exists p'. split; [right; exact Hp' | exact H'].
Qed.

(** Every character of the text other than a newline lands in one of the
    pieces of [re.split]. *)
Lemma re_split_aux_keeps (c : char) (s : str) :
  c <> NL ->
  forall skipping cur,
    In c cur \/ In c s ->
    exists p, In p (re_split_paragraphs_aux skipping cur s) /\ In c p.
Proof.
  intros Hc. induction s as [|x s IH]; intros skipping cur H;
    cbn [re_split_paragraphs_aux].
  - destruct H as [H | []].
    exists (rev cur). split; [left; reflexivity | apply -> in_rev; exact H].
  - assert (Hx : (x =? NL)%N = true -> In c cur \/ In c s).
    { intros E. apply N.eqb_eq in E. subst x.
      destruct H as [H | [H | H]]; auto. congruence. }
    assert (Hpush : In c (x :: cur) \/ In c s).
    { destruct H as [H | [H | H]]; [left; right | left; left | right];
        assumption. }
    destruct (x =? NL)%N eqn:E.
    + specialize (Hx eq_refl).
      destruct skipping; [apply IH; exact Hx|].
      destruct s as [|c2 s'] eqn:Es; [apply IH; exact Hpush|].
      destruct (c2 =? NL)%N eqn:E2; [|apply IH; exact Hpush].
      destruct Hx as [Hx | Hx].
      * exists (rev cur). split; [left; reflexivity | apply -> in_rev; exact Hx].
      * destruct (IH true [] (or_intror Hx)) as (p & Hp & Hin).
        exists p. split; [right; exact Hp | exact Hin].
    + apply IH; exact Hpush.
Qed.

Lemma re_split_keeps (c : char) (text : str) :
  In c text -> c <> NL ->
  exists p, In p (re_split_paragraphs text) /\ In c p.
Proof.
  intros H Hc. apply re_split_aux_keeps; [exact Hc | right; exact H].
Qed.

(** The pieces of [re.split] hold characters of the text only. *)
Lemma re_split_aux_incl (c : char) (s : str) :
  forall skipping cur p,
    In p (re_split_paragraphs_aux skipping cur s) -> In c p ->
    In c cur \/ In c s.
Proof.
  induction s as [|x s IH]; intros skipping cur p Hp Hin;
    cbn [re_split_paragraphs_aux] in Hp.
  - destruct Hp as [<- | []]. left. apply in_rev. exact Hin.
  - assert (Hpush : In p (re_split_paragraphs_aux false (x :: cur) s) ->
                    In c cur \/ In c (x :: s)).
    { intros H. destruct (IH _ _ _ H Hin) as [[-> | H'] | H'];
        [right; left; reflexivity | left; exact H' | right; right; exact H']. }
    destruct (x =? NL)%N eqn:E; [|apply Hpush; exact Hp].
    destruct skipping.
    + destruct (IH _ _ _ Hp Hin) as [H | H]; [left | right; right]; exact H.
    + destruct s as [|c2 s'] eqn:Es; [apply Hpush; exact Hp|].
      destruct (c2 =? NL)%N eqn:E2; [|apply Hpush; exact Hp].
      destruct Hp as [<- | Hp].
      * left. apply in_rev. exact Hin.
      * destruct (IH _ _ _ Hp Hin) as [[] | H]. right; right; exact H.
Qed.

Lemma re_split_incl (c : char) (text p : str) :
  In p (re_split_paragraphs text) -> In c p -> In c text.
Proof.
  intros Hp Hin.
  destruct (re_split_aux_incl c text false [] p Hp Hin) as [[] | H]; exact H.
Qed.

End StripFacts.

Section SliceFacts.
Import Py.

Lemma len_nonneg {A} (l : list A) : 0 <= len l.
Proof. unfold len. lia. Qed.

Lemma clamp_range (n i : Z) : 0 <= n -> 0 <= clamp n i <= n.
Proof.
  intros Hn. unfold clamp. destruct (Z.ltb_spec i 0); lia.
Qed.

Lemma in_firstn {A} (n : nat) (l : list A) (x : A) :
  In x (firstn n l) -> In x l.
Proof.
  intros H. rewrite <- (firstn_skipn n l). apply in_or_app. left. exact H.
Qed.

Lemma in_skipn {A} (n : nat) (l : list A) (x : A) :
  In x (skipn n l) -> In x l.
Proof.
  intros H. rewrite <- (firstn_skipn n l). apply in_or_app. right. exact H.
Qed.

Lemma slice_incl {A} (l : list A) (a b : Z) (x : A) :
  In x (slice l a b) -> In x l.
Proof.
  unfold slice. intros H.
  apply in_firstn in H. apply in_skipn in H. exact H.
Qed.

(** A slice from 0 to a positive bound keeps the first element. *)
Lemma slice_from_zero {A} (x : A) (r : list A) (b : Z) :
  1 <= b -> exists r', slice (x :: r) 0 b = x :: r'.
Proof.
  intros Hb. unfold slice.
  assert (Hlen : len (x :: r) = 1 + len r).
  { unfold len. cbn [List.length]. lia. }
  pose proof (len_nonneg r) as Hr.
  replace (clamp (len (x :: r)) 0) with 0
    by (unfold clamp; cbn; lia).
  assert (Hhi : 1 <= clamp (len (x :: r)) b).
  { unfold clamp. destruct (Z.ltb_spec b 0); lia. }
  cbn [Z.to_nat skipn].
  destruct (Z.to_nat (clamp (len (x :: r)) b - 0)) as [|k] eqn:E; [lia|].
  exists (firstn k r). reflexivity.
Qed.

Lemma last_index_absent (c : char) (w : str) :
  ~ In c w -> last_index c w = None.
Proof.
  induction w as [|x w IH]; cbn [last_index]; intros H; [reflexivity|].
  rewrite IH by (intros H'; apply H; right; exact H').
  destruct (N.eqb_spec x c) as [-> | _]; [|reflexivity].
  exfalso. apply H. left. reflexivity.
Qed.

Lemma rfind_absent (s : str) (c : char) (a b : Z) :
  ~ In c s -> rfind s c a b = -1.
Proof.
  intros H. unfold rfind.
  rewrite last_index_absent; [reflexivity|].
  intros H'. apply H. eapply slice_incl. exact H'.
Qed.

(** [rfind] answers -1 or an index of the string. *)
Lemma rfind_range (s : str) (c : char) (a b : Z) :
  rfind s c a b = -1 \/ 0 <= rfind s c a b.
Proof.
  unfold rfind.
  destruct (last_index c (slice s a b)) as [i|]; [right | left; reflexivity].
  pose proof (clamp_range (len s) a (len_nonneg s)). lia.
Qed.

End SliceFacts.

(* ================================================================== *)
(** * Properties of the chunker *)
(* ================================================================== *)

Section SemanticPass.
Import Py Chunker.

Variable self : SemanticChunker.

(** The loop invariant of the paragraph pass: every emitted chunk and
    every accumulated paragraph starts with a visible character. *)
Definition sem_inv (st : sem_state) : Prop :=
  let '(chunks, current_chunk, _) := st in
  Forall starts_visible chunks /\ Forall starts_visible current_chunk.

Lemma last_item_in (parts : list str) :
  parts <> [] -> In (last_item parts) parts.
Proof.
  unfold last_item. induction parts as [|p ps IH]; [congruence|].
  intros _. destruct ps as [|q ps]; [left; reflexivity|].
  right. apply IH. discriminate.
Qed.

Lemma join_visible (parts : list str) :
  truthy parts = true -> Forall starts_visible parts ->
  starts_visible (join PARA_SEP parts).
Proof.
  destruct parts as [|p ps]; [discriminate|].
  intros _ H. apply join_head. inversion H; assumption.
Qed.

Lemma sem_step_inv (st : sem_state) (para0 : str) :
  sem_inv st -> sem_inv (sem_step self st para0).
Proof.
  destruct st as [[chunks current] clen]. intros [Hc Hcur].
  unfold sem_step.
  destruct (truthy (strip para0)) eqn:Hp; cbn [negb]; [|split; assumption].
  apply strip_truthy_visible in Hp.
  destruct ((clen + len (strip para0) >? chunk_size self) && truthy current)
    eqn:Hemit.
  - apply andb_true_iff in Hemit. destruct Hemit as [_ Hne].
    assert (Hchunks : Forall starts_visible
                        (chunks ++ [join PARA_SEP current])).
    { apply Forall_app. split; [exact Hc|].
      constructor; [apply join_visible; assumption | constructor]. }
    destruct ((chunk_overlap self >? 0) && (len current >? 1)).
    + split; [exact Hchunks|].
      constructor; [|constructor; [exact Hp | constructor]].
      rewrite Forall_forall in Hcur. apply Hcur. apply last_item_in.
      destruct current; [discriminate | discriminate].
    + split; [exact Hchunks | constructor; [exact Hp | constructor]].
  - split; [exact Hc|].
    apply Forall_app. split; [exact Hcur | constructor; [exact Hp | constructor]].
Qed.

Lemma sem_fold_inv (paras : list str) :
  forall st, sem_inv st -> sem_inv (fold_left (sem_step self) paras st).
Proof.
  induction paras as [|p paras IH]; intros st H; cbn [fold_left];
    [exact H | apply IH, sem_step_inv, H].
Qed.

(** Once a paragraph has been accumulated, [current_chunk] is never
    empty again. *)
Lemma sem_step_current (st : sem_state) (para0 : str) :
  truthy (snd (fst st)) = true \/ truthy (strip para0) = true ->
  truthy (snd (fst (sem_step self st para0))) = true.
Proof.
  destruct st as [[chunks current] clen]. cbn [fst snd]. unfold sem_step.
  destruct (truthy (strip para0)) eqn:Hp; cbn [negb fst snd].
  - intros _.
    destruct ((clen + len (strip para0) >? chunk_size self) && truthy current).
    + destruct ((chunk_overlap self >? 0) && (len current >? 1)); reflexivity.
    + cbn [fst snd]. destruct current; reflexivity.
  - intros [H | H]; [exact H | discriminate].
Qed.

Lemma sem_fold_current (paras : list str) :
  forall st,
    truthy (snd (fst st)) = true
    \/ (exists p, In p paras /\ truthy (strip p) = true) ->
    truthy (snd (fst (fold_left (sem_step self) paras st))) = true.
Proof.
  induction paras as [|p paras IH]; intros st H; cbn [fold_left].
  - destruct H as [H | (p & [] & _)]. exact H.
  - apply IH.
    destruct H as [H | (q & [<- | Hq] & Hs)].
    + left. apply sem_step_current. left. exact H.
    + left. apply sem_step_current. right. exact Hs.
    + right. exists q. split; assumption.
Qed.

(** Every chunk of the paragraph pass starts with a visible character. *)
Lemma semantic_chunks_visible (text : str) :
  Forall starts_visible (split_by_semantic_boundaries self text).
Proof.
  unfold split_by_semantic_boundaries.
  pose proof (sem_fold_inv (re_split_paragraphs text) ([], [], 0)) as H.
  destruct (fold_left _ _ _) as [[chunks current] clen].
  destruct H as [Hc Hcur]; [split; constructor|].
  destruct (truthy current) eqn:Ht; [|exact Hc].
  apply Forall_app. split; [exact Hc|].
  constructor; [apply join_visible; assumption | constructor].
Qed.

(** A text with a visible character yields at least one chunk. *)
Lemma semantic_chunks_nonempty (text : str) (c : char) :
  In c text -> is_space c = false ->
  split_by_semantic_boundaries self text <> [].
Proof.
  intros Hin Hc.
  assert (Hnl : c <> NL) by (intros ->; discriminate).
  destruct (re_split_keeps c text Hin Hnl) as (p & Hp & Hcp).
  unfold split_by_semantic_boundaries.
  pose proof (sem_fold_current (re_split_paragraphs text) ([], [], 0)) as H.
  destruct (fold_left _ _ _) as [[chunks current] clen].
  cbn [fst snd] in H. rewrite H.
  - destruct chunks; discriminate.
  - right. exists p. split; [exact Hp|].
    eapply visible_strip_truthy; eassumption.
Qed.

End SemanticPass.

Section SizePass.
Import Py Chunker.

Variable self : SemanticChunker.

(** The loop only appends, and only non-empty chunks. *)
Lemma split_loop_extends (text : str) (fuel : nat) :
  forall start chunks out,
    split_loop fuel self text start chunks = Some out ->
    exists rest, out = (chunks ++ rest)%list
                 /\ Forall (fun c => truthy c = true) rest.
Proof.
  induction fuel as [|fuel IH]; intros start chunks out; cbn [split_loop];
    [discriminate|].
  destruct (start <? len text).
  - intros H. apply IH in H. destruct H as (rest & -> & Hrest).
    destruct (truthy (w_chunk (size_step self text start))) eqn:Ht.
    + exists (w_chunk (size_step self text start) :: rest).
      split; [rewrite <- app_assoc; reflexivity | constructor; assumption].
    + exists rest. split; [reflexivity | exact Hrest].
  - intros H. injection H as <-. exists [].
    split; [rewrite app_nil_r; reflexivity | constructor].
Qed.

(** More fuel does not change a result. *)
Lemma split_loop_mono (text : str) (fuel : nat) :
  forall start chunks out extra,
    split_loop fuel self text start chunks = Some out ->
    split_loop (fuel + extra) self text start chunks = Some out.
Proof.
  induction fuel as [|fuel IH]; intros start chunks out extra;
    cbn [split_loop Nat.add]; [discriminate|].
  destruct (start <? len text); [apply IH | trivial].
Qed.

(** On a text that starts with a visible character the first window
    contributes a chunk. *)
Lemma first_window_emits (text : str) :
  starts_visible text -> 0 < chunk_size self ->
  truthy (w_chunk (size_step self text 0)) = true.
Proof.
  intros (c & r & -> & Hc) Hsize.
  unfold size_step; cbn [w_chunk].
  set (se := Z.max _ _).
  set (end1 := if 0 + chunk_size self <? len (c :: r) then _ else _).
  assert (Hend : 1 <= end1).
  { subst end1. destruct (_ <? _); [|lia].
    destruct (Z.gtb_spec se 0); lia. }
  destruct (slice_from_zero c r end1 Hend) as (r' & ->).
  apply visible_strip_truthy with (c := c); [left; reflexivity | exact Hc].
Qed.

Lemma split_by_size_sound (text : str) (fuel : nat) (out : list str) :
  starts_visible text -> 0 < chunk_size self ->
  split_by_size fuel self text = Some out ->
  out <> [] /\ Forall (fun c => truthy c = true) out.
Proof.
  intros Hv Hsize. unfold split_by_size.
  destruct fuel as [|fuel]; cbn [split_loop]; [discriminate|].
  assert (Hlen : (0 <? len text) = true).
  { destruct Hv as (c & r & -> & _). unfold len. cbn [List.length].
    apply Z.ltb_lt. lia. }
  rewrite Hlen, (first_window_emits text Hv Hsize). intros H.
  apply split_loop_extends in H. destruct H as (rest & -> & Hrest).
  split; [discriminate|].
  constructor; [apply first_window_emits; assumption | exact Hrest].
Qed.

Lemma chunk_text_loop_sound (fuel : nat) (chunks : list str) :
  0 < chunk_size self ->
  Forall starts_visible chunks ->
  forall out,
    chunk_text_loop fuel self chunks = Some out ->
    Forall (fun c => truthy c = true) out /\ (chunks <> [] -> out <> []).
Proof.
  intros Hsize. induction chunks as [|chunk rest IH]; intros Hv out;
    cbn [chunk_text_loop].
  - intros H. injection H as <-. split; [constructor | congruence].
  - inversion Hv as [|? ? Hchunk Hrest]; subst.
    destruct (len chunk >? chunk_size self).
    + destruct (split_by_size fuel self chunk) as [pieces|] eqn:Hs;
        [|discriminate].
      destruct (split_by_size_sound chunk fuel pieces Hchunk Hsize Hs)
        as [Hne Hall].
      destruct (chunk_text_loop fuel self rest) as [final|];
        [|discriminate].
      intros H. injection H as <-.
      destruct (IH Hrest final eq_refl) as [Hfinal _].
      split; [apply Forall_app; split; assumption|].
      intros _ E. apply app_eq_nil in E. destruct E. contradiction.
    + destruct (chunk_text_loop fuel self rest) as [final|];
        [|discriminate].
      intros H. injection H as <-.
      destruct (IH Hrest final eq_refl) as [Hfinal _].
      split; [|discriminate].
      constructor; [apply starts_visible_truthy; exact Hchunk | exact Hfinal].
Qed.

Lemma chunk_text_loop_mono (fuel extra : nat) (chunks : list str) :
  forall out,
    chunk_text_loop fuel self chunks = Some out ->
    chunk_text_loop (fuel + extra) self chunks = Some out.
Proof.
  induction chunks as [|chunk rest IH]; intros out; cbn [chunk_text_loop];
    [trivial|].
  destruct (len chunk >? chunk_size self).
  - unfold split_by_size.
    destruct (split_loop fuel self chunk 0 []) as [pieces|] eqn:Hs;
      [|discriminate].
    rewrite (split_loop_mono chunk fuel 0 [] pieces extra Hs).
    destruct (chunk_text_loop fuel self rest) as [final|]; [|discriminate].
    rewrite (IH final eq_refl). trivial.
  - destruct (chunk_text_loop fuel self rest) as [final|]; [|discriminate].
    rewrite (IH final eq_refl). trivial.
Qed.

(** ** Texts without sentence punctuation *)

Definition no_sentence_end (s : str) : Prop :=
  ~ In DOT s /\ ~ In BANG s /\ ~ In QUESTION s.

(** Without a sentence end to stop at, a window from a non-negative
    [start] is exactly [chunk_size] long. *)
Lemma size_step_plain (text : str) (start : Z) :
  no_sentence_end text -> 0 <= start ->
  w_end (size_step self text start) = start + chunk_size self.
Proof.
  intros (Hd & Hb & Hq) Hstart. unfold size_step; cbn [w_end].
  rewrite !rfind_absent by assumption.
  destruct (_ <? _); [|reflexivity].
  destruct (Z.gtb_spec (Z.max (Z.max (-1) (-1)) (-1)) start); lia.
Qed.

Lemma w_next_unfold (text : str) (start : Z) :
  w_next (size_step self text start)
  = let e := w_end (size_step self text start) in
    if e <? len text then e - chunk_overlap self else e.
Proof. reflexivity. Qed.

Lemma split_loop_terminates (text : str) :
  no_sentence_end text ->
  0 < chunk_size self ->
  chunk_overlap self < chunk_size self ->
  forall n start chunks,
    0 <= start -> len text - start <= Z.of_nat n ->
    exists out, split_loop (S n) self text start chunks = Some out.
Proof.
  intros Hno Hsize Hov. induction n as [|n IH]; intros start chunks Hs Hn.
  - cbn [split_loop]. destruct (Z.ltb_spec start (len text)); [lia|].
    eexists; reflexivity.
  - cbn [split_loop]. fold (split_loop (S n) self text).
    destruct (Z.ltb_spec start (len text)); [|eexists; reflexivity].
    apply IH.
    + rewrite w_next_unfold, size_step_plain by assumption. cbn zeta.
      destruct (_ <? _); lia.
    + rewrite w_next_unfold, size_step_plain by assumption. cbn zeta.
      destruct (Z.ltb_spec (start + chunk_size self) (len text)); lia.
Qed.

(** The chunks of the paragraph pass are made of characters of the text
    and of the newlines that join paragraphs. *)
Definition chars_from (text s : str) : Prop :=
  forall c, In c s -> c = NL \/ In c text.

Lemma join_chars_from (text : str) (parts : list str) :
  Forall (chars_from text) parts -> chars_from text (join PARA_SEP parts).
Proof.
  intros H c Hc. apply join_incl in Hc.
  destruct Hc as [[<- | [<- | []]] | (p & Hp & Hc)]; try (left; reflexivity).
  rewrite Forall_forall in H. exact (H p Hp c Hc).
Qed.

Lemma sem_step_chars (text : str) (st : sem_state) (para0 : str) :
  chars_from text para0 ->
  Forall (chars_from text) (fst (fst st))
  /\ Forall (chars_from text) (snd (fst st)) ->
  Forall (chars_from text) (fst (fst (sem_step self st para0)))
  /\ Forall (chars_from text) (snd (fst (sem_step self st para0))).
Proof.
  destruct st as [[chunks current] clen]. cbn [fst snd].
  intros Hp [Hc Hcur]. unfold sem_step.
  assert (Hs : chars_from text (strip para0)).
  { intros c Hin. apply Hp. apply strip_incl. exact Hin. }
  destruct (truthy (strip para0)); cbn [negb fst snd]; [|split; assumption].
  destruct ((clen + len (strip para0) >? chunk_size self) && truthy current)
    eqn:Hemit.
  - assert (Hchunks : Forall (chars_from text)
                        (chunks ++ [join PARA_SEP current])).
    { apply Forall_app. split; [exact Hc|].
      constructor; [apply join_chars_from; exact Hcur | constructor]. }
    apply andb_true_iff in Hemit. destruct Hemit as [_ Hne].
    destruct ((chunk_overlap self >? 0) && (len current >? 1));
      cbn [fst snd]; (split; [exact Hchunks|]).
    + constructor; [|constructor; [exact Hs | constructor]].
      rewrite Forall_forall in Hcur. apply Hcur. apply last_item_in.
      destruct current; discriminate.
    + constructor; [exact Hs | constructor].
  - cbn [fst snd]. split; [exact Hc|].
    apply Forall_app. split; [exact Hcur | constructor; [exact Hs | constructor]].
Qed.

Lemma semantic_chunks_chars (text : str) :
  Forall (chars_from text) (split_by_semantic_boundaries self text).
Proof.
  unfold split_by_semantic_boundaries.
  assert (H : forall paras st,
             Forall (chars_from text) paras ->
             Forall (chars_from text) (fst (fst st))
             /\ Forall (chars_from text) (snd (fst st)) ->
             Forall (chars_from text)
                    (fst (fst (fold_left (sem_step self) paras st)))
             /\ Forall (chars_from text)
                       (snd (fst (fold_left (sem_step self) paras st)))).
  { induction paras as [|p paras IH]; intros st Hp Hst; cbn [fold_left];
      [exact Hst|].
    inversion Hp; subst. apply IH; [assumption|].
    apply sem_step_chars; assumption. }
  specialize (H (re_split_paragraphs text) ([], [], 0)).
  destruct (fold_left _ _ _) as [[chunks current] clen]. cbn [fst snd] in H.
  destruct H as [Hc Hcur].
  - apply Forall_forall. intros p Hp c Hc. right.
    eapply re_split_incl; eassumption.
  - split; constructor.
  - destruct (truthy current); [|exact Hc].
    apply Forall_app. split; [exact Hc|].
    constructor; [apply join_chars_from; exact Hcur | constructor].
Qed.

Lemma chars_from_no_sentence_end (text s : str) :
  no_sentence_end text -> chars_from text s -> no_sentence_end s.
Proof.
  intros (Hd & Hb & Hq) H.
  repeat split; intros Hin; destruct (H _ Hin) as [E | E];
    try discriminate; contradiction.
Qed.

Lemma chunk_text_loop_terminates (chunks : list str) :
  0 < chunk_size self ->
  chunk_overlap self < chunk_size self ->
  Forall no_sentence_end chunks ->
  exists fuel out, chunk_text_loop fuel self chunks = Some out.
Proof.
  intros Hsize Hov. induction chunks as [|chunk rest IH]; intros H.
  - exists O, []. reflexivity.
  - inversion H as [|? ? Hchunk Hrest]; subst.
    destruct (IH Hrest) as (f2 & final & Hfinal).
    destruct (split_loop_terminates chunk Hchunk Hsize Hov
                (Z.to_nat (len chunk)) 0 [] (Z.le_refl 0))
      as (pieces & Hpieces).
    { pose proof (len_nonneg chunk). lia. }
    set (f1 := S (Z.to_nat (len chunk))) in *.
    assert (Hr : chunk_text_loop (f1 + f2) self rest = Some final).
    { rewrite Nat.add_comm. apply chunk_text_loop_mono. exact Hfinal. }
    assert (Hp : split_by_size (f1 + f2) self chunk = Some pieces).
    { apply split_loop_mono. exact Hpieces. }
    exists (f1 + f2)%nat. cbn [chunk_text_loop]. rewrite Hr, Hp.
    destruct (len chunk >? chunk_size self); eexists; reflexivity.
Qed.

End SizePass.

Section SplitBySizeStuck.
Import Py Chunker ChunkerExamples.

Variable self : SemanticChunker.
Variable text : str.
Variable start : Z.
Hypothesis Hlt : (start <? len text) = true.
Hypothesis Hback : w_next (size_step self text start) = start.

(** When an iteration hands back the [start] it was given, the loop
    condition stays true and no amount of fuel ends the loop. *)
Lemma split_loop_stuck (fuel : nat) :
  forall chunks, split_loop fuel self text start chunks = None.
Proof.
  induction fuel as [|fuel IH]; intros chunks; cbn [split_loop].
  - reflexivity.
  - rewrite Hlt, Hback. apply IH.
Qed.

End SplitBySizeStuck.

Section SizeLoopStuck.
Import Py Chunker ChunkerExamples.

(** C10, evaluated on a configuration the claim covers
    ([chunk_size = 10 > 0], [0 <= chunk_overlap = 2 < 10]): on the text
    ["x.yyyyyyyyyyyyyyy"] the backward search moves [end] to 2, just
    after the full stop, and [start = end - chunk_overlap] is 0 again;
    the start index makes no progress and [chunk_text] returns for no
    number of loop iterations.  The same happens with the default
    configuration (1000, 200) when the last full stop of the first window
    is at index 199. *)
Theorem chunk_text_does_not_terminate :
  (0 < chunk_size chunker_10_2
   /\ 0 <= chunk_overlap chunker_10_2 < chunk_size chunker_10_2
   /\ w_end (size_step chunker_10_2 stuck_text 0) = 2
   /\ w_next (size_step chunker_10_2 stuck_text 0) = 0
   /\ forall fuel, chunk_text fuel chunker_10_2 stuck_text = None)
  /\ (w_next (size_step default_chunker stuck_text_default 0) = 0
      /\ forall fuel,
          chunk_text fuel default_chunker stuck_text_default = None).
Proof.
  split.
  - split; [reflexivity|]. split; [cbn; lia|].
    split; [reflexivity|]. split; [reflexivity|].
    intros fuel. unfold chunk_text.
    replace (split_by_semantic_boundaries chunker_10_2 stuck_text)
      with [stuck_text] by (vm_compute; reflexivity).
    cbn [chunk_text_loop].
    replace (len stuck_text >? chunk_size chunker_10_2) with true
      by (vm_compute; reflexivity).
    unfold split_by_size.
    rewrite split_loop_stuck; reflexivity.
  - split; [vm_compute; reflexivity|].
    intros fuel. unfold chunk_text.
    replace (split_by_semantic_boundaries default_chunker stuck_text_default)
      with [stuck_text_default] by (vm_compute; reflexivity).
    cbn [chunk_text_loop].
    replace (len stuck_text_default >? chunk_size default_chunker) with true
      by (vm_compute; reflexivity).
    unfold split_by_size.
    rewrite split_loop_stuck; vm_compute; reflexivity.
Qed.

End SizeLoopStuck.

Section ChunkTextResult.
Import Py Chunker.

(** The text has a character that [strip] keeps. *)
Definition has_visible (text : str) : Prop :=
  exists c, In c text /\ is_space c = false.

(** No chunk of the paragraph pass needs the size-based splitter. *)
Definition paragraphs_fit (self : SemanticChunker) (text : str) : Prop :=
  Forall (fun chunk => len chunk <= chunk_size self)
         (split_by_semantic_boundaries self text).

Lemma truthy_nonempty {A} (l : list A) : truthy l = true -> l <> [].
Proof. destruct l; [discriminate | discriminate]. Qed.

Lemma chunk_text_loop_fits (self : SemanticChunker) (chunks : list str) :
  Forall (fun chunk => len chunk <= chunk_size self) chunks ->
  chunk_text_loop 0 self chunks = Some chunks.
Proof.
  induction 1 as [|chunk rest Hc _ IH]; cbn [chunk_text_loop];
    [reflexivity|].
  destruct (Z.gtb_spec (len chunk) (chunk_size self)); [lia|].
  rewrite IH. reflexivity.
Qed.

(** C4, amended: for a positive [chunk_size], whenever [chunk_text]
    returns, no returned chunk is the empty string, and the returned list
    is non-empty when the text has a character that is not white space.
    It returns when no chunk of the paragraph pass is longer than
    [chunk_size], and also when [chunk_overlap < chunk_size] and the text
    holds none of the sentence ends ['.'], ['!'], ['?']. *)
Theorem chunk_text_nonempty (self : SemanticChunker) (text : str) :
  0 < chunk_size self ->
  (forall fuel out,
      chunk_text fuel self text = Some out ->
      Forall (fun chunk => chunk <> []) out
      /\ (has_visible text -> out <> []))
  /\ (paragraphs_fit self text ->
      exists out, chunk_text 0 self text = Some out)
  /\ (chunk_overlap self < chunk_size self -> no_sentence_end text ->
      exists fuel out, chunk_text fuel self text = Some out).
Proof.
  intros Hsize. split; [|split].
  - intros fuel out H. unfold chunk_text in H.
    destruct (chunk_text_loop_sound self fuel
                (split_by_semantic_boundaries self text) Hsize
                (semantic_chunks_visible self text) out H) as [Hall Hne].
    split.
    + eapply Forall_impl; [|exact Hall]. intros a. apply truthy_nonempty.
    + intros (c & Hin & Hc). apply Hne.
      eapply semantic_chunks_nonempty; eassumption.
  - intros Hfit. unfold chunk_text.
    rewrite (chunk_text_loop_fits self _ Hfit). eexists; reflexivity.
  - intros Hov Hno. unfold chunk_text.
    apply chunk_text_loop_terminates; [assumption | assumption|].
    eapply Forall_impl; [|apply semantic_chunks_chars].
    intros s. apply chars_from_no_sentence_end. exact Hno.
Qed.

End ChunkTextResult.

(** C4 as stated fails on a text of white space only: the single space is
    a non-empty input for which [chunk_text] returns the empty list. *)
Lemma chunk_text_blank_input :
  [Py.SPACE] <> []
  /\ forall fuel,
      Chunker.chunk_text fuel ChunkerExamples.default_chunker [Py.SPACE]
      = Some [].
Proof.
  split; [discriminate|]. intros fuel. reflexivity.
Qed.

(** The three short paragraphs under [chunk_size = 10]: the call returns
    and every chunk is non-empty. *)
Lemma chunk_text_nonempty_witness :
  exists out,
    Chunker.chunk_text 0 ChunkerExamples.chunker_10_1
                       ChunkerExamples.three_paragraphs = Some out
    /\ Forall (fun chunk => chunk <> []) out
    /\ out <> [].
Proof.
  destruct (chunk_text_nonempty ChunkerExamples.chunker_10_1
              ChunkerExamples.three_paragraphs) as (Hsound & Hfit & _).
  - cbn. lia.
  - destruct Hfit as (out & Hout).
    + unfold paragraphs_fit. vm_compute.
      repeat constructor; discriminate.
    + exists out. destruct (Hsound 0%nat out Hout) as [Hall Hne].
      split; [exact Hout | split; [exact Hall|]].
      apply Hne. exists 97%N. split; [left; reflexivity | reflexivity].
Defined.

Section Adjacency.

(** [R] holds of every element of [l] and the element right after it. *)
Definition adjacent {A} (R : A -> A -> Prop) (l : list A) : Prop :=
  forall pre x y post, l = (pre ++ x :: y :: post)%list -> R x y.

Lemma adjacent_nil {A} (R : A -> A -> Prop) : adjacent R [].
Proof. intros [|] x y post H; discriminate. Qed.

Lemma adjacent_cons {A} (R : A -> A -> Prop) (x : A) (l : list A) :
  (forall y l', l = y :: l' -> R x y) -> adjacent R l ->
  adjacent R (x :: l).
Proof.
  intros Hhead Hl [|p pre] a b post H.
  - injection H as -> ->. eapply Hhead. reflexivity.
  - injection H as -> ->. eapply Hl. reflexivity.
Qed.

Lemma nil_or_last {A} (l : list A) :
  l = [] \/ exists l' a, l = (l' ++ [a])%list.
Proof.
  induction l as [|x l IH] using rev_ind; [left; reflexivity|].
  right. exists l, x. reflexivity.
Qed.

Lemma adjacent_snoc {A} (R : A -> A -> Prop) (l : list A) (z : A) :
  adjacent R l -> (forall l' y, l = (l' ++ [y])%list -> R y z) ->
  adjacent R (l ++ [z]).
Proof.
  intros Hl Hlast pre x y post H.
  destruct (nil_or_last post) as [-> | (post' & w & ->)].
  - change (pre ++ [x; y])%list with (pre ++ [x] ++ [y])%list in H.
    rewrite app_assoc in H. apply app_inj_tail in H. destruct H as [-> ->].
    eapply Hlast. reflexivity.
  - change (pre ++ x :: y :: post' ++ [w])%list
      with (pre ++ (x :: y :: post') ++ [w])%list in H.
    rewrite app_assoc in H. apply app_inj_tail in H. destruct H as [-> _].
    eapply Hl. reflexivity.
Qed.

End Adjacency.

Section SizeWindows.
Import Py Chunker.

Variable self : SemanticChunker.
Variable text : str.

(** The positions of [text] a window's slice [text[start:end]] takes. *)
Definition covered (w : window) : Z * Z :=
  (clamp (len text) (w_start w), clamp (len text) (w_end w)).

(** How many positions of [text] two windows have in common. *)
Definition shared_positions (w1 w2 : window) : Z :=
  let '(lo1, hi1) := covered w1 in
  let '(lo2, hi2) := covered w2 in
  Z.max 0 (Z.min hi1 hi2 - Z.max lo1 lo2).

Hypothesis Hov : 0 <= chunk_overlap self < chunk_size self.
Hypothesis Hlen : chunk_size self < len text.

Lemma size_step_start (start : Z) :
  w_start (size_step self text start) = start.
Proof. reflexivity. Qed.

Lemma size_step_end_nonneg (start : Z) :
  - chunk_overlap self <= start -> 0 <= w_end (size_step self text start).
Proof.
  intros Hs. unfold size_step; cbn [w_end].
  set (se := Z.max _ _).
  assert (Hse : -1 <= se).
  { subst se.
    destruct (rfind_range text DOT start (start + chunk_size self));
    destruct (rfind_range text BANG start (start + chunk_size self));
    destruct (rfind_range text QUESTION start (start + chunk_size self));
    lia. }
  destruct (_ <? _); [|lia].
  destruct (se >? start); lia.
Qed.

(** A window is followed by another only if it stopped short of the end
    of the text, and then the next one starts [chunk_overlap] before its
    end. *)
Lemma split_trace_adjacent (fuel : nat) :
  forall start,
    - chunk_overlap self <= start ->
    adjacent (fun w1 w2 =>
                - chunk_overlap self <= w_start w1
                /\ 0 <= w_end w1 < len text
                /\ w_start w2 = w_end w1 - chunk_overlap self)
             (split_trace fuel self text start).
Proof.
  induction fuel as [|fuel IH]; intros start Hs; cbn [split_trace].
  - apply adjacent_nil.
  - destruct (start <? len text); [|apply adjacent_nil].
    pose proof (size_step_end_nonneg start Hs) as He.
    rewrite w_next_unfold. cbn zeta.
    destruct (Z.ltb_spec (w_end (size_step self text start)) (len text))
      as [Hlt | Hge].
    + apply adjacent_cons; [|apply IH; lia].
      intros y l' E. destruct fuel as [|fuel']; [discriminate|].
      cbn [split_trace] in E.
      destruct (_ <? len text); [|discriminate].
      injection E as <- _.
      split; [exact Hs | split; [lia | reflexivity]].
    + apply adjacent_cons; [|].
      * intros y l' E. destruct fuel as [|fuel']; [discriminate|].
        cbn [split_trace] in E.
        destruct (Z.ltb_spec (w_end (size_step self text start)) (len text));
          [lia | discriminate].
      * destruct fuel as [|fuel']; [apply adjacent_nil|].
        cbn [split_trace].
        destruct (Z.ltb_spec (w_end (size_step self text start)) (len text));
          [lia | apply adjacent_nil].
Qed.

Lemma shared_positions_bound (w1 w2 : window) :
  0 <= w_end w1 < len text ->
  w_start w2 = w_end w1 - chunk_overlap self ->
  shared_positions w1 w2 <= chunk_overlap self.
Proof.
  intros He Hs. unfold shared_positions, covered, clamp. rewrite Hs.
  destruct (Z.ltb_spec (w_start w1) 0);
  destruct (Z.ltb_spec (w_end w1) 0);
  destruct (Z.ltb_spec (w_end w1 - chunk_overlap self) 0);
  destruct (Z.ltb_spec (w_end w2) 0); lia.
Qed.

End SizeWindows.

Section ParagraphGroups.
Import Py Chunker.

Variable self : SemanticChunker.

(** The paragraph pass with each chunk kept as the list of paragraphs it
    is joined from. *)
Definition group_state := (list (list str) * list str * Z)%type.

Definition group_step (st : group_state) (para0 : str) : group_state :=
  let '(groups, current_chunk, current_length) := st in
  let para := strip para0 in
  if negb (truthy para) then st
  else
    let para_length := len para in
    if (current_length + para_length >? chunk_size self)
       && truthy current_chunk
    then
      let groups' := groups ++ [current_chunk] in
      if (chunk_overlap self >? 0) && (len current_chunk >? 1) then
        let overlap_text := last_item current_chunk in
        (groups', [overlap_text; para], len overlap_text + para_length)
      else
        (groups', [para], para_length)
    else
      (groups, current_chunk ++ [para], current_length + para_length).

Definition semantic_groups (text : str) : list (list str) :=
  let '(groups, current_chunk, _) :=
    fold_left group_step (re_split_paragraphs text) ([], [], 0) in
  if truthy current_chunk then groups ++ [current_chunk] else groups.

Definition joined (st : group_state) : sem_state :=
  let '(groups, current_chunk, current_length) := st in
  (List.map (join PARA_SEP) groups, current_chunk, current_length).

Lemma group_step_joined (st : group_state) (para0 : str) :
  joined (group_step st para0) = sem_step self (joined st) para0.
Proof.
  destruct st as [[groups current] clen]. unfold group_step, sem_step, joined.
  destruct (negb (truthy (strip para0))); [reflexivity|].
  destruct ((clen + len (strip para0) >? chunk_size self) && truthy current);
    [|reflexivity].
  destruct ((chunk_overlap self >? 0) && (len current >? 1));
    rewrite map_app; reflexivity.
Qed.

Lemma group_fold_joined (paras : list str) :
  forall st,
    joined (fold_left group_step paras st)
    = fold_left (sem_step self) paras (joined st).
Proof.
  induction paras as [|p paras IH]; intros st; cbn [fold_left];
    [reflexivity|].
  rewrite IH, group_step_joined. reflexivity.
Qed.

(** The chunks of [_split_by_semantic_boundaries] are the groups, each
    joined by a blank line. *)
Lemma semantic_groups_joined (text : str) :
  split_by_semantic_boundaries self text
  = List.map (join PARA_SEP) (semantic_groups text).
Proof.
  unfold split_by_semantic_boundaries, semantic_groups.
  pose proof (group_fold_joined (re_split_paragraphs text) ([], [], 0)) as H.
  cbn [joined List.map] in H. rewrite <- H.
  destruct (fold_left group_step _ _) as [[groups current] clen].
  cbn [joined]. destruct (truthy current); [|reflexivity].
  rewrite map_app. reflexivity.
Qed.

(** The chunk that follows [g] repeats the last paragraph of [g] in
    full when the overlap path is taken. *)
Definition seeded_by (g next : list str) : Prop :=
  chunk_overlap self > 0 -> 1 < len g ->
  exists rest, next = last_item g :: rest.

Definition group_inv (st : group_state) : Prop :=
  let '(groups, current_chunk, _) := st in
  adjacent seeded_by groups
  /\ forall groups' g, groups = (groups' ++ [g])%list ->
                       seeded_by g current_chunk.

Lemma group_step_inv (st : group_state) (para0 : str) :
  group_inv st -> group_inv (group_step st para0).
Proof.
  destruct st as [[groups current] clen]. intros [Hadj Hcur].
  unfold group_step.
  destruct (negb (truthy (strip para0))); [split; assumption|].
  destruct ((clen + len (strip para0) >? chunk_size self) && truthy current).
  - destruct ((chunk_overlap self >? 0) && (len current >? 1)) eqn:Hpath;
      (split; [apply adjacent_snoc; assumption|]);
      intros groups' g E; apply app_inj_tail in E; destruct E as [_ <-].
    + intros _ _. eexists. reflexivity.
    + intros H1 H2. apply andb_false_iff in Hpath.
      destruct Hpath as [Hp | Hp].
      * destruct (Z.gtb_spec (chunk_overlap self) 0); [discriminate | lia].
      * destruct (Z.gtb_spec (len current) 1); [discriminate | lia].
  - split; [exact Hadj|].
    intros groups' g E H1 H2.
    destruct (Hcur groups' g E H1 H2) as (rest & ->).
    exists (rest ++ [strip para0])%list. reflexivity.
Qed.

Lemma semantic_groups_seeded (text : str) :
  adjacent seeded_by (semantic_groups text).
Proof.
  unfold semantic_groups.
  assert (H : forall paras st, group_inv st ->
                               group_inv (fold_left group_step paras st)).
  { induction paras as [|p paras IH]; intros st Hst; cbn [fold_left];
      [exact Hst | apply IH, group_step_inv, Hst]. }
  specialize (H (re_split_paragraphs text) ([], [], 0)).
  destruct (fold_left group_step _ _) as [[groups current] clen].
  destruct H as [Hadj Hcur].
  - split; [apply adjacent_nil|]. intros [|] g E; discriminate.
  - destruct (truthy current); [|exact Hadj].
    apply adjacent_snoc; assumption.
Qed.

(** A joined group ends with its last paragraph. *)
Lemma join_ends_with_last (g : list str) :
  g <> [] -> exists pre, join PARA_SEP g = (pre ++ last_item g)%list.
Proof.
  unfold last_item. induction g as [|p g IH]; [congruence|]. intros _.
  destruct g as [|q g].
  - exists []. reflexivity.
  - destruct IH as (pre & E); [discriminate|].
    exists (p ++ PARA_SEP ++ pre)%list.
    change (join PARA_SEP (p :: q :: g))
      with (p ++ PARA_SEP ++ join PARA_SEP (q :: g))%list.
    rewrite E, <- !app_assoc. reflexivity.
Qed.

(** A joined group starts with its first paragraph. *)
Lemma join_starts_with_first (p : str) (g : list str) :
  exists post, join PARA_SEP (p :: g) = (p ++ post)%list.
Proof.
  destruct g as [|q g].
  - exists []. cbn. rewrite app_nil_r. reflexivity.
  - eexists. reflexivity.
Qed.

End ParagraphGroups.

Section TextualOverlap.
Import Py.

(** The length of the longest text that ends [a] and begins [b], looked
    for among the lengths up to [k]. *)
Fixpoint overlap_upto (k : nat) (a b : str) : nat :=
  match k with
  | O => O
  | S k' =>
      if str_eqb (skipn (List.length a - k) a) (firstn k b) then k
      else overlap_upto k' a b
  end.

(** The text two adjacent chunks share: the longest suffix of the first
    that is a prefix of the second. *)
Definition common_overlap (a b : str) : nat :=
  overlap_upto (Nat.min (List.length a) (List.length b)) a b.

End TextualOverlap.

Section OverlapByDesign.
Import Py Chunker.

Variable self : SemanticChunker.

(** The chunks the size-based splitter returns are the non-empty
    stripped slices of the windows it visited. *)
Lemma split_loop_trace (text : str) (fuel : nat) :
  forall start chunks out,
    split_loop fuel self text start chunks = Some out ->
    out = (chunks
             ++ filter truthy
                  (List.map w_chunk (split_trace fuel self text start)))%list.
Proof.
  induction fuel as [|fuel IH]; intros start chunks out;
    cbn [split_loop split_trace]; [discriminate|].
  destruct (start <? len text).
  - intros H. apply IH in H. rewrite H. cbn [List.map filter].
    destruct (truthy (w_chunk (size_step self text start)));
      [rewrite <- app_assoc|]; reflexivity.
  - intros H. injection H as <-. rewrite app_nil_r. reflexivity.
Qed.

(** C3, amended: the overlap is bounded by [chunk_overlap] in the
    size-based splitter only.  There, for [0 <= chunk_overlap <
    chunk_size < len(text)], each window starts [chunk_overlap] characters
    before the end of the window before it, so two successive windows
    have at most [chunk_overlap] positions of the text in common, and the
    returned chunks are the stripped slices of these windows.  In the
    paragraph pass [chunk_overlap] is only tested for being positive: a
    chunk that follows a chunk of more than one paragraph begins with the
    whole last paragraph of that chunk, whatever its length. *)
Theorem overlap_by_design :
  (forall text fuel,
      0 <= chunk_overlap self < chunk_size self ->
      chunk_size self < len text ->
      adjacent (fun w1 w2 =>
                  w_start w2 = w_end w1 - chunk_overlap self
                  /\ shared_positions text w1 w2 <= chunk_overlap self)
               (split_trace fuel self text 0)
      /\ forall out,
          split_by_size fuel self text = Some out ->
          out = filter truthy
                  (List.map w_chunk (split_trace fuel self text 0)))
  /\ (forall text,
         split_by_semantic_boundaries self text
         = List.map (join PARA_SEP) (semantic_groups self text)
         /\ adjacent (fun g1 g2 =>
                        chunk_overlap self > 0 -> 1 < len g1 ->
                        exists pre post,
                          join PARA_SEP g1 = (pre ++ last_item g1)%list
                          /\ join PARA_SEP g2 = (last_item g1 ++ post)%list)
                     (semantic_groups self text)).
Proof.
  split.
  - intros text fuel Hov Hlen. split.
    + intros pre w1 w2 post E.
      destruct (split_trace_adjacent self text Hov fuel 0
                  ltac:(lia) pre w1 w2 post E) as (_ & He & Hs).
      split; [exact Hs|].
      apply shared_positions_bound; assumption.
    + intros out H. apply split_loop_trace in H. exact H.
  - intros text. split; [apply semantic_groups_joined|].
    intros pre g1 g2 post E H1 H2.
    destruct (semantic_groups_seeded self text pre g1 g2 post E H1 H2)
      as (rest & ->).
    destruct (join_ends_with_last g1) as (pre' & Hpre).
    { destruct g1; [cbn in H2; lia | discriminate]. }
    destruct (join_starts_with_first (last_item g1) rest) as (post' & Hpost).
    exists pre', post'. split; assumption.
Qed.

End OverlapByDesign.

(** C3 as stated fails in the paragraph pass: with [chunk_size = 10] and
    [chunk_overlap = 1] the text ["aaaa\n\nbbbb\n\ncccc"] is returned as
    the two chunks ["aaaa\n\nbbbb"] and ["bbbb\n\ncccc"], which share the
    four characters ["bbbb"]. *)
Lemma chunk_text_overlap_exceeds :
  let first := (Py.codes "aaaa" ++ [Py.NL; Py.NL] ++ Py.codes "bbbb")%list in
  let second := (Py.codes "bbbb" ++ [Py.NL; Py.NL] ++ Py.codes "cccc")%list in
  (forall fuel,
      Chunker.chunk_text fuel ChunkerExamples.chunker_10_1
                         ChunkerExamples.three_paragraphs
      = Some [first; second])
  /\ common_overlap first second = 4%nat
  /\ Chunker.chunk_overlap ChunkerExamples.chunker_10_1 < 4.
Proof.
  cbn zeta. split; [|split].
  - intros fuel. reflexivity.
  - reflexivity.
  - cbn. lia.
Qed.

(* ================================================================== *)
(** * Properties of similarity search *)
(* ================================================================== *)

Section FloatOrder.
Import Float.

(** The position of a float on the extended real line, as a triple that
    is compared lexicographically: the class (infinities, signs, zero),
    then exponent and mantissa, mirrored for negative numbers. *)
Definition order_key (x : spec_float) : Z * Z * Z :=
  match x with
  | S754_infinity true => (-2, 0, 0)
  | S754_finite true m e => (-1, - e, - Zpos m)
  | S754_zero _ => (0, 0, 0)
  | S754_nan => (0, 0, 0)
  | S754_finite false m e => (1, e, Zpos m)
  | S754_infinity false => (2, 0, 0)
  end.

Definition lex_compare (a b : Z * Z * Z) : comparison :=
  let '(a1, a2, a3) := a in
  let '(b1, b2, b3) := b in
  match a1 ?= b1 with
  | Eq => match a2 ?= b2 with
          | Eq => a3 ?= b3
          | c => c
          end
  | c => c
  end.

Lemma SFcompare_key (x y : spec_float) :
  is_nan x = false -> is_nan y = false ->
  SFcompare x y = Some (lex_compare (order_key x) (order_key y)).
Proof.
  destruct x as [sx | sx | | sx mx ex], y as [sy | sy | | sy my ey];
    try discriminate; intros _ _;
    try (destruct sx; destruct sy; reflexivity);
    try (destruct sx; reflexivity); try (destruct sy; reflexivity).
  destruct sx, sy; try reflexivity; cbn [SFcompare order_key lex_compare].
  replace (-1 ?= -1) with Eq by reflexivity.
  rewrite (Z.compare_opp ex ey), (Z.compare_antisym ex ey).
  destruct (ex ?= ey); reflexivity.
Qed.

Lemma lex_compare_trans_le (a b c : Z * Z * Z) :
  lex_compare a b <> Gt -> lex_compare b c <> Gt -> lex_compare a c <> Gt.
Proof.
  destruct a as [[a1 a2] a3], b as [[b1 b2] b3], c as [[c1 c2] c3].
  unfold lex_compare.
  destruct (Z.compare_spec a1 b1), (Z.compare_spec b1 c1),
    (Z.compare_spec a1 c1); try lia; try congruence;
  destruct (Z.compare_spec a2 b2), (Z.compare_spec b2 c2),
    (Z.compare_spec a2 c2); try lia; try congruence;
  destruct (Z.compare_spec a3 b3), (Z.compare_spec b3 c3),
    (Z.compare_spec a3 c3); try lia; congruence.
Qed.

Lemma lex_compare_antisym (a b : Z * Z * Z) :
  lex_compare b a = CompOpp (lex_compare a b).
Proof.
  destruct a as [[a1 a2] a3], b as [[b1 b2] b3]. unfold lex_compare.
  rewrite (Z.compare_antisym a1 b1), (Z.compare_antisym a2 b2),
    (Z.compare_antisym a3 b3).
  destruct (a1 ?= b1), (a2 ?= b2), (a3 ?= b3); reflexivity.
Qed.

(** [y <= x] as the floats compare; false when either is NaN. *)
Definition float_ge (x y : spec_float) : Prop := SFleb y x = true.

Lemma SFleb_key (x y : spec_float) :
  is_nan x = false -> is_nan y = false ->
  SFleb x y = true <-> lex_compare (order_key x) (order_key y) <> Gt.
Proof.
  intros Hx Hy. unfold SFleb. rewrite (SFcompare_key x y Hx Hy).
  destruct (lex_compare _ _); split; congruence.
Qed.

Lemma SFleb_not_nan (x y : spec_float) :
  SFleb x y = true -> is_nan x = false /\ is_nan y = false.
Proof.
  destruct x, y; cbn; try discriminate; auto.
Qed.

Lemma float_ge_trans (x y z : spec_float) :
  float_ge x y -> float_ge y z -> float_ge x z.
Proof.
  unfold float_ge. intros Hyx Hzy.
  destruct (SFleb_not_nan _ _ Hyx) as [Hy Hx].
  destruct (SFleb_not_nan _ _ Hzy) as [Hz _].
  rewrite SFleb_key in * by assumption.
  eapply lex_compare_trans_le; eassumption.
Qed.

(** Two floats that are not NaN are comparable: when [x < y] fails,
    [y <= x] holds. *)
Lemma not_lt_float_ge (x y : spec_float) :
  is_nan x = false -> is_nan y = false ->
  SFltb x y = false -> float_ge x y.
Proof.
  intros Hx Hy. unfold float_ge, SFltb, SFleb.
  rewrite (SFcompare_key x y Hx Hy), (SFcompare_key y x Hy Hx).
  rewrite (lex_compare_antisym (order_key x) (order_key y)).
  destruct (lex_compare _ _); cbn; congruence.
Qed.

Lemma lt_float_ge (x y : spec_float) : SFltb x y = true -> float_ge y x.
Proof.
  unfold float_ge, SFltb, SFleb. destruct (SFcompare x y) as [[| |]|];
    congruence.
Qed.

End FloatOrder.

Section SortDesc.
Import Float.

Variable A : Type.
Variable key : A -> f64.

(** [a] may stand before [b] in descending key order. *)
Definition key_ge (a b : A) : Prop := float_ge (key a) (key b).

Definition key_ok (a : A) : Prop := is_nan (key a) = false.

Lemma insert_desc_perm (x : A) (l : list A) :
  Permutation (insert_desc key x l) (x :: l).
Proof.
  induction l as [|y l IH]; cbn [insert_desc]; [reflexivity|].
  destruct (SFltb (key x) (key y)); [|reflexivity].
  rewrite IH. apply perm_swap.
Qed.

Lemma sort_desc_perm (l : list A) : Permutation (sort_desc key l) l.
Proof.
  unfold sort_desc. induction l as [|x l IH]; cbn [fold_right];
    [reflexivity|].
  rewrite insert_desc_perm. constructor. exact IH.
Qed.

Lemma insert_desc_sorted (x : A) (l : list A) :
  key_ok x -> Forall key_ok l ->
  StronglySorted key_ge l -> StronglySorted key_ge (insert_desc key x l).
Proof.
  intros Hx. induction l as [|y l IH]; intros Hl Hs; cbn [insert_desc].
  - constructor; constructor.
  - inversion Hl as [|? ? Hy Hl']; subst.
    inversion Hs as [|? ? Hs' Hall]; subst.
    destruct (SFltb (key x) (key y)) eqn:E.
    + constructor; [apply IH; assumption|].
      eapply Permutation_Forall; [symmetry; apply insert_desc_perm|].
      constructor; [apply lt_float_ge; exact E | exact Hall].
    + assert (Hxy : key_ge x y) by (apply not_lt_float_ge; assumption).
      constructor; [exact Hs|].
      constructor; [exact Hxy|].
      eapply Forall_impl; [|exact Hall].
      intros z Hz. eapply float_ge_trans; eassumption.
Qed.

Lemma sort_desc_sorted (l : list A) :
  Forall key_ok l -> StronglySorted key_ge (sort_desc key l).
Proof.
  unfold sort_desc. induction l as [|x l IH]; intros H; cbn [fold_right].
  - constructor.
  - inversion H; subst. apply insert_desc_sorted; auto.
    eapply Permutation_Forall; [symmetry; apply sort_desc_perm|].
    assumption.
Qed.

Lemma firstn_sorted (R : A -> A -> Prop) (n : nat) (l : list A) :
  StronglySorted R l -> StronglySorted R (firstn n l).
Proof.
  revert n. induction l as [|x l IH]; intros [|n] H; cbn [firstn];
    try constructor.
  - apply IH. inversion H; assumption.
  - inversion H as [|? ? _ Hall]; subst.
    rewrite Forall_forall in *. intros y Hy. apply Hall.
    eapply in_firstn. exact Hy.
Qed.

Lemma slice_to_length (l : list A) (k : Z) :
  0 <= k -> Py.len (Py.slice_to l k) <= k.
Proof.
  intros Hk. unfold Py.slice_to, Py.len.
  rewrite length_firstn. unfold Py.clamp, Py.len.
  destruct (Z.ltb_spec k 0); lia.
Qed.

End SortDesc.

Section SearchProperties.
Import Py Float VectorDatabase.

Variable np_dot : list f32 -> list f32 -> option f32.
Variable np_linalg_norm : list f32 -> f32.

Local Abbreviation cosine_similarity :=
  (cosine_similarity np_dot np_linalg_norm).
Local Abbreviation scan := (scan np_dot np_linalg_norm).
Local Abbreviation search := (search np_dot np_linalg_norm).

(** The row's embedding has the dimension of the query. *)
Definition same_dimension (query_vec : list f32) (row : Row) : Prop :=
  List.length (row_embedding row) = List.length query_vec.

(** [np.dot] returns on two arrays of one length. *)
Definition dot_defined : Prop :=
  forall vec1 vec2 : list f32,
    List.length vec1 = List.length vec2 ->
    exists d, np_dot vec1 vec2 = Some d.

(** What [search] records for one row. *)
Definition result_of (query_vec : list f32) (row : Row) (r : SearchResult)
  : Prop :=
  res_id r = row_id row
  /\ res_text r = row_text row
  /\ exists s, cosine_similarity query_vec (row_embedding row) = Some s
               /\ res_similarity r = to_f64 s.

Definition similarity_ge (a b : SearchResult) : Prop :=
  float_ge (res_similarity a) (res_similarity b).

Lemma cosine_similarity_defined (vec1 vec2 : list f32) :
  dot_defined ->
  List.length vec1 = List.length vec2 ->
  exists s, cosine_similarity vec1 vec2 = Some s.
Proof.
  intros Hdot H. unfold VectorDatabase.cosine_similarity.
  destruct (Hdot vec1 vec2 H) as (d & ->).
  destruct (_ || _); eexists; reflexivity.
Qed.

Lemma scan_defined (query_vec : list f32) (rows : list Row) :
  dot_defined ->
  Forall (same_dimension query_vec) rows ->
  exists results, scan rows query_vec = Some results.
Proof.
  intros Hdot.
  induction 1 as [|row rows Hrow _ (results & IH)];
    cbn [VectorDatabase.scan].
  - eexists; reflexivity.
  - destruct (cosine_similarity_defined query_vec (row_embedding row) Hdot)
      as (s & ->); [symmetry; exact Hrow|].
    rewrite IH. eexists; reflexivity.
Qed.

Lemma scan_results (query_vec : list f32) (rows : list Row) :
  forall results,
    scan rows query_vec = Some results ->
    Forall2 (result_of query_vec) rows results.
Proof.
  induction rows as [|row rows IH]; intros results;
    cbn [VectorDatabase.scan].
  - intros H. injection H as <-. constructor.
  - destruct (cosine_similarity query_vec (row_embedding row)) as [s|] eqn:E;
      [|discriminate].
    destruct (scan rows query_vec) as [results'|]; [|discriminate].
    intros H. injection H as <-.
    constructor; [|apply IH; reflexivity].
    repeat split. exists s. split; [exact E | reflexivity].
Qed.

(** The guard of [_cosine_similarity]. *)
Lemma cosine_similarity_zero_norm (vec1 vec2 : list f32) (s : f32) :
  cosine_similarity vec1 vec2 = Some s ->
  SFeqb (np_linalg_norm vec1) zero = true
  \/ SFeqb (np_linalg_norm vec2) zero = true ->
  s = zero.
Proof.
  unfold VectorDatabase.cosine_similarity.
  destruct (np_dot vec1 vec2); [|discriminate].
  intros H Hz. apply orb_true_iff in Hz. rewrite Hz in H.
  injection H as <-. reflexivity.
Qed.

(** C5, amended: whatever numpy's sums come to, [search] returns
    whenever every stored embedding has the query's dimension, [np.dot]
    returning on arrays of one length.  What it returns is the first
    [top_k] entries (at most [top_k] of them when [top_k >= 0]) of the
    per-row results sorted into non-increasing similarity, provided no
    similarity is NaN; the similarity recorded for a row is the float32
    quotient of numpy's dot product by the float32 product of numpy's
    norms, and exactly 0 when the query or the row's embedding has norm
    zero.  Nothing confines the quotient to the interval [-1, 1]. *)
Theorem search_top_k (rows : list Row) (query_embedding : list f64)
        (top_k : Z) :
  let query_vec := List.map to_f32 query_embedding in
  (dot_defined ->
   Forall (same_dimension query_vec) rows ->
   exists results, search rows query_embedding top_k = Some results)
  /\ (forall results,
         search rows query_embedding top_k = Some results ->
         exists all,
           Forall2 (result_of query_vec) rows all
           /\ Permutation (sort_desc res_similarity all) all
           /\ results = slice_to (sort_desc res_similarity all) top_k
           /\ (0 <= top_k -> len results <= top_k)
           /\ (Forall (fun r => is_nan (res_similarity r) = false) all ->
               StronglySorted similarity_ge (sort_desc res_similarity all)
               /\ StronglySorted similarity_ge results))
  /\ (forall row r,
         result_of query_vec row r ->
         SFeqb (np_linalg_norm query_vec) zero = true
         \/ SFeqb (np_linalg_norm (row_embedding row)) zero = true ->
         res_similarity r = zero)
  /\ (forall row r dot_product,
         result_of query_vec row r ->
         np_dot query_vec (row_embedding row) = Some dot_product ->
         SFeqb (np_linalg_norm query_vec) zero = false ->
         SFeqb (np_linalg_norm (row_embedding row)) zero = false ->
         res_similarity r
         = to_f64 (div32 dot_product
                         (mul32 (np_linalg_norm query_vec)
                                (np_linalg_norm (row_embedding row))))).
Proof.
  cbn zeta. split; [|split; [|split]].
  - intros Hdot H. unfold VectorDatabase.search.
    destruct (scan_defined _ rows Hdot H) as (results & ->).
    eexists; reflexivity.
  - intros results. unfold VectorDatabase.search.
    destruct (scan rows (List.map to_f32 query_embedding)) as [all|] eqn:E;
      [|discriminate].
    intros H. injection H as <-. exists all.
    split; [apply scan_results; exact E|].
    split; [apply sort_desc_perm|].
    split; [reflexivity|].
    split; [apply slice_to_length|].
    intros Hnan.
    assert (Hs : StronglySorted similarity_ge
                   (sort_desc res_similarity all)).
    { apply sort_desc_sorted. exact Hnan. }
    split; [exact Hs|]. apply firstn_sorted. exact Hs.
  - intros row r (_ & _ & s & Hs & ->) Hz.
    rewrite (cosine_similarity_zero_norm _ _ s Hs Hz). reflexivity.
  - intros row r dot_product (_ & _ & s & Hs & ->) Hdot Hn1 Hn2.
    unfold VectorDatabase.cosine_similarity in Hs.
    rewrite Hdot, Hn1, Hn2 in Hs. cbn [orb] in Hs.
    injection Hs as <-. reflexivity.
Qed.

End SearchProperties.

(** C5 as stated fails on the interval: a store holding the embedding
    [[1.0, 1.0]], queried with [[1.0, 1.0]], answers with similarity
    1 + 2^-23.  The dot product is 2, each norm is the float32 nearest
    to the square root of 2, their float32 product is 2 - 2^-23, and the
    float32 quotient rounds up to the successor of 1. *)
Lemma cosine_similarity_above_one :
  SearchExamples.dot [SearchExamples.one32; SearchExamples.one32]
                     [SearchExamples.one32; SearchExamples.one32]
  = Some (Float.add32 SearchExamples.one32 SearchExamples.one32)
  /\ SearchExamples.norm [SearchExamples.one32; SearchExamples.one32]
     = Float.sqrt32 (Float.add32 SearchExamples.one32 SearchExamples.one32)
  /\ exists r,
      VectorDatabase.search SearchExamples.dot SearchExamples.norm
                            SearchExamples.unit_diagonal_store
                            [Float.one; Float.one] 1 = Some [r]
      /\ VectorDatabase.res_similarity r = SearchExamples.above_one
      /\ SFltb Float.one (VectorDatabase.res_similarity r) = true
      /\ Float.in_unit_interval (VectorDatabase.res_similarity r) = false.
Proof.
  split; [vm_compute; reflexivity|].
  split; [vm_compute; reflexivity|].
  eexists. split; [vm_compute; reflexivity|].
  split; [reflexivity|]. split; reflexivity.
Qed.

(* ================================================================== *)
(** * Properties of context retrieval *)
(* ================================================================== *)

Section RoundingNeverNaN.
Import Float.

Variable prec emax : Z.

Lemma shr_1_nonneg (mrs : shr_record) :
  0 <= shr_m mrs -> 0 <= shr_m (shr_1 mrs).
Proof.
  destruct mrs as [m r s]. cbn [shr_m]. intros H.
  destruct m as [|[p|p|]|p]; cbn; lia.
Qed.

Lemma iter_pos_nonneg (n : positive) :
  forall mrs, 0 <= shr_m mrs -> 0 <= shr_m (iter_pos shr_1 n mrs).
Proof.
  induction n as [n IH|n IH|]; intros mrs H; cbn [iter_pos].
  - apply IH, IH, shr_1_nonneg, H.
  - apply IH, IH, H.
  - apply shr_1_nonneg, H.
Qed.

Lemma shr_fexp_nonneg (m e : Z) (l : location) :
  0 <= m -> 0 <= shr_m (fst (shr_fexp prec emax m e l)).
Proof.
  intros H. unfold shr_fexp, shr.
  assert (H0 : 0 <= shr_m (shr_record_of_loc m l)).
  { destruct l as [|[| |]]; exact H. }
  destruct (fexp prec emax (Zdigits2 m + e) - e); cbn [fst]; try exact H0.
  apply iter_pos_nonneg. exact H0.
Qed.

Lemma round_nearest_even_nonneg (m : Z) (l : location) :
  0 <= m -> 0 <= round_nearest_even m l.
Proof.
  intros H. destruct l as [|[| |]]; cbn [round_nearest_even]; try lia.
  destruct (Z.even m); lia.
Qed.

(** Rounding a non-negative mantissa never produces NaN. *)
Lemma binary_round_aux_not_nan (s : bool) (m e : Z) (l : location) :
  0 <= m -> is_nan (binary_round_aux prec emax s m e l) = false.
Proof.
  intros H. unfold binary_round_aux.
  pose proof (shr_fexp_nonneg m e l H) as H1.
  destruct (shr_fexp prec emax m e l) as [mrs' e'].
  cbn [fst] in H1.
  pose proof (shr_fexp_nonneg
                (round_nearest_even (shr_m mrs') (loc_of_shr_record mrs'))
                e' loc_Exact
                (round_nearest_even_nonneg _ _ H1)) as H2.
  destruct (shr_fexp prec emax _ e' loc_Exact) as [mrs'' e''].
  cbn [fst] in H2.
  destruct (shr_m mrs'') as [|p|p]; [reflexivity| |lia].
  destruct (e'' <=? emax - prec); reflexivity.
Qed.

(** The product of a number with a finite non-zero number is a number. *)
Lemma SFmul_finite_not_nan (x : spec_float) (s : bool) (m : positive)
      (e : Z) :
  is_nan x = false ->
  is_nan (SFmul prec emax x (S754_finite s m e)) = false.
Proof.
  destruct x as [sx|sx| |sx mx ex]; intros H; try discriminate;
    try reflexivity.
  cbn [SFmul]. apply binary_round_aux_not_nan. lia.
Qed.

End RoundingNeverNaN.


Section RankProperties.
Import Py Float VectorDatabase ContextManager.

Variable lower : str -> str.

(** The candidate with the score [_rank_and_filter] gives it. *)
Definition scored (query : str) (result : SearchResult) : Scored :=
  {| sc_result := result;
     adjusted_score := adjust (needs_examples lower query) result |}.

Definition score_ge (a b : Scored) : Prop :=
  float_ge (adjusted_score a) (adjusted_score b).

(** The query, lower-cased, contains [example], [how to] or [usage]. *)
Definition mentions_keyword (query : str) : Prop :=
  occurs_in (codes "example") (lower query)
  \/ occurs_in (codes "how to") (lower query)
  \/ occurs_in (codes "usage") (lower query).

(** The candidate's metadata type is [code_example]. *)
Definition code_example_type (result : SearchResult) : Prop :=
  md_type (res_metadata result) = Some (codes "code_example").

Lemma str_eqb_spec (a b : str) : str_eqb a b = true <-> a = b.
Proof.
  revert b. induction a as [|x a IH]; intros [|y b]; cbn [str_eqb];
    try (split; [discriminate | discriminate]).
  - split; reflexivity.
  - rewrite andb_true_iff, N.eqb_eq, IH. split.
    + intros [-> ->]. reflexivity.
    + intros H. injection H as -> ->. split; reflexivity.
Qed.

Lemma needs_examples_spec (query : str) :
  needs_examples lower query = true <-> mentions_keyword query.
Proof.
  unfold needs_examples, mentions_keyword, KEYWORDS. cbn [existsb].
  rewrite !orb_true_iff, !contains_spec. intuition discriminate.
Qed.

Lemma is_code_example_spec (result : SearchResult) :
  is_code_example result = true <-> code_example_type result.
Proof.
  unfold is_code_example, code_example_type.
  destruct (md_type (res_metadata result)) as [t|].
  - rewrite str_eqb_spec. split; [intros -> | intros H; injection H as ->];
      reflexivity.
  - split; discriminate.
Qed.

Lemma adjust_not_nan (needs : bool) (result : SearchResult) :
  is_nan (res_similarity result) = false ->
  is_nan (adjust needs result) = false.
Proof.
  intros H. unfold adjust.
  destruct (needs && is_code_example result); [|exact H].
  apply SFmul_finite_not_nan. exact H.
Qed.

(** C6, amended: [_rank_and_filter] returns the candidates, each with
    its adjusted score, and in non-increasing adjusted score provided no
    similarity is NaN (a NaN compares with nothing, and the sort then
    leaves numbers out of order).  The adjusted score is the similarity
    times 1.3 (the binary64 value 0x1.4cccccccccccdp+0 of the literal)
    exactly when the lower-cased query contains [example], [how to] or
    [usage] and the candidate's metadata type is [code_example]; in
    every other case it is the similarity itself. *)
Theorem rank_and_filter_scores (results : list SearchResult) (query : str) :
  let out := rank_and_filter lower results query in
  let boosted (result : SearchResult) : Prop :=
    (occurs_in (codes "example") (lower query)
     \/ occurs_in (codes "how to") (lower query)
     \/ occurs_in (codes "usage") (lower query))
    /\ md_type (res_metadata result) = Some (codes "code_example") in
  Permutation out (List.map (scored query) results)
  /\ (forall result,
         (boosted result ->
          adjusted_score (scored query result)
          = mul64 (res_similarity result)
                  (S754_finite false 5854679515581645 (-52)))
         /\ (~ boosted result ->
             adjusted_score (scored query result) = res_similarity result))
  /\ (Forall (fun result => is_nan (res_similarity result) = false) results ->
      StronglySorted score_ge out).
Proof.
  cbn zeta. unfold rank_and_filter. split; [|split].
  - apply sort_desc_perm.
  - intros result. unfold scored, adjust. cbn [adjusted_score].
    fold (mentions_keyword query). fold (code_example_type result).
    destruct (needs_examples lower query) eqn:Hn;
      destruct (is_code_example result) eqn:Ht; cbn [andb]; split;
      try reflexivity; intros H.
    + exfalso. apply H. split;
        [apply needs_examples_spec | apply is_code_example_spec]; assumption.
    + destruct H as [_ H]. apply is_code_example_spec in H. congruence.
    + destruct H as [H _]. apply needs_examples_spec in H. congruence.
    + destruct H as [H _]. apply needs_examples_spec in H. congruence.
  - intros H. apply sort_desc_sorted.
    apply Forall_map. eapply Forall_impl; [|exact H].
    intros result Hr. apply adjust_not_nan. exact Hr.
Qed.

End RankProperties.

(** C6 as stated fails for a candidate whose similarity is NaN: with
    similarities 0.5, NaN, 1.0 and a query without keyword, the sort
    compares NaN with 1.0 and 0.5 with NaN, finds neither smaller, and
    leaves the three where they are, 0.5 ahead of 1.0. *)
Lemma rank_and_filter_nan_unsorted :
  List.map ContextManager.adjusted_score
           (ContextManager.rank_and_filter RankExamples.ascii_lower
              RankExamples.results_with_nan RetrieveExamples.query)
  = [RankExamples.half; S754_nan; Float.one]
  /\ SFltb RankExamples.half Float.one = true.
Proof. split; reflexivity. Qed.

Section TokenBudget.
Import Py Float VectorDatabase ContextManager.

(** The cumulative estimate of a list of texts: the sum of
    [len(text) // 4]. *)
Definition sum_tokens (texts : list str) : Z :=
  fold_right (fun text acc => estimate_tokens text + acc) 0 texts.

Lemma sum_tokens_app (a b : list str) :
  sum_tokens (a ++ b) = sum_tokens a + sum_tokens b.
Proof.
  induction a as [|x a IH]; cbn [sum_tokens fold_right app]; [reflexivity|].
  fold (sum_tokens (a ++ b)). fold (sum_tokens a). lia.
Qed.

Lemma estimate_tokens_nonneg (text : str) : 0 <= estimate_tokens text.
Proof.
  unfold estimate_tokens. apply Z.div_pos; [apply len_nonneg | lia].
Qed.

(** The loop takes a prefix of the candidates and stops either at their
    end or in front of the first one that does not fit any more. *)
Lemma budget_loop_spec (budget : Z) (candidates : list str) :
  forall context_texts total_tokens,
    total_tokens = sum_tokens context_texts ->
    exists taken rest,
      candidates = (taken ++ rest)%list
      /\ budget_loop budget candidates context_texts total_tokens
         = ((context_texts ++ taken)%list,
            sum_tokens (context_texts ++ taken))
      /\ (taken = [] \/ sum_tokens (context_texts ++ taken) <= budget)
      /\ (rest = []
          \/ exists text rest',
              rest = text :: rest'
              /\ budget < sum_tokens (context_texts ++ taken)
                          + estimate_tokens text).
Proof.
  induction candidates as [|text rest IH]; intros ctx total Htotal;
    cbn [budget_loop].
  - exists [], []. rewrite (app_nil_r ctx). subst total.
    split; [reflexivity|]. split; [reflexivity|].
    split; left; reflexivity.
  - destruct (Z.leb_spec (total + estimate_tokens text) budget) as [Hfit|Hno].
    + destruct (IH (ctx ++ [text])%list (total + estimate_tokens text))
        as (taken & rest' & -> & Hloop & Hbound & Hstop).
      { rewrite sum_tokens_app. cbn [sum_tokens fold_right]. lia. }
      exists (text :: taken), rest'.
      rewrite <- app_assoc in Hloop, Hbound, Hstop. cbn [app] in *.
      split; [reflexivity|]. split; [exact Hloop|]. split; [|exact Hstop].
      right. destruct Hbound as [-> | H]; [|exact H].
      rewrite sum_tokens_app. cbn [sum_tokens fold_right]. lia.
    + exists [], (text :: rest). rewrite (app_nil_r ctx). subst total.
      split; [reflexivity|]. split; [reflexivity|]. split; [left; reflexivity|].
      right. exists text, rest. split; [reflexivity | lia].
Qed.

Variable lower : str -> str.
Variable embed_text : str -> list f64.
Variable np_dot : list f32 -> list f32 -> option f32.
Variable np_linalg_norm : list f32 -> f32.

Local Abbreviation retrieve_relevant_context :=
  (retrieve_relevant_context lower embed_text np_dot np_linalg_norm).
Local Abbreviation candidates :=
  (candidates lower embed_text np_dot np_linalg_norm).

(** C2: when the budget is not negative, the texts returned by
    [retrieve_relevant_context] have cumulative estimated tokens within
    [max_tokens].  They are a prefix of the candidates, which are the
    texts of the first [top_k] re-ranked results in that order; the
    prefix ends at the first candidate whose estimate would take the
    running total over the budget, and nothing after that candidate is
    looked at.  The call returns whenever every stored embedding has the
    dimension of the query embedding, [np.dot] returning on arrays of
    one length. *)
Theorem retrieve_within_budget (self : ContextManager)
        (settings : Config.Settings) (query library_name : str)
        (top_k : option Z) :
  0 <= max_tokens self ->
  (forall out,
      retrieve_relevant_context self settings query library_name top_k
      = Some out ->
      sum_tokens out <= max_tokens self
      /\ exists rest,
          candidates self settings query library_name top_k
          = Some (out ++ rest)%list
          /\ (rest = []
              \/ exists text rest',
                  rest = text :: rest'
                  /\ max_tokens self < sum_tokens out + estimate_tokens text))
  /\ (dot_defined np_dot ->
      Forall (same_dimension
                (List.map to_f32
                   (embed_text (library_name ++ [SPACE] ++ query)%list)))
             (db self) ->
      exists out,
        retrieve_relevant_context self settings query library_name top_k
        = Some out).
Proof.
  intros Hbudget. split.
  - intros out. unfold ContextManager.retrieve_relevant_context.
    destruct (candidates self settings query library_name top_k)
      as [texts|]; [|discriminate].
    intros H. injection H as <-.
    destruct (budget_loop_spec (max_tokens self) texts [] 0 eq_refl)
      as (taken & rest & -> & -> & Hbound & Hstop).
    cbn [app fst] in *. split.
    + destruct Hbound as [-> | H]; [exact Hbudget | exact H].
    + exists rest. split; [reflexivity | exact Hstop].
  - intros Hdot Hdim.
    unfold ContextManager.retrieve_relevant_context,
      ContextManager.candidates, search.
    destruct (scan_defined np_dot np_linalg_norm _ (db self) Hdot Hdim)
      as (results & ->).
    eexists; reflexivity.
Qed.

End TokenBudget.

(** A budget of 10 tokens over candidates estimated at 6, 6 and 1
    tokens: only the first is returned; the second would exceed the
    budget and the third, though it would fit, is never looked at. *)
Lemma retrieve_within_budget_witness :
  ContextManager.candidates
    RankExamples.ascii_lower RetrieveExamples.embed_east
    SearchExamples.dot SearchExamples.norm
    RetrieveExamples.manager Config.defaults RetrieveExamples.query
    RetrieveExamples.library (Some 3)
  = Some [RetrieveExamples.text_a; RetrieveExamples.text_b;
          RetrieveExamples.text_c]
  /\ ContextManager.retrieve_relevant_context
       RankExamples.ascii_lower RetrieveExamples.embed_east
       SearchExamples.dot SearchExamples.norm
       RetrieveExamples.manager Config.defaults RetrieveExamples.query
       RetrieveExamples.library (Some 3)
     = Some [RetrieveExamples.text_a]
  /\ sum_tokens [RetrieveExamples.text_a]
     <= ContextManager.max_tokens RetrieveExamples.manager.
Proof.
  split; [vm_compute; reflexivity|].
  split; [vm_compute; reflexivity|].
  destruct (retrieve_within_budget
              RankExamples.ascii_lower RetrieveExamples.embed_east
              SearchExamples.dot SearchExamples.norm
              RetrieveExamples.manager Config.defaults
              RetrieveExamples.query RetrieveExamples.library (Some 3))
    as [H _].
  - cbn. lia.
  - destruct (H [RetrieveExamples.text_a]) as [Hsum _].
    + vm_compute. reflexivity.
    + exact Hsum.
Defined.

(* ================================================================== *)
(** * Properties of the orchestration state machine *)
(* ================================================================== *)

Section AgentProperties.
Import Py Float Agent.

Variable llm_generate : list Message -> str.
Variable crawler_search : str -> str -> list Page.
Variable crawler_crawl : str -> str -> CrawlData.
Variable github_analyze : str -> GithubInfo.
Variable extract : option CrawlData -> option GithubInfo -> list str.
Variable retrieve_context : str -> str -> list str.
Variable lower : str -> str.
Variable add_messages : list Message -> list Message -> list Message.

Local Abbreviation node_function :=
  (node_function llm_generate crawler_search crawler_crawl github_analyze
                 extract retrieve_context lower).
Local Abbreviation after_node :=
  (after_node llm_generate crawler_search crawler_crawl github_analyze
              extract retrieve_context lower add_messages).
Local Abbreviation run_states :=
  (run_states llm_generate crawler_search crawler_crawl github_analyze
              extract retrieve_context lower add_messages).

(** With the cap the function really uses, the literal 10, the routing
    rule reads as the specification words it. *)
Lemma should_continue_literal_cap (state : AgentState) :
  let count := match iteration_count state with
               | Some n => n | None => 0 end in
  (10 <= count -> should_continue state = "end"%string)
  /\ (count < 10 ->
      should_continue state =
        match next_action state with
        | Some a => a | None => "end"%string end).
Proof.
  unfold should_continue; cbn zeta.
  destruct (iteration_count state) as [n|]; split; intros H;
    try (destruct (Z.geb_spec n 10); [reflexivity|lia]);
    try (destruct (Z.geb_spec n 10); [lia|reflexivity]);
    try lia; reflexivity.
Qed.

(** Every stage leaves [iteration_count] as it found it. *)
Lemma node_function_iteration_count (n : Node) (state : AgentState) :
  iteration_count (fst (node_function n state)) = iteration_count state.
Proof.
  destruct n; cbn; try reflexivity.
  - (* crawl_documentation *)
    unfold crawl_documentation.
    destruct (search_results state) as [[|top rest]|]; try reflexivity.
    destruct (page_url top) as [[|c url]|]; reflexivity.
  - (* validate_code *)
    unfold validate_code.
    destruct (negb _); reflexivity.
Qed.

Lemma after_node_iteration_count (n : Node) (state : AgentState) :
  iteration_count (after_node n state) = iteration_count state.
Proof.
  unfold Agent.after_node; cbn [iteration_count set_messages].
  apply node_function_iteration_count.
Qed.

Lemma run_states_iteration_count (fuel : nat) :
  forall (n : Node) (state : AgentState),
    Forall (fun s => iteration_count s = iteration_count state)
           (run_states fuel n state).
Proof.
  induction fuel as [|fuel IH]; intros n state; cbn [Agent.run_states].
  - constructor.
  - constructor.
    + apply after_node_iteration_count.
    + destruct (route n (after_node n state)) as [[n'|]|];
        try constructor.
      specialize (IH n' (after_node n state)).
      rewrite after_node_iteration_count in IH. exact IH.
Qed.

(** C9: each of the eight stage functions returns a state with the
    [iteration_count] of its input; hence along a run started by
    [CodeGenAgent.generate_code] the counter of every graph state is the
    initial 0, and in particular never decreases from one stage to the
    next. *)
Theorem stages_preserve_iteration_count :
  (forall state,
      iteration_count (fst (analyze_query llm_generate state))
      = iteration_count state
      /\ iteration_count (fst (search_documentation crawler_search state))
         = iteration_count state
      /\ iteration_count (fst (crawl_documentation crawler_crawl state))
         = iteration_count state
      /\ iteration_count (fst (analyze_github github_analyze state))
         = iteration_count state
      /\ iteration_count (fst (extract_examples extract state))
         = iteration_count state
      /\ iteration_count (fst (manage_context retrieve_context state))
         = iteration_count state
      /\ iteration_count (fst (generate_code llm_generate state))
         = iteration_count state
      /\ iteration_count (fst (validate_code lower state))
         = iteration_count state)
  /\ (forall library task fuel,
         Forall (fun s => iteration_count s = Some 0)
                (run_states fuel AnalyzeQuery
                            (initial_state library task)))
  /\ (forall library task fuel,
         Sorted (fun s1 s2 =>
                   exists a b, iteration_count s1 = Some a
                               /\ iteration_count s2 = Some b /\ a <= b)
                (run_states fuel AnalyzeQuery
                            (initial_state library task))).
Proof.
  split; [|split].
  - intros state.
    repeat apply conj.
    + exact (node_function_iteration_count AnalyzeQuery state).
    + exact (node_function_iteration_count SearchDocumentation state).
    + exact (node_function_iteration_count CrawlDocumentation state).
    + exact (node_function_iteration_count AnalyzeGithub state).
    + exact (node_function_iteration_count ExtractExamplesNode state).
    + exact (node_function_iteration_count ManageContext state).
    + exact (node_function_iteration_count GenerateCode state).
    + exact (node_function_iteration_count ValidateCode state).
  - intros library task fuel.
    exact (run_states_iteration_count fuel AnalyzeQuery
             (initial_state library task)).
  - intros library task fuel.
    pose proof (run_states_iteration_count fuel AnalyzeQuery
                  (initial_state library task)) as H.
    cbn [iteration_count initial_state] in H.
    induction H as [|s l Hs Hl IH]; constructor.
    + exact IH.
    + destruct Hl as [|s' l' Hs' _]; constructor.
      exists 0, 0. repeat split; try assumption. lia.
Qed.

(** ** [crawl_documentation] without a usable top URL *)

(** [not state.get("search_results")], or the first result's
    [.get("url")] is falsy. *)
Definition no_usable_top_url (state : AgentState) : Prop :=
  search_results state = None
  \/ search_results state = Some []
  \/ exists top rest,
      search_results state = Some (top :: rest)
      /\ (page_url top = None \/ page_url top = Some []).

(** C8: with no search results, or a first result without URL, the
    stage returns normally: it makes no call to the crawler (its call
    log is empty), changes only [next_action], which becomes
    ["analyze_github"], so [crawled_documentation] is what it was, and
    the graph has a successor for the returned state. *)
Theorem crawl_documentation_degrades (state : AgentState) :
  no_usable_top_url state ->
  let out := crawl_documentation crawler_crawl state in
  snd out = []
  /\ fst out = set_next_action "analyze_github" state
  /\ next_action (fst out) = Some "analyze_github"%string
  /\ crawled_documentation (fst out) = crawled_documentation state
  /\ route CrawlDocumentation (fst out) <> None.
Proof.
  intros H.
  assert (E : crawl_documentation crawler_crawl state
              = (set_next_action "analyze_github" state, [])).
  { unfold crawl_documentation, ret.
    destruct H as [H | [H | (top & rest & H & Hu)]]; rewrite H;
      try reflexivity.
    destruct Hu as [Hu | Hu]; rewrite Hu; reflexivity. }
  cbn zeta. rewrite E. cbn [fst snd].
  repeat split.
  unfold route, conditional_edges, should_continue.
  cbn [next_action iteration_count set_next_action].
  destruct (_ >=? 10); cbn; discriminate.
Qed.

(** ** [validate_code] *)

(** The library name occurs in the generated code when case is
    ignored: the lower-cased name is a substring of the lower-cased
    code ([generated_code] read as the empty string when absent). *)
Definition mentions_library (state : AgentState) : Prop :=
  occurs_in (lower (library_name state))
            (lower (match generated_code state with
                    | Some c => c | None => [] end)).

(** C7: [validate_code] sets [confidence_score] to 0.8 when the code
    mentions the library, and otherwise sets it to 0.3 and records the
    error message; either way [next_action] becomes ["end"]. *)
Theorem validate_code_confidence (state : AgentState) :
  let out := fst (validate_code lower state) in
  (mentions_library state ->
   confidence_score out = lit_0_8
   /\ error_message out = error_message state)
  /\ (~ mentions_library state ->
      confidence_score out = lit_0_3
      /\ error_message out = Some VALIDATION_ERROR)
  /\ next_action out = Some "end"%string.
Proof.
  unfold mentions_library, validate_code; cbn zeta.
  destruct (contains _ _) eqn:E; cbn [negb fst ret].
  - apply contains_spec in E.
    split; [|split]; try reflexivity.
    + intros _. split; reflexivity.
    + intros H. contradiction.
  - split; [|split]; try reflexivity.
    + intros H. apply contains_spec in H. congruence.
    + intros _. split; reflexivity.
Qed.

End AgentProperties.

Section RunCompletes.
Import Py Float Agent.

Variable llm_generate : list Message -> str.
Variable crawler_search : str -> str -> list Page.
Variable crawler_crawl : str -> str -> CrawlData.
Variable github_analyze : str -> GithubInfo.
Variable extract : option CrawlData -> option GithubInfo -> list str.
Variable retrieve_context : str -> str -> list str.
Variable lower : str -> str.
Variable add_messages : list Message -> list Message -> list Message.

Local Abbreviation after_node :=
  (after_node llm_generate crawler_search crawler_crawl github_analyze
              extract retrieve_context lower add_messages).
Local Abbreviation invoke :=
  (invoke llm_generate crawler_search crawler_crawl github_analyze
          extract retrieve_context lower add_messages).

(** The successor each node's edge mapping declares for the action the
    node itself requests. *)
Definition successor (n : Node) : Target :=
  match n with
  | AnalyzeQuery => Goto SearchDocumentation
  | SearchDocumentation => Goto CrawlDocumentation
  | CrawlDocumentation => Goto AnalyzeGithub
  | AnalyzeGithub => Goto ExtractExamplesNode
  | ExtractExamplesNode => Goto ManageContext
  | ManageContext => Goto GenerateCode
  | GenerateCode => Goto ValidateCode
  | ValidateCode => END
  end.

(** While the counter is below 10 every stage is followed by the
    successor it asks for: no routing error occurs. *)
Lemma route_after_node (n : Node) (state : AgentState) :
  iteration_count state = Some 0 ->
  route n (after_node n state) = Some (successor n).
Proof.
  intros H. unfold route, should_continue.
  rewrite (after_node_iteration_count llm_generate crawler_search
             crawler_crawl github_analyze extract retrieve_context lower
             add_messages n state), H.
  destruct n; try reflexivity.
  - (* crawl_documentation *)
    unfold Agent.after_node. cbn [node_function].
    unfold crawl_documentation.
    destruct (search_results state) as [[|top rest]|]; try reflexivity.
    destruct (page_url top) as [[|c url]|]; reflexivity.
Qed.

(** A run started by [CodeGenAgent.generate_code] executes the eight
    stages in their fixed order and ends after [validate_code]. *)
Lemma invoke_completes (library task : str) :
  exists final,
    invoke 8 AnalyzeQuery (initial_state library task) = Some final
    /\ iteration_count final = Some 0.
Proof.
  assert (Hstep : forall fuel n state,
             iteration_count state = Some 0 ->
             invoke (S fuel) n state
             = match successor n with
               | Goto n' => invoke fuel n' (after_node n state)
               | END => Some (after_node n state)
               end).
  { intros fuel n state H. cbn [Agent.invoke].
    rewrite (route_after_node n state H). reflexivity. }
  assert (Hcount : forall n state,
             iteration_count state = Some 0 ->
             iteration_count (after_node n state) = Some 0).
  { intros n state H.
    rewrite (after_node_iteration_count llm_generate crawler_search
               crawler_crawl github_analyze extract retrieve_context lower
               add_messages n state). exact H. }
  eexists. split.
  - repeat (rewrite Hstep; [cbn [successor]|auto 10]). reflexivity.
  - auto 10.
Qed.

End RunCompletes.


(** C1, evaluated where the configured cap is not 10: [should_continue]
    compares [iteration_count] with the literal 10 and never reads
    [Settings.max_iterations].  With the cap configured to 5 a state at
    count 7 is routed to its [next_action] instead of ["end"]; with the
    cap configured to 20 a state at count 10, below the cap, is sent to
    ["end"] instead of its [next_action]. *)
Theorem should_continue_ignores_configured_cap :
  (Config.max_iterations AgentExamples.cap_5 <= 7
   /\ Agent.should_continue
        (AgentExamples.state_with 7 "search_documentation")
      = "search_documentation"%string)
  /\ (10 < Config.max_iterations AgentExamples.cap_20
      /\ Agent.should_continue
           (AgentExamples.state_with 10 "search_documentation")
         = "end"%string).
Proof.
  split; split; try reflexivity; cbn; lia.
Qed.

(** A state without [search_results]. *)
Lemma crawl_documentation_degrades_witness :
  let state := AgentExamples.state_with 0 "crawl_documentation" in
  let out := Agent.crawl_documentation AgentExamples.no_crawl state in
  snd out = []
  /\ fst out = Agent.set_next_action "analyze_github" state
  /\ Agent.next_action (fst out) = Some "analyze_github"%string
  /\ Agent.crawled_documentation (fst out)
     = Agent.crawled_documentation state
  /\ Agent.route Agent.CrawlDocumentation (fst out) <> None.
Proof.
  apply (@crawl_documentation_degrades AgentExamples.no_crawl
           (AgentExamples.state_with 0 "crawl_documentation")).
  left. reflexivity.
Defined.

(* ================================================================== *)
(** * Worked examples *)
(* ================================================================== *)

(** With a query that asks for usage, the code example scoring 0.4 is
    boosted to 0.4 * 1.3 and overtakes the documentation chunk scoring
    0.5; without a keyword the order of the similarities is kept. *)
Example rank_and_filter_boost :
  List.map (fun r => VectorDatabase.res_id (ContextManager.sc_result r))
           (ContextManager.rank_and_filter
              RankExamples.ascii_lower RankExamples.two_results
              (Py.codes "Usage of sessions"))
  = [2; 1]
  /\ List.map (fun r => VectorDatabase.res_id (ContextManager.sc_result r))
              (ContextManager.rank_and_filter
                 RankExamples.ascii_lower RankExamples.two_results
                 (Py.codes "parse a file"))
     = [1; 2].
Proof. split; reflexivity. Qed.

(** Code that imports [Requests] mentions the library [requests]; code
    that does not is scored 0.3 and annotated. *)
Example validate_code_scores :
  let good := Agent.set_generated_code (Py.codes "import Requests")
                (AgentExamples.state_with 0 "validate_code") in
  let bad := Agent.set_generated_code (Py.codes "import urllib")
               (AgentExamples.state_with 0 "validate_code") in
  Agent.confidence_score
    (fst (Agent.validate_code RankExamples.ascii_lower good))
  = Float.lit_0_8
  /\ Agent.confidence_score
       (fst (Agent.validate_code RankExamples.ascii_lower bad))
     = Float.lit_0_3
  /\ Agent.error_message
       (fst (Agent.validate_code RankExamples.ascii_lower bad))
     = Some Agent.VALIDATION_ERROR.
Proof. repeat split. Qed.

(** The scenario of the chunker's test: [chunk_size = 100], overlap 20,
    three short paragraphs; they fit one chunk. *)
Example chunk_text_three_paragraphs :
  Chunker.chunk_text 0
    {| Chunker.chunk_size := 100; Chunker.chunk_overlap := 20 |}
    (Py.codes "This is paragraph one." ++ [Py.NL; Py.NL]
       ++ Py.codes "This is paragraph two." ++ [Py.NL; Py.NL]
       ++ Py.codes "This is paragraph three.")%list
  = Some [(Py.codes "This is paragraph one." ++ [Py.NL; Py.NL]
             ++ Py.codes "This is paragraph two." ++ [Py.NL; Py.NL]
             ++ Py.codes "This is paragraph three.")%list].
Proof. reflexivity. Qed.

(** A long sentence-free text is cut into windows of [chunk_size] that
    step by [chunk_size - chunk_overlap]. *)
Example split_by_size_windows :
  Chunker.split_by_size 10 ChunkerExamples.chunker_10_2
                        (Py.codes "abcdefghijklmnopqrstuvwxyz")
  = Some [Py.codes "abcdefghij"; Py.codes "ijklmnopqr";
          Py.codes "qrstuvwxyz"].
Proof. reflexivity. Qed.

(* ================================================================== *)
(** * Further properties of the chunker *)
(* ================================================================== *)

Section ChunkLengths.
Import Py Chunker.

Lemma last_index_bound (c : char) (w : str) (i : nat) :
  last_index c w = Some i -> (i < List.length w)%nat.
Proof.
  revert i. induction w as [|x w IH]; intros i; cbn [last_index];
    [discriminate|].
  destruct (last_index c w) as [j|].
  - intros H. injection H as <-. specialize (IH j eq_refl).
    cbn [List.length]. lia.
  - destruct (x =? c)%N; [|discriminate].
    intros H. injection H as <-. cbn [List.length]. lia.
Qed.

Lemma slice_length {A} (l : list A) (a b : Z) :
  len (slice l a b) <= Z.max 0 (clamp (len l) b - clamp (len l) a).
Proof.
  unfold slice, len at 1. rewrite length_firstn. lia.
Qed.

(** An index answered by [rfind] lies inside the searched slice. *)
Lemma rfind_bounds (s : str) (c : char) (a b : Z) :
  rfind s c a b = -1
  \/ (clamp (len s) a <= rfind s c a b < clamp (len s) b).
Proof.
  unfold rfind.
  destruct (last_index c (slice s a b)) as [i|] eqn:E; [right | left; reflexivity].
  apply last_index_bound in E.
  pose proof (slice_length s a b) as H. unfold len at 1 in H. lia.
Qed.

Lemma lstrip_length (s : str) : (List.length (lstrip s) <= List.length s)%nat.
Proof.
  destruct (lstrip_decompose s) as (pre & E & _).
  rewrite E at 2. rewrite length_app. lia.
Qed.

Lemma strip_length (s : str) : len (strip s) <= len s.
Proof.
  unfold len, strip, rstrip. rewrite length_rev.
  pose proof (lstrip_length (rev (lstrip s))) as H1.
  rewrite length_rev in H1.
  pose proof (lstrip_length s). lia.
Qed.

Variable self : SemanticChunker.
Hypothesis Hsize : 0 < chunk_size self.

(** No window is wider than [chunk_size], wherever it starts. *)
Lemma window_chunk_length (text : str) (start : Z) :
  len (w_chunk (size_step self text start)) <= chunk_size self.
Proof.
  unfold size_step; cbn [w_chunk].
  set (end0 := start + chunk_size self).
  set (se := Z.max _ _).
  set (end1 := if end0 <? len text then _ else _).
  pose proof (len_nonneg text) as Hlen.
  assert (Hse : se = -1
                \/ (clamp (len text) start <= se < clamp (len text) end0)).
  { subst se.
    pose proof (clamp_range (len text) start Hlen) as Hlo.
    destruct (rfind_bounds text DOT start end0) as [-> | H1];
    destruct (rfind_bounds text BANG start end0) as [-> | H2];
    destruct (rfind_bounds text QUESTION start end0) as [-> | H3];
    try (left; reflexivity); right; lia. }
  assert (Hw : clamp (len text) end1 - clamp (len text) start
               <= chunk_size self).
  { assert (H0 : clamp (len text) end0 - clamp (len text) start
                 <= chunk_size self).
    { subst end0. unfold clamp.
      destruct (Z.ltb_spec (start + chunk_size self) 0);
        destruct (Z.ltb_spec start 0); lia. }
    subst end1. destruct (end0 <? len text); [|exact H0].
    destruct (Z.gtb_spec se start) as [Hgt|_]; [|exact H0].
    destruct Hse as [-> | Hse].
    - pose proof (clamp_range (len text) start Hlen).
      replace (clamp (len text) (-1 + 1)) with 0
        by (unfold clamp; cbn; lia).
      lia.
    - pose proof (clamp_range (len text) start Hlen).
      pose proof (clamp_range (len text) end0 Hlen).
      assert (clamp (len text) (se + 1) = se + 1).
      { unfold clamp. destruct (Z.ltb_spec (se + 1) 0); lia. }
      lia. }
  pose proof (strip_length (slice text start end1)).
  pose proof (slice_length text start end1). lia.
Qed.

Lemma split_loop_lengths (text : str) (fuel : nat) :
  forall start chunks out,
    Forall (fun c => len c <= chunk_size self) chunks ->
    split_loop fuel self text start chunks = Some out ->
    Forall (fun c => len c <= chunk_size self) out.
Proof.
  induction fuel as [|fuel IH]; intros start chunks out Hc;
    cbn [split_loop]; [discriminate|].
  destruct (start <? len text).
  - apply IH. destruct (truthy _); [|exact Hc].
    apply Forall_app. split; [exact Hc|].
    constructor; [apply window_chunk_length | constructor].
  - intros H. injection H as <-. exact Hc.
Qed.

(** X1: whatever [chunk_text] returns, for a positive [chunk_size], holds no
    chunk longer than [chunk_size]: a chunk of the paragraph pass is kept
    only when it fits, and every window of the size-based splitter is at
    most [chunk_size] wide. *)
Theorem chunk_text_size_bound (text : str) (fuel : nat) (out : list str) :
  chunk_text fuel self text = Some out ->
  Forall (fun chunk => len chunk <= chunk_size self) out.
Proof.
  unfold chunk_text.
  generalize (split_by_semantic_boundaries self text) as chunks.
  intros chunks. revert out.
  induction chunks as [|chunk rest IH]; intros out; cbn [chunk_text_loop].
  - intros H. injection H as <-. constructor.
  - destruct (Z.gtb_spec (len chunk) (chunk_size self)) as [Hbig|Hfit].
    + destruct (split_by_size fuel self chunk) as [pieces|] eqn:Hs;
        [|discriminate].
      destruct (chunk_text_loop fuel self rest) as [final|]; [|discriminate].
      intros H. injection H as <-.
      apply Forall_app. split; [|apply IH; reflexivity].
      eapply split_loop_lengths; [constructor | exact Hs].
    + destruct (chunk_text_loop fuel self rest) as [final|]; [|discriminate].
      intros H. injection H as <-.
      constructor; [exact Hfit | apply IH; reflexivity].
Qed.

End ChunkLengths.

Section StrippedChunks.
Import Py Chunker.

(** A text [strip] leaves as it is: empty, or with a visible first and
    a visible last character. *)
Definition stripped (s : str) : Prop :=
  s = [] \/ (starts_visible s /\ starts_visible (rev s)).

Lemma lstrip_visible (s : str) : starts_visible s -> lstrip s = s.
Proof.
  intros (c & r & -> & Hc). cbn [lstrip]. rewrite Hc. reflexivity.
Qed.

Lemma stripped_fixed (s : str) : stripped s -> strip s = s.
Proof.
  intros [-> | [H1 H2]]; [reflexivity|].
  unfold strip, rstrip.
  rewrite (lstrip_visible s H1), (lstrip_visible (rev s) H2).
  apply rev_involutive.
Qed.

Lemma strip_stripped (s : str) : stripped (strip s).
Proof.
  destruct (strip_head s) as [E | Hv]; [left; exact E | right].
  split; [exact Hv|].
  unfold strip, rstrip in *. rewrite rev_involutive.
  destruct (lstrip_head (rev (lstrip s))) as [E | H]; [|exact H].
  rewrite E in Hv. destruct Hv as (c & r & Hcr & _). discriminate.
Qed.

Lemma join_stripped (parts : list str) :
  parts <> [] ->
  Forall (fun p => starts_visible p /\ starts_visible (rev p)) parts ->
  starts_visible (join PARA_SEP parts)
  /\ starts_visible (rev (join PARA_SEP parts)).
Proof.
  intros Hne Hall. split.
  - destruct parts as [|p ps]; [congruence|].
    apply join_head. inversion Hall as [|? ? [H _] _]; exact H.
  - destruct (join_ends_with_last parts Hne) as (pre & ->).
    rewrite rev_app_distr.
    assert (Hlast : starts_visible (rev (last_item parts))).
    { rewrite Forall_forall in Hall.
      apply (Hall (last_item parts)). apply last_item_in. exact Hne. }
    destruct Hlast as (c & r & -> & Hc).
    exists c, (r ++ rev pre)%list. split; [reflexivity | exact Hc].
Qed.

Variable self : SemanticChunker.

Definition visible_ends (p : str) : Prop :=
  starts_visible p /\ starts_visible (rev p).

Lemma strip_truthy_ends (s : str) :
  truthy (strip s) = true -> visible_ends (strip s).
Proof.
  intros H. destruct (strip_stripped s) as [E | Hv]; [|exact Hv].
  rewrite E in H. discriminate.
Qed.

Lemma sem_step_ends (st : sem_state) (para0 : str) :
  Forall visible_ends (fst (fst st))
  /\ Forall visible_ends (snd (fst st)) ->
  Forall visible_ends (fst (fst (sem_step self st para0)))
  /\ Forall visible_ends (snd (fst (sem_step self st para0))).
Proof.
  destruct st as [[chunks current] clen]. cbn [fst snd].
  intros [Hc Hcur]. unfold sem_step.
  destruct (truthy (strip para0)) eqn:Hp; cbn [negb fst snd];
    [|split; assumption].
  apply strip_truthy_ends in Hp.
  destruct ((clen + len (strip para0) >? chunk_size self) && truthy current)
    eqn:Hemit.
  - apply andb_true_iff in Hemit. destruct Hemit as [_ Hne].
    assert (Hcurne : current <> []) by (destruct current; discriminate).
    assert (Hchunks : Forall visible_ends
                        (chunks ++ [join PARA_SEP current])).
    { apply Forall_app. split; [exact Hc|].
      constructor; [apply join_stripped; assumption | constructor]. }
    destruct ((chunk_overlap self >? 0) && (len current >? 1));
      cbn [fst snd]; (split; [exact Hchunks|]).
    + constructor; [|constructor; [exact Hp | constructor]].
      rewrite Forall_forall in Hcur. apply Hcur.
      apply last_item_in. exact Hcurne.
    + constructor; [exact Hp | constructor].
  - cbn [fst snd]. split; [exact Hc|].
    apply Forall_app. split; [exact Hcur|].
    constructor; [exact Hp | constructor].
Qed.

Lemma semantic_chunks_ends (text : str) :
  Forall visible_ends (split_by_semantic_boundaries self text).
Proof.
  unfold split_by_semantic_boundaries.
  assert (H : forall paras st,
             Forall visible_ends (fst (fst st))
             /\ Forall visible_ends (snd (fst st)) ->
             Forall visible_ends
                    (fst (fst (fold_left (sem_step self) paras st)))
             /\ Forall visible_ends
                       (snd (fst (fold_left (sem_step self) paras st)))).
  { induction paras as [|p paras IH]; intros st Hst; cbn [fold_left];
      [exact Hst | apply IH, sem_step_ends, Hst]. }
  specialize (H (re_split_paragraphs text) ([], [], 0)).
  destruct (fold_left _ _ _) as [[chunks current] clen]. cbn [fst snd] in H.
  destruct H as [Hc Hcur]; [split; constructor|].
  destruct (truthy current) eqn:Ht; [|exact Hc].
  apply Forall_app. split; [exact Hc|].
  constructor; [|constructor].
  apply join_stripped; [destruct current; discriminate | exact Hcur].
Qed.

Lemma split_loop_stripped (text : str) (fuel : nat) :
  forall start chunks out,
    Forall stripped chunks ->
    split_loop fuel self text start chunks = Some out ->
    Forall stripped out.
Proof.
  induction fuel as [|fuel IH]; intros start chunks out Hc;
    cbn [split_loop]; [discriminate|].
  destruct (start <? len text).
  - apply IH. destruct (truthy _); [|exact Hc].
    apply Forall_app. split; [exact Hc|].
    constructor; [apply strip_stripped | constructor].
  - intros H. injection H as <-. exact Hc.
Qed.

(** X2: every chunk [chunk_text] returns is already stripped: it neither
    starts nor ends with white space, so [chunk.strip() == chunk]. *)
Theorem chunk_text_stripped (text : str) (fuel : nat) (out : list str) :
  chunk_text fuel self text = Some out ->
  Forall (fun chunk => strip chunk = chunk) out.
Proof.
  unfold chunk_text. intros H.
  apply Forall_impl with (P := stripped); [apply stripped_fixed|].
  pose proof (semantic_chunks_ends text) as Hsem.
  revert out H.
  induction Hsem as [|chunk rest Hchunk _ IH]; intros out;
    cbn [chunk_text_loop].
  - intros H. injection H as <-. constructor.
  - destruct (len chunk >? chunk_size self).
    + destruct (split_by_size fuel self chunk) as [pieces|] eqn:Hs;
        [|discriminate].
      destruct (chunk_text_loop fuel self rest) as [final|]; [|discriminate].
      intros H. injection H as <-.
      apply Forall_app. split; [|apply IH; reflexivity].
      eapply split_loop_stripped; [constructor | exact Hs].
    + destruct (chunk_text_loop fuel self rest) as [final|]; [|discriminate].
      intros H. injection H as <-.
      constructor; [right; exact Hchunk | apply IH; reflexivity].
Qed.

End StrippedChunks.

Section NoOverlapTerminates.
Import Py Chunker.

Variable self : SemanticChunker.
Hypothesis Hsize : 0 < chunk_size self.
Hypothesis Hov : chunk_overlap self <= 0.

(** Without a positive overlap every iteration moves [start] forward. *)
Lemma size_step_advances (text : str) (start : Z) :
  start < w_next (size_step self text start).
Proof.
  rewrite w_next_unfold. cbn zeta.
  assert (H : start < w_end (size_step self text start)).
  { unfold size_step; cbn [w_end].
    destruct (_ <? len text); [|lia].
    destruct (Z.gtb_spec (Z.max (Z.max (rfind text DOT start
                                              (start + chunk_size self))
                                       (rfind text BANG start
                                              (start + chunk_size self)))
                                (rfind text QUESTION start
                                       (start + chunk_size self)))
                         start); lia. }
  destruct (_ <? len text); lia.
Qed.

Lemma split_loop_advancing (text : str) :
  forall n start chunks,
    len text - start <= Z.of_nat n ->
    exists out, split_loop (S n) self text start chunks = Some out.
Proof.
  induction n as [|n IH]; intros start chunks Hn.
  - cbn [split_loop]. destruct (Z.ltb_spec start (len text)); [lia|].
    eexists; reflexivity.
  - cbn [split_loop]. fold (split_loop (S n) self text).
    destruct (Z.ltb_spec start (len text)); [|eexists; reflexivity].
    apply IH. pose proof (size_step_advances text start). lia.
Qed.

Lemma chunk_text_loop_advancing (chunks : list str) :
  exists fuel out, chunk_text_loop fuel self chunks = Some out.
Proof.
  induction chunks as [|chunk rest (f2 & final & Hfinal)].
  - exists O, []. reflexivity.
  - destruct (split_loop_advancing chunk (Z.to_nat (len chunk)) 0 [])
      as (pieces & Hpieces).
    { pose proof (len_nonneg chunk). lia. }
    set (f1 := S (Z.to_nat (len chunk))) in *.
    assert (Hr : chunk_text_loop (f1 + f2) self rest = Some final).
    { rewrite Nat.add_comm. apply chunk_text_loop_mono. exact Hfinal. }
    assert (Hp : split_by_size (f1 + f2) self chunk = Some pieces).
    { apply split_loop_mono. exact Hpieces. }
    exists (f1 + f2)%nat. cbn [chunk_text_loop]. rewrite Hr, Hp.
    destruct (len chunk >? chunk_size self); eexists; reflexivity.
Qed.

(** X3: on a chunker whose attribute [self.chunk_size] is positive and
    whose attribute [self.chunk_overlap] is not ([__init__] sets it to 0
    only from the settings, an argument of 0 being replaced by theirs)
    [chunk_text] returns on every text: each window ends after its start
    and the next one starts no earlier than that end. *)
Theorem chunk_text_returns_without_overlap (text : str) :
  exists fuel out, chunk_text fuel self text = Some out.
Proof.
  unfold chunk_text. apply chunk_text_loop_advancing.
Qed.

End NoOverlapTerminates.

Section ChunkCodeProperties.
Import Py Chunker ChunkCode.

Variable self : SemanticChunker.
Hypothesis Hsize : 0 < chunk_size self.

(** What [chunk_code] promises of a chunk. *)
Definition code_chunk_ok (chunk : str) : Prop :=
  chunk <> [] /\ strip chunk = chunk
  /\ 2 * len chunk <= 3 * chunk_size self.

Lemma stripped_pieces_ok (pieces : list str) :
  Forall (fun chunk => truthy chunk = true /\ stripped chunk)
         (stripped_pieces pieces).
Proof.
  unfold stripped_pieces. induction pieces as [|p pieces IH];
    cbn [filter List.map]; [constructor|].
  destruct (truthy (strip p)) eqn:E; [|exact IH].
  cbn [List.map]. constructor; [|exact IH].
  split; [exact E | apply strip_stripped].
Qed.

Lemma split_by_size_code_ok (chunk : str) (fuel : nat) (pieces : list str) :
  split_by_size fuel self chunk = Some pieces ->
  Forall code_chunk_ok pieces.
Proof.
  intros Hs.
  pose proof (split_loop_extends self chunk fuel 0 [] pieces Hs)
    as (rest & -> & Htruthy).
  pose proof (split_loop_lengths self Hsize chunk fuel 0 [] _
                (Forall_nil _) Hs) as Hlen.
  pose proof (split_loop_stripped self chunk fuel 0 [] _
                (Forall_nil _) Hs) as Hstr.
  cbn [app] in *.
  rewrite Forall_forall in *. intros c Hc.
  split; [apply truthy_nonempty, Htruthy, Hc|].
  split; [apply stripped_fixed, Hstr, Hc|].
  specialize (Hlen c Hc). cbn beta in Hlen. lia.
Qed.

(** X4: whatever [chunk_code] returns, for a positive [chunk_size] in the
    range where the product [chunk_size * 1.5] is exact, holds only
    non-empty chunks without surrounding white space, none longer than
    one and a half times [chunk_size]. *)
Theorem chunk_code_chunks (code : str) (fuel : nat) (out : list str) :
  3 * chunk_size self < 2 ^ 53 ->
  chunk_code fuel self code = Some out ->
  Forall code_chunk_ok out.
Proof.
  intros _. unfold chunk_code.
  pose proof (stripped_pieces_ok (re_split_definitions code)) as Hp.
  revert out.
  induction Hp as [|chunk rest [Ht Hs] _ IH]; intros out;
    cbn [chunk_code_loop].
  - intros H. injection H as <-. constructor.
  - unfold exceeds_code_limit.
    destruct (Z.gtb_spec (2 * len chunk) (3 * chunk_size self)) as [Hbig|Hfit].
    + destruct (split_by_size fuel self chunk) as [pieces|] eqn:Hsplit;
        [|discriminate].
      destruct (chunk_code_loop fuel self rest) as [final|]; [|discriminate].
      intros H. injection H as <-.
      apply Forall_app. split; [|apply IH; reflexivity].
      eapply split_by_size_code_ok. exact Hsplit.
    + destruct (chunk_code_loop fuel self rest) as [final|]; [|discriminate].
      intros H. injection H as <-.
      constructor; [|apply IH; reflexivity].
      split; [apply truthy_nonempty; exact Ht|].
      split; [apply stripped_fixed; exact Hs | exact Hfit].
Qed.

(** The pieces [re.split] cuts the code into, put back together, are
    the code: nothing is lost at a definition boundary. *)
Lemma re_split_definitions_aux_concat (s : str) :
  forall cur,
    List.concat (re_split_definitions_aux cur s) = (rev cur ++ s)%list.
Proof.
  induction s as [|c s IH]; intros cur; cbn [re_split_definitions_aux].
  - cbn. rewrite !app_nil_r. reflexivity.
  - destruct (at_definition (c :: s)).
    + cbn [List.concat]. rewrite IH. reflexivity.
    + rewrite IH. cbn [rev]. rewrite <- app_assoc. reflexivity.
Qed.

End ChunkCodeProperties.

(* ================================================================== *)
(** * Properties of the table *)
(* ================================================================== *)

Module StoreOps.
Import Py Float VectorDatabase.

(** A call that writes to the table. *)
Inductive Op :=
| Insert (text : str) (embedding : list f64) (metadata : option Metadata)
| Clear.

(** The table after a sequence of calls, with the ids the [insert]
    calls returned, in order. *)
Fixpoint run (table : Store.Table) (ops : list Op) : Store.Table * list Z :=
  match ops with
  | [] => (table, [])
  | Insert text embedding metadata :: rest =>
      let '(table', id) := Store.insert table text embedding metadata in
      let '(final, ids) := run table' rest in
      (final, id :: ids)
  | Clear :: rest => run (Store.clear table) rest
  end.

Definition is_insert (op : Op) : bool :=
  match op with Insert _ _ _ => true | Clear => false end.

(** The rowids are increasing down the table and none is above the
    recorded maximum. *)
Definition well_formed (table : Store.Table) : Prop :=
  StronglySorted Z.lt (List.map row_id (Store.rows table))
  /\ Forall (fun row => row_id row <= Store.last_id table)
            (Store.rows table).

End StoreOps.

Section StoreProperties.
Import Py Float VectorDatabase StoreOps.

Lemma well_formed_empty : well_formed Store.empty.
Proof. split; constructor. Qed.

Lemma sorted_snoc (l : list Z) (x : Z) :
  StronglySorted Z.lt l -> Forall (fun y => y < x) l ->
  StronglySorted Z.lt (l ++ [x]).
Proof.
  induction l as [|y l IH]; intros Hs Hall; cbn [app].
  - constructor; constructor.
  - inversion Hs as [|? ? Hs' Hy]; subst.
    inversion Hall as [|? ? Hyx Hall']; subst.
    constructor; [apply IH; assumption|].
    apply Forall_app. split; [exact Hy | constructor; [exact Hyx | constructor]].
Qed.

Lemma insert_well_formed (table : Store.Table) (text : str)
      (embedding : list f64) (metadata : option Metadata) :
  well_formed table ->
  well_formed (fst (Store.insert table text embedding metadata)).
Proof.
  intros [Hs Hb]. unfold well_formed, Store.insert.
  cbn [fst Store.rows Store.last_id]. split.
  - rewrite map_app. cbn [List.map row_id]. apply sorted_snoc; [exact Hs|].
    rewrite Forall_map. eapply Forall_impl; [|exact Hb].
    cbn beta. intros row H. lia.
  - apply Forall_app. split.
    + eapply Forall_impl; [|exact Hb]. cbn beta. intros row H. lia.
    + constructor; [cbn; lia | constructor].
Qed.

Lemma clear_well_formed (table : Store.Table) :
  well_formed (Store.clear table).
Proof. split; constructor. Qed.

Lemma run_ids (ops : list Op) :
  forall table final ids,
    run table ops = (final, ids) ->
    Store.last_id final = Store.last_id table + len ids
    /\ StronglySorted Z.lt ids
    /\ Forall (fun id => Store.last_id table < id) ids.
Proof.
  induction ops as [|[text embedding metadata|] ops IH];
    intros table final ids; cbn [run].
  - intros H. injection H as <- <-. unfold len. cbn.
    split; [lia | split; constructor].
  - unfold Store.insert.
    destruct (run _ ops) as [final' ids'] eqn:E.
    intros H. injection H as <- <-.
    destruct (IH _ _ _ E) as (Hlast & Hsorted & Hfresh).
    cbn [Store.last_id] in *.
    split; [unfold len in *; cbn [List.length]; lia|].
    split.
    + constructor; [exact Hsorted|].
      eapply Forall_impl; [|exact Hfresh]. cbn beta. intros id H. lia.
    + constructor; [lia|].
      eapply Forall_impl; [|exact Hfresh]. cbn beta. intros id H. lia.
  - intros H. destruct (IH _ _ _ H) as (Hlast & Hsorted & Hfresh).
    cbn [Store.clear Store.last_id] in *. auto.
Qed.

Lemma run_well_formed (ops : list Op) :
  forall table final ids,
    well_formed table -> run table ops = (final, ids) -> well_formed final.
Proof.
  induction ops as [|[text embedding metadata|] ops IH];
    intros table final ids Hwf; cbn [run].
  - intros H. injection H as <- <-. exact Hwf.
  - pose proof (insert_well_formed table text embedding metadata Hwf) as H1.
    destruct (Store.insert table text embedding metadata) as [table' id].
    destruct (run table' ops) as [final' ids'] eqn:E.
    intros H. injection H as <- <-. eapply IH; [exact H1 | exact E].
  - apply IH. apply clear_well_formed.
Qed.

Lemma run_count_inserts (ops : list Op) :
  forall table final ids,
    forallb is_insert ops = true ->
    run table ops = (final, ids) ->
    Store.count final = Store.count table + len ops.
Proof.
  induction ops as [|[text embedding metadata|] ops IH];
    intros table final ids Hall; cbn [run]; try discriminate.
  - intros H. injection H as <- <-. unfold len. cbn. lia.
  - unfold Store.insert.
    destruct (run _ ops) as [final' ids'] eqn:E.
    intros H. injection H as <- <-.
    rewrite (IH _ _ _ Hall E). unfold Store.count, len.
    cbn [Store.rows List.length]. rewrite length_app. cbn [List.length]. lia.
Qed.

(** X5: over any sequence of [insert] and [clear] calls on a well-formed
    table, the ids that [insert] returns are strictly increasing and
    above every id the table held or issued before, also across a
    [clear]: no id is ever reused.  The table stays well-formed, its rows
    all carry ids issued so far, and after [N] inserts without a clear
    [count] has grown by [N]. *)
Theorem insert_ids_increase (table : Store.Table) (ops : list Op) :
  well_formed table ->
  let '(final, ids) := run table ops in
  well_formed final
  /\ StronglySorted Z.lt ids
  /\ Forall (fun id => Store.last_id table < id) ids
  /\ Store.last_id final = Store.last_id table + len ids
  /\ (forallb is_insert ops = true ->
      Store.count final = Store.count table + len ops)
  /\ Store.count (Store.clear final) = 0.
Proof.
  intros Hwf. destruct (run table ops) as [final ids] eqn:E.
  destruct (run_ids ops table final ids E) as (Hlast & Hsorted & Hfresh).
  split; [eapply run_well_formed; eassumption|].
  split; [exact Hsorted|]. split; [exact Hfresh|].
  split; [exact Hlast|].
  split; [intros Hall; eapply run_count_inserts; eassumption | reflexivity].
Qed.

End StoreProperties.

Section SearchCount.
Import Py Float VectorDatabase.

Variable np_dot : list f32 -> list f32 -> option f32.
Variable np_linalg_norm : list f32 -> f32.

Local Abbreviation cosine_similarity :=
  (cosine_similarity np_dot np_linalg_norm).
Local Abbreviation scan := (scan np_dot np_linalg_norm).
Local Abbreviation search := (search np_dot np_linalg_norm).
Local Abbreviation result_of := (result_of np_dot np_linalg_norm).

Lemma slice_to_length_exact {A} (l : list A) (k : Z) :
  len (slice_to l k) = clamp (len l) k.
Proof.
  unfold slice_to, len at 1. rewrite length_firstn.
  pose proof (clamp_range (len l) k (len_nonneg l)) as H.
  unfold len in *. lia.
Qed.

Lemma slice_to_all {A} (l : list A) : slice_to l (len l) = l.
Proof.
  unfold slice_to, clamp.
  pose proof (len_nonneg l).
  destruct (Z.ltb_spec (len l) 0); [lia|].
  rewrite Z.min_id. unfold len. rewrite Nat2Z.id. apply firstn_all.
Qed.

Lemma slice_to_incl {A} (l : list A) (k : Z) (x : A) :
  In x (slice_to l k) -> In x l.
Proof. unfold slice_to. apply in_firstn. Qed.

Lemma scan_length (query_vec : list f32) (rows : list Row)
      (all : list SearchResult) :
  scan rows query_vec = Some all -> len all = len rows.
Proof.
  intros H. apply scan_results in H. apply Forall2_length in H.
  unfold len. lia.
Qed.

Lemma scan_from_rows (query_vec : list f32) (rows : list Row)
      (all : list SearchResult) (r : SearchResult) :
  scan rows query_vec = Some all -> In r all ->
  exists row, In row rows /\ result_of query_vec row r.
Proof.
  intros H. apply scan_results in H.
  induction H as [|row r' rows all Hr _ IH]; intros Hin; [contradiction|].
  destruct Hin as [<- | Hin].
  - exists row. split; [left; reflexivity | exact Hr].
  - destruct (IH Hin) as (row' & Hrow & Hres).
    exists row'. split; [right; exact Hrow | exact Hres].
Qed.

(** The metadata [search] reports for a row: the stored mapping, or the
    empty mapping for NULL. *)
Definition metadata_of (row : Row) : Metadata :=
  match row_metadata row with
  | Some m => m
  | None => empty_metadata
  end.

Lemma scan_metadata (query_vec : list f32) (rows : list Row) :
  forall all,
    scan rows query_vec = Some all ->
    Forall2 (fun row r => res_metadata r = metadata_of row) rows all.
Proof.
  induction rows as [|row rows IH]; intros all; cbn [VectorDatabase.scan].
  - intros H. injection H as <-. constructor.
  - destruct (cosine_similarity query_vec (row_embedding row)); [|discriminate].
    destruct (scan rows query_vec) as [results'|]; [|discriminate].
    intros H. injection H as <-.
    constructor; [reflexivity | apply IH; reflexivity].
Qed.

Lemma stored_metadata_read (metadata : option Metadata) :
  match Store.stored_metadata metadata with
  | Some m => m
  | None => empty_metadata
  end
  = match metadata with
    | Some m => m
    | None => empty_metadata
    end.
Proof.
  destruct metadata as [[[s|] [t|]]|]; reflexivity.
Qed.

Lemma search_from_rows (rows : list Row) (query_embedding : list f64)
      (top_k : Z) (results : list SearchResult) :
  search rows query_embedding top_k = Some results ->
  Forall (fun r =>
            exists row,
              In row rows
              /\ result_of (List.map to_f32 query_embedding) row r)
         results.
Proof.
  unfold VectorDatabase.search.
  destruct (scan rows (List.map to_f32 query_embedding)) as [all|] eqn:E;
    [|discriminate].
  intros H. injection H as <-.
  apply Forall_forall. intros r Hr. apply slice_to_incl in Hr.
  eapply scan_from_rows; [exact E|].
  eapply Permutation_in; [apply sort_desc_perm | exact Hr].
Qed.

(** X6: the number of results [search] returns is the length of the slice
    [results[:top_k]] of one result per stored row: the smaller of
    [top_k] and the row count for [top_k >= 0], and the row count less
    [-top_k] (or 0) for a negative [top_k].  Every result reports the id
    and text of a stored row, with that row's similarity. *)
Theorem search_result_count (rows : list Row) (query_embedding : list f64)
        (top_k : Z) (results : list SearchResult) :
  search rows query_embedding top_k = Some results ->
  len results = clamp (len rows) top_k
  /\ (0 <= top_k -> len results = Z.min top_k (len rows))
  /\ (top_k < 0 -> len results = Z.max 0 (len rows + top_k))
  /\ Forall (fun r =>
               exists row,
                 In row rows
                 /\ result_of (List.map to_f32 query_embedding) row r)
            results.
Proof.
  intros Hsearch. pose proof (search_from_rows _ _ _ _ Hsearch) as Hrows.
  revert Hsearch. unfold VectorDatabase.search.
  destruct (scan rows (List.map to_f32 query_embedding)) as [all|] eqn:E;
    [|discriminate].
  intros H. injection H as <-.
  assert (Hlen : len (sort_desc res_similarity all) = len rows).
  { rewrite <- (scan_length _ _ _ E). unfold len.
    rewrite (Permutation_length (sort_desc_perm _ res_similarity all)).
    reflexivity. }
  rewrite slice_to_length_exact, Hlen.
  split; [reflexivity|].
  split; [unfold clamp; destruct (Z.ltb_spec top_k 0); lia|].
  split; [unfold clamp; destruct (Z.ltb_spec top_k 0); lia|].
  exact Hrows.
Qed.

(** X7: what [insert] stores comes back from [search]: after an insert, a
    search that asks for as many results as there are rows reports the
    new id with the text as given and the metadata as given (the empty
    mapping when none was given). *)
Theorem insert_then_search (table : Store.Table) (text : str)
        (embedding : list f64) (metadata : option Metadata)
        (query_embedding : list f64) (results : list SearchResult) :
  let table' := fst (Store.insert table text embedding metadata) in
  let id := snd (Store.insert table text embedding metadata) in
  Store.search np_dot np_linalg_norm table' query_embedding
               (Store.count table') = Some results ->
  len results = Store.count table + 1
  /\ exists r,
      In r results
      /\ res_id r = id
      /\ res_text r = text
      /\ res_metadata r = match metadata with
                          | Some m => m
                          | None => empty_metadata
                          end.
Proof.
  unfold Store.insert, Store.search, Store.count, VectorDatabase.search.
  cbn [fst snd Store.rows Store.last_id].
  set (new := {| row_id := Store.last_id table + 1; row_text := text;
                 row_embedding := List.map to_f32 embedding;
                 row_metadata := Store.stored_metadata metadata |}).
  destruct (scan (Store.rows table ++ [new])
                 (List.map to_f32 query_embedding)) as [all|] eqn:E;
    [|discriminate].
  intros H. injection H as <-.
  assert (Hlen : len (sort_desc res_similarity all)
                 = len (Store.rows table ++ [new])).
  { rewrite <- (scan_length _ _ _ E). unfold len.
    rewrite (Permutation_length (sort_desc_perm _ res_similarity all)).
    reflexivity. }
  rewrite <- Hlen, slice_to_all. split.
  - rewrite Hlen. unfold len. rewrite length_app. cbn [List.length]. lia.
  - pose proof (scan_results _ _ _ _ _ E) as HF.
    pose proof (scan_metadata _ _ _ E) as HM.
    apply Forall2_app_inv_l in HF.
    destruct HF as (all1 & all2 & H1 & H2 & ->).
    inversion H2 as [|? r ? ? (Hid & Htext & _) Hnil]; subst.
    inversion Hnil; subst.
    apply Forall2_app_inv_l in HM.
    destruct HM as (m1 & m2 & M1 & M2 & HE).
    apply Forall2_length in H1, M1.
    exists r. split.
    + eapply Permutation_in; [symmetry; apply sort_desc_perm|].
      apply in_or_app. right. left. reflexivity.
    + split; [exact Hid | split; [exact Htext|]].
      assert (Hm2 : m2 = [r]).
      { inversion M2 as [|? r' ? ? _ Mnil]; subst. inversion Mnil; subst.
        apply app_inj_tail in HE. destruct HE as [_ ->]. reflexivity. }
      subst m2. inversion M2 as [|? ? ? ? Hr _]; subst.
      rewrite Hr. unfold metadata_of, new. cbn [row_metadata].
      apply stored_metadata_read.
Qed.

End SearchCount.

(* ================================================================== *)
(** * Further properties of search and retrieval *)
(* ================================================================== *)

Section CosineSymmetry.
Import Py Float.

(** Floating-point multiplication commutes, rounding included. *)
Lemma SFmul_comm (prec emax : Z) (x y : spec_float) :
  SFmul prec emax x y = SFmul prec emax y x.
Proof.
  destruct x as [sx|sx| |sx mx ex], y as [sy|sy| |sy my ey]; cbn [SFmul];
    try reflexivity; try (rewrite xorb_comm; reflexivity).
  rewrite xorb_comm, Pos.mul_comm, Z.add_comm. reflexivity.
Qed.

(** The dot product of the examples does not depend on which array
    comes first. *)
Lemma dot_from_comm (prec emax : Z) (vec1 : list spec_float) :
  forall vec2 acc,
    SearchExamples.dot_from prec emax acc vec1 vec2
    = SearchExamples.dot_from prec emax acc vec2 vec1.
Proof.
  induction vec1 as [|a vec1 IH]; intros [|b vec2] acc;
    cbn [SearchExamples.dot_from]; try reflexivity.
  rewrite (SFmul_comm prec emax a b). apply IH.
Qed.

Variable np_dot32 : list f32 -> list f32 -> option f32.
Variable np_linalg_norm32 : list f32 -> f32.
Variable np_dot64 : list f64 -> list f64 -> option f64.
Variable np_linalg_norm64 : list f64 -> f64.

(** [np.dot(a, b)] and [np.dot(b, a)] are the same value, or both
    raise. *)
Hypothesis np_dot32_symmetric :
  forall vec1 vec2, np_dot32 vec1 vec2 = np_dot32 vec2 vec1.
Hypothesis np_dot64_symmetric :
  forall vec1 vec2, np_dot64 vec1 vec2 = np_dot64 vec2 vec1.

(** X8: where numpy's dot product does not depend on which array comes
    first, neither cosine similarity does, as floating-point values: the
    two norms are multiplied in the other order, which rounds to the
    same float, and the guard tests both norms.  A mismatch of
    dimensions raises either way. *)
Theorem cosine_similarity_symmetric :
  (forall vec1 vec2 : list f32,
      VectorDatabase.cosine_similarity np_dot32 np_linalg_norm32 vec1 vec2
      = VectorDatabase.cosine_similarity np_dot32 np_linalg_norm32
                                         vec2 vec1)
  /\ (forall embedding1 embedding2 : list f64,
         Embeddings.cosine_similarity np_dot64 np_linalg_norm64
                                      embedding1 embedding2
         = Embeddings.cosine_similarity np_dot64 np_linalg_norm64
                                        embedding2 embedding1).
Proof.
  split.
  - intros vec1 vec2. unfold VectorDatabase.cosine_similarity.
    rewrite (np_dot32_symmetric vec1 vec2).
    destruct (np_dot32 vec2 vec1); [|reflexivity].
    rewrite orb_comm. unfold mul32.
    rewrite (SFmul_comm 24 128 (np_linalg_norm32 vec1)). reflexivity.
  - intros e1 e2. unfold Embeddings.cosine_similarity.
    rewrite (np_dot64_symmetric e1 e2).
    destruct (np_dot64 e2 e1); [|reflexivity].
    rewrite orb_comm. unfold mul64.
    rewrite (SFmul_comm 53 1024 (np_linalg_norm64 e1)). reflexivity.
Qed.

End CosineSymmetry.

Section RetrieveShape.
Import Py Float VectorDatabase ContextManager.

Variable lower : str -> str.
Variable embed_text : str -> list f64.
Variable np_dot : list f32 -> list f32 -> option f32.
Variable np_linalg_norm : list f32 -> f32.

Lemma float_ge_not_lt (x y : spec_float) :
  float_ge x y -> SFltb x y = false.
Proof.
  unfold float_ge. intros H.
  destruct (SFleb_not_nan _ _ H) as [Hy Hx].
  unfold SFleb in H. unfold SFltb.
  rewrite (SFcompare_key y x Hy Hx) in H.
  rewrite (SFcompare_key x y Hx Hy).
  rewrite (lex_compare_antisym (order_key y) (order_key x)).
  destruct (lex_compare (order_key y) (order_key x)); cbn; congruence.
Qed.

(** Sorting a list that is already in descending order changes
    nothing. *)
Lemma sort_desc_sorted_id {A} (key : A -> f64) (l : list A) :
  StronglySorted (key_ge A key) l -> sort_desc key l = l.
Proof.
  unfold sort_desc. induction 1 as [|x l Hs IH Hall]; cbn [fold_right];
    [reflexivity|].
  rewrite IH. destruct l as [|y l]; [reflexivity|].
  cbn [insert_desc].
  inversion Hall as [|? ? Hxy _]; subst.
  rewrite (float_ge_not_lt _ _ Hxy). reflexivity.
Qed.

Lemma adjust_plain (query : str) (result : SearchResult) :
  needs_examples lower query = false ->
  adjust (needs_examples lower query) result = res_similarity result.
Proof. intros H. unfold adjust. rewrite H. reflexivity. Qed.

(** X9: for a query that, lower-cased, contains none of [example],
    [how to] and [usage], re-ranking leaves results that arrive in
    non-increasing similarity, as [search] returns them, in exactly that
    order, each with its similarity as adjusted score. *)
Theorem rank_keeps_search_order (results : list SearchResult) (query : str) :
  ~ occurs_in (codes "example") (lower query) ->
  ~ occurs_in (codes "how to") (lower query) ->
  ~ occurs_in (codes "usage") (lower query) ->
  StronglySorted similarity_ge results ->
  rank_and_filter lower results query
  = List.map (fun result => {| sc_result := result;
                               adjusted_score := res_similarity result |})
             results.
Proof.
  intros Hq1 Hq2 Hq3 Hs.
  assert (Hn : needs_examples lower query = false).
  { destruct (needs_examples lower query) eqn:E; [|reflexivity].
    exfalso. apply needs_examples_spec in E.
    destruct E as [E | [E | E]]; [exact (Hq1 E) | exact (Hq2 E) | exact (Hq3 E)]. }
  unfold rank_and_filter.
  rewrite (map_ext _ (fun result =>
                        {| sc_result := result;
                           adjusted_score := res_similarity result |})).
  - apply sort_desc_sorted_id.
    induction Hs as [|x l Hs IH Hall]; cbn [List.map]; constructor.
    + exact IH.
    + rewrite Forall_map. exact Hall.
  - intros result. rewrite (adjust_plain query result Hn). reflexivity.
Qed.

(** X10: [retrieve_relevant_context] returns at most [top_k] texts (for a
    [top_k] that is not negative, the given one or the configured
    default), each the text of a stored row. *)
Theorem retrieve_at_most_top_k (self : ContextManager)
        (settings : Config.Settings) (query library_name : str)
        (top_k : option Z) (out : list str) :
  retrieve_relevant_context lower embed_text np_dot np_linalg_norm
                            self settings query library_name top_k
  = Some out ->
  let k := match top_k with
           | Some k => k
           | None => Config.top_k_results settings
           end in
  (0 <= k -> len out <= k)
  /\ Forall (fun text => exists row, In row (db self) /\ row_text row = text)
            out.
Proof.
  unfold retrieve_relevant_context, candidates.
  set (k := match top_k with
            | Some k => k
            | None => Config.top_k_results settings
            end).
  destruct (search np_dot np_linalg_norm (db self) _ (k * 2))
    as [results|] eqn:E; [|discriminate].
  intros H. injection H as <-. cbn zeta.
  set (texts := List.map (fun r => res_text (sc_result r))
                         (slice_to (rank_and_filter lower results query) k)).
  destruct (budget_loop_spec (max_tokens self) texts [] 0 eq_refl)
    as (taken & rest & Htexts & -> & _ & _).
  cbn [app fst]. split.
  - intros Hk.
    assert (Hlen : len texts <= k).
    { subst texts. unfold len. rewrite length_map.
      apply (slice_to_length _ _ k Hk). }
    rewrite Htexts in Hlen. unfold len in *. rewrite length_app in Hlen. lia.
  - apply Forall_forall. intros text Hin.
    assert (Hin' : In text texts).
    { rewrite Htexts. apply in_or_app. left. exact Hin. }
    subst texts. apply in_map_iff in Hin'.
    destruct Hin' as (sc & <- & Hsc).
    apply slice_to_incl in Hsc.
    unfold rank_and_filter in Hsc.
    eapply Permutation_in in Hsc; [|apply sort_desc_perm].
    apply in_map_iff in Hsc. destruct Hsc as (result & <- & Hres).
    cbn [sc_result].
    pose proof (search_from_rows _ _ _ _ _ _ E) as Hall.
    rewrite Forall_forall in Hall.
    destruct (Hall result Hres) as (row & Hrow & (_ & Htext & _)).
    exists row. split; [exact Hrow | symmetry; exact Htext].
Qed.

End RetrieveShape.

(* ================================================================== *)
(** * Properties of indexing *)
(* ================================================================== *)

Module IndexingSpec.
Import Py Float VectorDatabase Indexing.

(** The rows [_store_chunks] writes for chunks paired with embeddings,
    the first with id [next_id]. *)
Fixpoint stored_rows (next_id : Z) (chunks : list Chunk)
         (embeddings : list (list f64)) : list Row :=
  match chunks, embeddings with
  | chunk :: chunks', embedding :: embeddings' =>
      {| row_id := next_id;
         row_text := ck_text chunk;
         row_embedding := List.map to_f32 embedding;
         row_metadata := Some {| md_source := Some (ck_source chunk);
                                 md_type := Some (ck_type chunk) |} |}
        :: stored_rows (next_id + 1) chunks' embeddings'
  | _, _ => []
  end.

(** A page without content to chunk. *)
Definition blank_page (page : Agent.Page) : Prop :=
  Agent.page_content page = None \/ Agent.page_content page = Some [].

(** Nothing in the three sources yields a chunk. *)
Definition nothing_to_index (documentation : option Agent.CrawlData)
           (github_info : option Agent.GithubInfo)
           (code_examples : option (list str)) : Prop :=
  (documentation = None
   \/ exists d, documentation = Some d
                /\ Forall blank_page
                          (match Agent.crawl_results d with
                           | Some pages => pages | None => [] end))
  /\ (github_info = None
      \/ exists info, github_info = Some info
                      /\ (Agent.gh_readme info = None
                          \/ Agent.gh_readme info = Some []))
  /\ (code_examples = None \/ code_examples = Some []).

End IndexingSpec.

Section IndexingProperties.
Import Py Float VectorDatabase Chunker Indexing IndexingSpec StoreOps.

Variable embed_texts : list str -> list (list f64).

Lemma stored_rows_length (chunks : list Chunk) :
  forall next_id embeddings,
    len (stored_rows next_id chunks embeddings)
    = Z.min (len chunks) (len embeddings).
Proof.
  unfold len. induction chunks as [|c chunks IH];
    intros next_id [|e embeddings]; cbn [stored_rows List.length]; try lia.
  specialize (IH (next_id + 1) embeddings). lia.
Qed.

Lemma store_loop_rows (chunks : list Chunk) :
  forall table embeddings,
    Store.rows (store_loop table chunks embeddings)
    = (Store.rows table
         ++ stored_rows (Store.last_id table + 1) chunks embeddings)%list
    /\ Store.last_id (store_loop table chunks embeddings)
       = Store.last_id table
         + len (stored_rows (Store.last_id table + 1) chunks embeddings).
Proof.
  induction chunks as [|c chunks IH]; intros table [|e embeddings];
    cbn [store_loop stored_rows];
    try (rewrite app_nil_r; unfold len; cbn; split; [reflexivity | lia]).
  destruct (IH (fst (Store.insert table (ck_text c) e
                       (Some {| md_source := Some (ck_source c);
                                md_type := Some (ck_type c) |})))
               embeddings) as [Hr Hl].
  unfold Store.insert in *. cbn [fst Store.rows Store.last_id] in *.
  rewrite Hr, Hl. cbn [Store.stored_metadata].
  rewrite <- app_assoc. cbn [app].
  split; [reflexivity|]. unfold len. cbn [List.length]. lia.
Qed.

Lemma stored_rows_ids (chunks : list Chunk) :
  forall next_id embeddings,
    StronglySorted Z.lt
      (List.map row_id (stored_rows next_id chunks embeddings))
    /\ Forall (fun row => next_id <= row_id row
                          /\ row_id row
                             < next_id
                               + len (stored_rows next_id chunks embeddings))
              (stored_rows next_id chunks embeddings).
Proof.
  induction chunks as [|c chunks IH]; intros next_id [|e embeddings];
    cbn [stored_rows List.map];
    try (split; [apply SSorted_nil | apply Forall_nil]).
  destruct (IH (next_id + 1) embeddings) as [Hs Hb].
  assert (Hlen : len ({| row_id := next_id; row_text := ck_text c;
                         row_embedding := List.map to_f32 e;
                         row_metadata :=
                           Some {| md_source := Some (ck_source c);
                                   md_type := Some (ck_type c) |} |}
                        :: stored_rows (next_id + 1) chunks embeddings)
                 = 1 + len (stored_rows (next_id + 1) chunks embeddings)).
  { unfold len. cbn [List.length]. lia. }
  split.
  - constructor; [exact Hs|]. cbn [row_id].
    rewrite Forall_map. eapply Forall_impl; [|exact Hb].
    cbn beta. intros row H. lia.
  - rewrite Hlen. constructor.
    + cbn [row_id].
      pose proof (len_nonneg (stored_rows (next_id + 1) chunks embeddings)).
      lia.
    + eapply Forall_impl; [|exact Hb]. cbn beta. intros row H. lia.
Qed.

Lemma store_chunks_appends (table : Store.Table) (chunks : list Chunk) :
  well_formed table ->
  let table' := store_chunks embed_texts table chunks in
  let new := stored_rows (Store.last_id table + 1) chunks
                         (embed_texts (List.map ck_text chunks)) in
  Store.rows table' = (Store.rows table ++ new)%list
  /\ well_formed table'.
Proof.
  intros [Hs Hb]. cbn zeta. unfold store_chunks.
  destruct (store_loop_rows chunks table
              (embed_texts (List.map ck_text chunks))) as [Hr Hl].
  split; [exact Hr|].
  destruct (stored_rows_ids chunks (Store.last_id table + 1)
              (embed_texts (List.map ck_text chunks))) as [Hs' Hb'].
  unfold well_formed. rewrite Hr, Hl. split.
  - rewrite map_app.
    revert Hs Hb Hs' Hb'.
    generalize (stored_rows (Store.last_id table + 1) chunks
                  (embed_texts (List.map ck_text chunks))) as new.
    generalize (Store.rows table) as old.
    induction old as [|row old IH]; intros new Hs Hb Hs' Hb';
      cbn [List.map app]; [exact Hs'|].
    inversion Hs as [|? ? Hs1 Hall]; subst.
    inversion Hb as [|? ? Hrow Hb1]; subst.
    constructor; [apply IH; assumption|].
    apply Forall_app. split; [exact Hall|].
    rewrite Forall_map. eapply Forall_impl; [|exact Hb'].
    cbn beta. intros r H. lia.
  - apply Forall_app. split.
    + eapply Forall_impl; [|exact Hb]. cbn beta. intros row H.
      pose proof (len_nonneg (stored_rows (Store.last_id table + 1) chunks
                                (embed_texts (List.map ck_text chunks)))).
      lia.
    + eapply Forall_impl; [|exact Hb']. cbn beta. intros row H. lia.
Qed.

(** X11: [index_content] only appends: the rows that were in the table stay,
    unchanged and in place, followed by one new row for each pair of a
    chunk and an embedding; the table stays well-formed, and the logged
    number of chunks bounds the number of new rows. *)
Theorem index_content_appends (fuel : nat) (chunker : SemanticChunker)
        (table table' : Store.Table)
        (documentation : option Agent.CrawlData)
        (github_info : option Agent.GithubInfo)
        (code_examples : option (list str)) (n : Z) :
  well_formed table ->
  index_content embed_texts fuel chunker table documentation github_info
                code_examples = Some (table', n) ->
  well_formed table'
  /\ exists new,
      Store.rows table' = (Store.rows table ++ new)%list
      /\ len new <= n
      /\ Store.count table' = Store.count table + len new.
Proof.
  intros Hwf. unfold index_content.
  destruct (match documentation with
            | Some d => process_documentation fuel chunker d
            | None => Some []
            end) as [doc_chunks|]; [|discriminate].
  destruct (match github_info with
            | Some info => _
            | None => Some []
            end) as [readme_chunks|]; [|discriminate].
  set (all_chunks := (doc_chunks ++ readme_chunks ++ _)%list).
  intros H. injection H as <- <-.
  destruct (truthy all_chunks) eqn:Ht.
  - destruct (store_chunks_appends table all_chunks Hwf) as [Hr Hw].
    split; [exact Hw|]. eexists. split; [exact Hr|].
    split; [rewrite stored_rows_length; lia|].
    unfold Store.count. rewrite Hr. unfold len. rewrite length_app. lia.
  - split; [exact Hwf|]. exists []. rewrite app_nil_r.
    split; [reflexivity|]. unfold len. cbn [List.length]. split; lia.
Qed.

Lemma process_pages_blank (fuel : nat) (chunker : SemanticChunker)
      (pages : list Agent.Page) :
  Forall blank_page pages -> process_pages fuel chunker pages = Some [].
Proof.
  induction 1 as [|page pages [H | H] _ IH]; cbn [process_pages];
    [reflexivity| |]; rewrite H, IH; reflexivity.
Qed.

(** X12: with nothing to index (every source absent, empty, or without
    content) [index_content] returns, whatever the chunker and the fuel:
    the table is the one it was given and 0 chunks are logged. *)
Theorem index_content_nothing (fuel : nat) (chunker : SemanticChunker)
        (table : Store.Table)
        (documentation : option Agent.CrawlData)
        (github_info : option Agent.GithubInfo)
        (code_examples : option (list str)) :
  nothing_to_index documentation github_info code_examples ->
  index_content embed_texts fuel chunker table documentation github_info
                code_examples = Some (table, 0).
Proof.
  intros (Hd & Hg & He). unfold index_content.
  assert (Ed : match documentation with
               | Some d => process_documentation fuel chunker d
               | None => Some []
               end = Some []).
  { destruct Hd as [-> | (d & -> & Hp)]; [reflexivity|].
    apply process_pages_blank. exact Hp. }
  rewrite Ed.
  assert (Eg : match github_info with
               | Some info =>
                   match Agent.gh_readme info with
                   | Some (c :: readme) =>
                       process_readme fuel chunker (c :: readme)
                   | _ => Some []
                   end
               | None => Some []
               end = Some []).
  { destruct Hg as [-> | (info & -> & [-> | ->])]; reflexivity. }
  rewrite Eg.
  destruct He as [-> | ->]; reflexivity.
Qed.

Lemma process_examples_texts (examples : list str) :
  forall i, List.map ck_text (process_examples_from i examples) = examples.
Proof.
  induction examples as [|e examples IH]; intros i;
    cbn [process_examples_from List.map]; [reflexivity|].
  rewrite IH. reflexivity.
Qed.

Lemma stored_rows_examples (examples : list str) :
  forall i next_id embeddings,
    List.length embeddings = List.length examples ->
    List.map row_text
             (stored_rows next_id (process_examples_from i examples)
                          embeddings) = examples
    /\ Forall (fun row =>
                 exists source,
                   row_metadata row
                   = Some {| md_source := Some source;
                             md_type := Some ContextManager.CODE_EXAMPLE |})
              (stored_rows next_id (process_examples_from i examples)
                           embeddings).
Proof.
  induction examples as [|e examples IH]; intros i next_id [|emb embeddings] H;
    try discriminate; cbn [process_examples_from stored_rows List.map].
  - split; [reflexivity | constructor].
  - injection H as H.
    destruct (IH (i + 1) (next_id + 1) embeddings H) as [Ht Hm].
    split; [rewrite Ht; reflexivity|].
    constructor; [|exact Hm]. eexists. reflexivity.
Qed.

(** X13: code examples are stored as they are, one row per example and in
    order, tagged [code_example]: they are never chunked or stripped, so
    the call returns for any chunker and any fuel.  (The embedding
    service is taken to answer one vector per text.) *)
Theorem index_examples_verbatim (fuel : nat) (chunker : SemanticChunker)
        (table : Store.Table) (examples : list str) :
  List.length (embed_texts examples) = List.length examples ->
  exists table' new,
    index_content embed_texts fuel chunker table None None (Some examples)
    = Some (table', len examples)
    /\ Store.rows table' = (Store.rows table ++ new)%list
    /\ List.map row_text new = examples
    /\ Forall (fun row =>
                 exists source,
                   row_metadata row
                   = Some {| md_source := Some source;
                             md_type := Some ContextManager.CODE_EXAMPLE |})
              new.
Proof.
  intros Hlen. unfold index_content.
  destruct examples as [|e examples].
  - exists table, [].
    split; [reflexivity|]. split; [symmetry; apply app_nil_r|].
    split; [reflexivity | constructor].
  - cbn [app]. set (chunks := process_examples (e :: examples)).
    assert (Htexts : List.map ck_text chunks = e :: examples)
      by apply process_examples_texts.
    assert (Hn : len chunks = len (e :: examples)).
    { unfold len. rewrite <- Htexts. rewrite length_map. reflexivity. }
    replace (truthy chunks) with true by reflexivity.
    rewrite Hn.
    destruct (store_loop_rows chunks table (embed_texts (List.map ck_text chunks)))
      as [Hr _].
    eexists. eexists. split; [reflexivity|].
    split; [exact Hr|].
    rewrite Htexts. apply stored_rows_examples. exact Hlen.
Qed.

End IndexingProperties.

(* ================================================================== *)
(** * Properties of the helpers *)
(* ================================================================== *)

Section HelperProperties.
Import Py Helpers.

Lemma len_app {A} (a b : list A) : len (a ++ b) = len a + len b.
Proof. unfold len. rewrite length_app. lia. Qed.

(** X14: [truncate_text] with a [max_length] that is not negative returns the
    text itself when it fits, and otherwise its first [max_length]
    characters followed by three dots: the result is at most
    [max_length + 3] characters long, so it can be longer than
    [max_length], and longer than the text it shortens. *)
Theorem truncate_text_length (text : str) (max_length : Z) :
  0 <= max_length ->
  (len text <= max_length -> truncate_text text max_length = text)
  /\ (max_length < len text ->
      truncate_text text max_length
      = (firstn (Z.to_nat max_length) text ++ ELLIPSIS)%list
      /\ len (truncate_text text max_length) = max_length + 3)
  /\ len (truncate_text text max_length) <= max_length + 3.
Proof.
  intros Hmax. unfold truncate_text.
  assert (Hcut : max_length < len text ->
                 slice_to text max_length = firstn (Z.to_nat max_length) text
                 /\ len (slice_to text max_length ++ ELLIPSIS) = max_length + 3).
  { intros Hlt. unfold slice_to, clamp.
    destruct (Z.ltb_spec max_length 0); [lia|].
    rewrite Z.min_l by lia. split; [reflexivity|].
    rewrite len_app. unfold len at 1. rewrite length_firstn.
    unfold len in Hlt. change (len ELLIPSIS) with 3. lia. }
  destruct (Z.leb_spec (len text) max_length) as [Hfit | Hlong].
  - split; [reflexivity|]. split; [lia | lia].
  - destruct (Hcut Hlong) as [E1 E2].
    split; [lia|]. split; [|lia].
    intros _. rewrite E1 in *. split; [reflexivity | exact E2].
Qed.

(** The pieces for a list of contexts numbered from [i]. *)
Fixpoint pieces_from (i : Z) (contexts : list str) : list str :=
  match contexts with
  | [] => []
  | context :: rest => context_piece i context :: pieces_from (i + 1) rest
  end.

Lemma len_concat_app (a b : list str) :
  len (List.concat (a ++ b)) = len (List.concat a) + len (List.concat b).
Proof. rewrite concat_app. apply len_app. Qed.

Lemma format_loop_spec (max_length : Z) (contexts : list str) :
  forall (i : Z) (formatted : list str) (current_length : Z),
    current_length = len (List.concat formatted) ->
    exists taken rest : list str,
      contexts = (taken ++ rest)%list
      /\ format_loop max_length contexts i formatted current_length
         = (formatted ++ pieces_from i taken)%list
      /\ (taken = []
          \/ len (List.concat (formatted ++ pieces_from i taken))
             <= max_length)
      /\ (rest = []
          \/ exists context rest',
              rest = context :: rest'
              /\ max_length
                 < len (List.concat (formatted ++ pieces_from i taken))
                   + len (context_piece (i + len taken) context)).
Proof.
  induction contexts as [|context contexts IH];
    intros i formatted current Hcur; cbn [format_loop].
  - exists [], []. cbn [pieces_from]. rewrite !app_nil_r.
    split; [reflexivity|]. split; [reflexivity|].
    split; left; reflexivity.
  - destruct (Z.gtb_spec (current + len (context_piece i context)) max_length)
      as [Hno | Hfit].
    + exists [], (context :: contexts). cbn [pieces_from app].
      rewrite !app_nil_r.
      split; [reflexivity|]. split; [reflexivity|].
      split; [left; reflexivity|].
      right. exists context, contexts. split; [reflexivity|].
      unfold len at 3. cbn [List.length]. rewrite Z.add_0_r. lia.
    + destruct (IH (i + 1) (formatted ++ [context_piece i context])%list
                   (current + len (context_piece i context)))
        as (taken & rest & -> & Hloop & Hbound & Hstop).
      { rewrite len_concat_app. cbn [List.concat]. rewrite app_nil_r. lia. }
      exists (context :: taken), rest. cbn [pieces_from app].
      rewrite <- app_assoc in Hloop, Hbound, Hstop. cbn [app] in *.
      split; [reflexivity|]. split; [exact Hloop|].
      split.
      * right. destruct Hbound as [-> | H]; [|exact H].
        cbn [pieces_from]. rewrite len_concat_app. cbn [List.concat].
        rewrite app_nil_r. lia.
      * destruct Hstop as [-> | (c & rest' & -> & H)]; [left; reflexivity|].
        right. exists c, rest'. split; [reflexivity|].
        replace (i + len (context :: taken)) with (i + 1 + len taken);
          [exact H|].
        unfold len. cbn [List.length]. lia.
Qed.

(** X15: [format_context] with a [max_length] that is not negative returns at
    most [max_length] characters: the numbered pieces of a prefix of the
    contexts, which ends at the first piece that would not fit; later
    contexts are dropped even when their piece would fit. *)
Theorem format_context_within (contexts : list str) (max_length : Z) :
  0 <= max_length ->
  len (format_context contexts max_length) <= max_length
  /\ exists taken rest,
      contexts = (taken ++ rest)%list
      /\ format_context contexts max_length
         = List.concat (pieces_from 1 taken)
      /\ (rest = []
          \/ exists context rest',
              rest = context :: rest'
              /\ max_length
                 < len (List.concat (pieces_from 1 taken))
                   + len (context_piece (1 + len taken) context)).
Proof.
  intros Hmax. unfold format_context.
  destruct (format_loop_spec max_length contexts 1 [] 0 eq_refl)
    as (taken & rest & Hsplit & Hloop & Hbound & Hstop).
  cbn [app] in *. rewrite Hloop. split.
  - destruct Hbound as [-> | H]; [cbn; exact Hmax | exact H].
  - exists taken, rest. split; [exact Hsplit|]. split; [reflexivity|].
    exact Hstop.
Qed.

End HelperProperties.

(* ================================================================== *)
(** * Properties of the language-model client *)
(* ================================================================== *)

Section JsonSpan.
Import Py AzureClient.

Lemma find_index_spec (c : char) (s : str) :
  match find_index c s with
  | Some i => exists pre post,
                s = (pre ++ c :: post)%list
                /\ List.length pre = i /\ ~ In c pre
  | None => ~ In c s
  end.
Proof.
  induction s as [|x s IH]; cbn [find_index]; [intros []|].
  destruct (N.eqb_spec x c) as [-> | Hne].
  - exists [], s. repeat split. intros [].
  - destruct (find_index c s) as [i|].
    + destruct IH as (pre & post & -> & <- & Hpre).
      exists (x :: pre), post. repeat split.
      intros [E | H]; [contradiction | exact (Hpre H)].
    + intros [E | H]; [contradiction | exact (IH H)].
Qed.

Lemma last_index_spec (c : char) (s : str) :
  match last_index c s with
  | Some i => exists pre post,
                s = (pre ++ c :: post)%list
                /\ List.length pre = i /\ ~ In c post
  | None => ~ In c s
  end.
Proof.
  induction s as [|x s IH]; cbn [last_index]; [intros []|].
  destruct (last_index c s) as [i|].
  - destruct IH as (pre & post & -> & <- & Hpost).
    exists (x :: pre), post. repeat split. exact Hpost.
  - destruct (N.eqb_spec x c) as [-> | Hne].
    + exists [], s. repeat split. exact IH.
    + intros [E | H]; [contradiction | exact (IH H)].
Qed.

Lemma slice_whole {A} (l : list A) : slice l 0 (len l) = l.
Proof.
  unfold slice, clamp. pose proof (len_nonneg l).
  destruct (Z.ltb_spec (len l) 0); [lia|].
  cbn [Z.ltb Z.compare]. rewrite Z.min_id, Z.min_l by lia.
  cbn [Z.to_nat skipn]. rewrite Z.sub_0_r. unfold len.
  rewrite Nat2Z.id. apply firstn_all.
Qed.

(** A [{] that a [}] follows somewhere later. *)
Definition has_braces (response : str) : Prop :=
  exists a b c, response = (a ++ LBRACE :: b ++ RBRACE :: c)%list.

Lemma slice_middle (pre mid post : str) :
  slice (pre ++ mid ++ post) (len pre) (len pre + len mid) = mid.
Proof.
  unfold slice, clamp.
  pose proof (len_nonneg pre). pose proof (len_nonneg mid).
  pose proof (len_nonneg post).
  rewrite !len_app.
  destruct (Z.ltb_spec (len pre) 0); [lia|].
  destruct (Z.ltb_spec (len pre + len mid) 0); [lia|].
  rewrite !Z.min_l by lia.
  replace (len pre + len mid - len pre) with (len mid) by lia.
  unfold len. rewrite !Nat2Z.id.
  rewrite skipn_app, skipn_all, Nat.sub_diag. cbn [skipn app].
  rewrite firstn_app, firstn_all, Nat.sub_diag. cbn [firstn].
  apply app_nil_r.
Qed.

(** X16: [generate_with_json] finds something to parse exactly when the
    response holds a [{] with a [}] after it, and what it passes to
    [json.loads] is then the text from the first [{] to the last [}],
    both included; in every other case it answers the empty mapping
    without parsing. *)
Theorem json_span_braces (response : str) :
  match json_span response with
  | Some span =>
      exists pre mid post,
        response = (pre ++ span ++ post)%list
        /\ span = (LBRACE :: mid ++ [RBRACE])%list
        /\ ~ In LBRACE pre /\ ~ In RBRACE post
  | None => ~ has_braces response
  end.
Proof.
  unfold json_span, find, rfind.
  rewrite slice_whole.
  replace (clamp (len response) 0) with 0
    by (unfold clamp; pose proof (len_nonneg response); cbn; lia).
  pose proof (find_index_spec LBRACE response) as Hf.
  pose proof (last_index_spec RBRACE response) as Hl.
  destruct (find_index LBRACE response) as [i|].
  - destruct Hf as (pre & post & E1 & Hi & Hpre).
    destruct (last_index RBRACE response) as [j|].
    + destruct Hl as (pre2 & post2 & E2 & Hj & Hpost2).
      replace (Z.of_nat i >=? 0) with true
        by (symmetry; apply Z.geb_le; lia).
      cbn [andb].
      destruct (Z.gtb_spec (0 + Z.of_nat j + 1) (Z.of_nat i)) as [Hgt|Hle].
      * (* the last closing brace is after the first opening one *)
        assert (Hij : (i <= j)%nat) by lia.
        rewrite E1 in E2.
        apply app_eq_app in E2.
        destruct E2 as (m & [[Ea Eb] | [Ea Eb]]).
        -- (* pre = pre2 ++ m, so j <= i, hence m = [] and the braces clash *)
           assert (m = []).
           { destruct m as [|x m]; [reflexivity|].
             rewrite Ea, length_app in Hi. cbn [List.length] in Hi. lia. }
           subst m. cbn [app] in Eb. injection Eb as Eb _. discriminate.
        -- (* pre2 = pre ++ m *)
           destruct m as [|x m].
           ++ cbn [app] in Eb. injection Eb as Eb _. discriminate.
           ++ cbn [app] in Eb. injection Eb as <- ->.
              exists pre, m, post2.
              assert (Hresp : response
                              = (pre ++ (LBRACE :: m ++ [RBRACE]) ++ post2)%list).
              { rewrite E1. cbn [app]. rewrite <- app_assoc. reflexivity. }
              assert (Hspan : slice response (Z.of_nat i) (0 + Z.of_nat j + 1)
                              = (LBRACE :: m ++ [RBRACE])%list).
              { rewrite Hresp.
                replace (Z.of_nat i) with (len pre) by (unfold len; lia).
                replace (0 + Z.of_nat j + 1)
                  with (len pre + len (LBRACE :: m ++ [RBRACE])).
                { apply slice_middle. }
                rewrite Ea in Hj. rewrite length_app in Hj.
                unfold len. cbn [List.length] in *.
                rewrite length_app. cbn [List.length]. lia. }
              rewrite Hspan.
              split; [exact Hresp|].
              split; [reflexivity | split; assumption].
      * (* every closing brace is before the first opening one *)
        intros (a & b & c & E).
        rewrite E in E1, E2.
        assert (Hia : (i <= List.length a)%nat).
        { apply app_eq_app in E1.
          destruct E1 as (m & [[Ea Eb] | [Ea Eb]]).
          - rewrite Ea, length_app. lia.
          - destruct m as [|x m].
            + rewrite app_nil_r in Ea. subst pre. lia.
            + cbn [app] in Eb. injection Eb as <- _.
              exfalso. apply Hpre. rewrite Ea. apply in_or_app. right.
              left. reflexivity. }
        assert (Hjb : (List.length a + 1 + List.length b <= j)%nat).
        { change (a ++ LBRACE :: b ++ RBRACE :: c)%list
            with (a ++ [LBRACE] ++ b ++ RBRACE :: c)%list in E2.
          rewrite !app_assoc in E2.
          apply app_eq_app in E2.
          destruct E2 as (m & [[Ea Eb] | [Ea Eb]]).
          - destruct m as [|x m].
            + rewrite app_nil_r in Ea. rewrite <- Hj, <- Ea.
              rewrite !length_app. cbn [List.length]. lia.
            + cbn [app] in Eb. injection Eb as _ ->.
              exfalso. apply Hpost2. apply in_or_app. right.
              left. reflexivity.
          - rewrite <- Hj, Ea, !length_app. cbn [List.length]. lia. }
        lia.
    + (* no closing brace at all *)
      destruct ((Z.of_nat i >=? 0) && (-1 + 1 >? Z.of_nat i)) eqn:Hc.
      * apply andb_true_iff in Hc. destruct Hc as [_ Hc].
        apply Z.gtb_lt in Hc. lia.
      * intros (a & b & c & E). apply Hl. rewrite E.
        apply in_or_app. right. right. apply in_or_app. right.
        left. reflexivity.
  - (* no opening brace at all *)
    cbn [Z.geb Z.compare andb].
    intros (a & b & c & E). apply Hf. rewrite E.
    apply in_or_app. right. left. reflexivity.
Qed.

End JsonSpan.

Section JsonInstruction.
Import Py Agent AzureClient.

Variable Json : Type.
Variable empty_object : Json.
Variable json_loads : str -> option Json.
Variable generate : list BaseMessage -> str.

Local Abbreviation generate_with_json :=
  (generate_with_json empty_object json_loads generate).

Definition is_human (message : BaseMessage) : Prop :=
  exists c, message = Lang (HumanMessage c).

Lemma add_json_instruction_cons (m m' : BaseMessage)
      (rest : list BaseMessage) :
  add_json_instruction (m :: m' :: rest)
  = m :: add_json_instruction (m' :: rest).
Proof. destruct m as [[c|c|c]|c]; reflexivity. Qed.

Lemma add_json_instruction_snoc (init : list BaseMessage)
      (last : BaseMessage) :
  add_json_instruction (init ++ [last])
  = (init ++ [match last with
              | Lang (HumanMessage c) =>
                  Lang (HumanMessage (c ++ JSON_INSTRUCTION))
              | other => other
              end])%list.
Proof.
  induction init as [|m init IH].
  - cbn [app add_json_instruction].
    destruct last as [[c|c|c]|c]; reflexivity.
  - destruct init as [|m' init]; cbn [app] in *;
      rewrite add_json_instruction_cons, IH; reflexivity.
Qed.

(** X17: [generate_with_json] changes the caller's messages: a last message
    that is a [HumanMessage] has the JSON instruction appended to its
    content, so a second call on the same list sends the instruction
    twice; a last message of any other class, and every message before
    the last, is left as it was. *)
Theorem generate_with_json_changes_last_message
        (init : list BaseMessage) (last : BaseMessage) (c : str) :
  snd (generate_with_json (init ++ [Lang (HumanMessage c)]))
  = (init ++ [Lang (HumanMessage (c ++ JSON_INSTRUCTION))])%list
  /\ snd (generate_with_json
            (snd (generate_with_json (init ++ [Lang (HumanMessage c)]))))
     = (init ++ [Lang (HumanMessage
                         (c ++ JSON_INSTRUCTION ++ JSON_INSTRUCTION))])%list
  /\ (~ is_human last ->
      snd (generate_with_json (init ++ [last])) = (init ++ [last])%list)
  /\ snd (generate_with_json []) = [].
Proof.
  unfold AzureClient.generate_with_json. cbn [snd].
  rewrite !add_json_instruction_snoc, <- app_assoc.
  repeat apply conj; try reflexivity.
  intros Hlast.
  destruct last as [[x|x|x]|x]; try reflexivity.
  exfalso. apply Hlast. exists x. reflexivity.
Qed.

End JsonInstruction.

(* ================================================================== *)
(** * Properties of the tool registry *)
(* ================================================================== *)

Section ToolRegistry.
Import Py MCPServer.

Lemma str_eqb_refl (a : str) : str_eqb a a = true.
Proof. apply str_eqb_spec. reflexivity. Qed.

Lemma dict_set_get (tools : Tools) (key : str) (tool : Tool) (k : str) :
  get_tool (dict_set tools key tool) k
  = if str_eqb key k then Some tool else get_tool tools k.
Proof.
  induction tools as [|[k0 t0] tools IH]; cbn [dict_set get_tool].
  - reflexivity.
  - destruct (str_eqb k0 key) eqn:E0.
    + apply str_eqb_spec in E0. subst k0. cbn [get_tool].
      destruct (str_eqb key k); reflexivity.
    + cbn [get_tool]. rewrite IH.
      destruct (str_eqb k0 k) eqn:E1; [|reflexivity].
      apply str_eqb_spec in E1. subst k0.
      destruct (str_eqb key k) eqn:E2; [|reflexivity].
      apply str_eqb_spec in E2. subst k.
      rewrite str_eqb_refl in E0. discriminate.
Qed.

Lemma dict_set_new (tools : Tools) (key : str) (tool : Tool) :
  get_tool tools key = None ->
  dict_set tools key tool = (tools ++ [(key, tool)])%list.
Proof.
  induction tools as [|[k0 t0] tools IH]; cbn [dict_set get_tool app];
    [reflexivity|].
  destruct (str_eqb k0 key); [discriminate|].
  intros H. rewrite (IH H). reflexivity.
Qed.

Lemma dict_set_keys (tools : Tools) (key : str) (tool : Tool) :
  get_tool tools key <> None ->
  List.map fst (dict_set tools key tool) = List.map fst tools.
Proof.
  induction tools as [|[k0 t0] tools IH]; cbn [dict_set get_tool].
  - intros H. contradiction.
  - destruct (str_eqb k0 key); [reflexivity|].
    intros H. cbn [List.map fst]. rewrite (IH H). reflexivity.
Qed.

(** X18: the registry answers [get_tool] with the tool last registered under
    that name and leaves every other name's answer as it was; a tool with
    a new name is listed after the ones there, and registering a name
    again replaces the tool where it stands, the names listed staying the
    same. *)
Theorem register_tool_get_tool (tools : Tools) (tool : Tool) :
  get_tool (register_tool tools tool) (name tool) = Some tool
  /\ (forall key, key <> name tool ->
        get_tool (register_tool tools tool) key = get_tool tools key)
  /\ (get_tool tools (name tool) = None ->
      list_tools (register_tool tools tool)
      = (list_tools tools ++ [(name tool, description tool)])%list)
  /\ (get_tool tools (name tool) <> None ->
      List.map fst (register_tool tools tool) = List.map fst tools).
Proof.
  unfold register_tool. repeat apply conj.
  - rewrite dict_set_get, str_eqb_refl. reflexivity.
  - intros key Hkey. rewrite dict_set_get.
    destruct (str_eqb (name tool) key) eqn:E; [|reflexivity].
    apply str_eqb_spec in E. congruence.
  - intros H. rewrite (dict_set_new _ _ _ H). unfold list_tools.
    rewrite List.map_app. reflexivity.
  - apply dict_set_keys.
Qed.

End ToolRegistry.

(* ================================================================== *)
(** * Properties of a run of the agent *)
(* ================================================================== *)

Section GenerateCodeResult.
Import Py Float Agent.

Variable llm_generate : list Message -> str.
Variable crawler_search : str -> str -> list Page.
Variable crawler_crawl : str -> str -> CrawlData.
Variable github_analyze : str -> GithubInfo.
Variable extract : option CrawlData -> option GithubInfo -> list str.
Variable retrieve_context : str -> str -> list str.
Variable lower : str -> str.
Variable add_messages : list Message -> list Message -> list Message.

Local Abbreviation after_node :=
  (after_node llm_generate crawler_search crawler_crawl github_analyze
              extract retrieve_context lower add_messages).
Local Abbreviation invoke :=
  (invoke llm_generate crawler_search crawler_crawl github_analyze
          extract retrieve_context lower add_messages).

(** The keys [generate_code] reads of the final state, and the two the
    stages route on. *)
Record summary := {
  s_library : str;
  s_task : str;
  s_code : option str;
  s_explanation : option str;
  s_context : option (list str);
  s_count : option Z
}.

Definition summarize (state : AgentState) : summary :=
  {| s_library := library_name state; s_task := task state;
     s_code := generated_code state;
     s_explanation := Agent.explanation state;
     s_context := relevant_context state;
     s_count := iteration_count state |}.

(** Every stage but [manage_context], [generate_code] and
    [validate_code] leaves the keys of the result as they are. *)
Lemma gathering_stage_summary (n : Node) (state : AgentState) :
  n = AnalyzeQuery \/ n = SearchDocumentation \/ n = CrawlDocumentation
  \/ n = AnalyzeGithub \/ n = ExtractExamplesNode ->
  summarize (after_node n state) = summarize state.
Proof.
  intros [-> | [-> | [-> | [-> | ->]]]]; try reflexivity.
  unfold Agent.after_node. cbn [node_function].
  unfold crawl_documentation.
  destruct (search_results state) as [[|top rest]|]; try reflexivity.
  destruct (page_url top) as [[|c url]|]; reflexivity.
Qed.

Lemma invoke_step (fuel : nat) (n : Node) (state : AgentState) :
  iteration_count state = Some 0 ->
  invoke (S fuel) n state
  = match successor n with
    | Goto n' => invoke fuel n' (after_node n state)
    | END => Some (after_node n state)
    end.
Proof.
  intros H. cbn [Agent.invoke].
  rewrite (route_after_node llm_generate crawler_search crawler_crawl
             github_analyze extract retrieve_context lower add_messages
             n state H).
  reflexivity.
Qed.


End GenerateCodeResult.

(* ================================================================== *)
(** * Properties of the example extractor *)
(* ================================================================== *)

Module ExtractSpec.
Import Py Agent.

(** A text [extract] reads: the content of a crawled page or the
    README. *)
Definition source_text (crawled_data : option CrawlData)
           (github_info : option GithubInfo) (text : str) : Prop :=
  (exists data results page,
      crawled_data = Some data /\ crawl_results data = Some results
      /\ In page results /\ page_content page = Some text)
  \/ (exists info, github_info = Some info /\ gh_readme info = Some text).

End ExtractSpec.

Section ExtractProperties.
Import Py Agent CodeExampleExtractor ExtractSpec.

Lemma occurs_in_refl (s : str) : occurs_in s s.
Proof. exists [], []. cbn [app]. symmetry. apply app_nil_r. Qed.

Lemma occurs_in_trans (a b c : str) :
  occurs_in a b -> occurs_in b c -> occurs_in a c.
Proof.
  intros (p1 & q1 & ->) (p2 & q2 & ->).
  exists (p2 ++ p1)%list, (q1 ++ q2)%list.
  rewrite <- !app_assoc. reflexivity.
Qed.

Lemma occurs_in_suffix (a pre s : str) :
  occurs_in a s -> occurs_in a (pre ++ s).
Proof.
  intros (p & q & ->). exists (pre ++ p)%list, q.
  rewrite <- app_assoc. reflexivity.
Qed.

Lemma strip_occurs (s : str) : occurs_in (strip s) s.
Proof.
  unfold strip, rstrip.
  destruct (lstrip_decompose s) as (pre & E & _).
  destruct (lstrip_decompose (rev (lstrip s))) as (post & E' & _).
  exists pre, (rev post).
  rewrite <- rev_app_distr, <- E', rev_involutive. exact E.
Qed.

Lemma skipn_prefix (p post : str) :
  skipn (List.length p) (p ++ post) = post.
Proof. induction p as [|x p IH]; [reflexivity | exact IH]. Qed.

Lemma is_prefix_skipn (p s : str) :
  is_prefix p s = true -> s = (p ++ skipn (List.length p) s)%list.
Proof.
  intros H. apply is_prefix_spec in H. destruct H as [post ->].
  rewrite skipn_prefix. reflexivity.
Qed.

Lemma split_at_first_spec (pat s before after : str) :
  split_at_first pat s = Some (before, after) ->
  s = (before ++ pat ++ after)%list.
Proof.
  revert before after. induction s as [|c s IH]; intros before after.
  - cbn [split_at_first]. destruct (is_prefix pat []) eqn:E; [|discriminate].
    intros H. injection H as <- <-. apply (is_prefix_skipn _ _ E).
  - cbn [split_at_first]. destruct (is_prefix pat (c :: s)) eqn:E.
    + intros H. injection H as <- <-. apply (is_prefix_skipn _ _ E).
    + destruct (split_at_first pat s) as [[b a]|]; [|discriminate].
      intros H. injection H as <- <-. rewrite (IH b a eq_refl).
      reflexivity.
Qed.

(** What an opening pattern leaves is the rest of the text. *)
Definition opens_suffix (open : str -> option str) : Prop :=
  forall s body, open s = Some body -> exists pre, s = (pre ++ body)%list.

Lemma markdown_open_suffix : opens_suffix markdown_open.
Proof.
  intros s body. unfold markdown_open.
  destruct (is_prefix (FENCE ++ codes "python" ++ [NL]) s) eqn:E1.
  - intros H. injection H as <-.
    exists (FENCE ++ codes "python" ++ [NL])%list.
    apply (is_prefix_skipn _ _ E1).
  - destruct (is_prefix (FENCE ++ [NL]) s) eqn:E2; [|discriminate].
    intros H. injection H as <-.
    exists (FENCE ++ [NL])%list.
    apply (is_prefix_skipn _ _ E2).
Qed.

Lemma html_open_suffix : opens_suffix html_open.
Proof.
  intros s body. unfold html_open.
  destruct (is_prefix CODE_OPEN s) eqn:E1; [|discriminate].
  apply is_prefix_spec in E1. destruct E1 as [post ->].
  change (skipn 5 (CODE_OPEN ++ post)) with post.
  destruct (split_at_first [GT] post) as [[b a]|] eqn:E; [|discriminate].
  intros H. injection H as <-.
  apply split_at_first_spec in E. subst post.
  exists (CODE_OPEN ++ b ++ [GT])%list.
  rewrite <- !app_assoc. reflexivity.
Qed.

Lemma findall_from_occurs (open : str -> option str) (close : str)
      (fuel : nat) (s group : str) :
  opens_suffix open ->
  In group (findall_from open close fuel s) -> occurs_in group s.
Proof.
  intros Hopen. revert s.
  induction fuel as [|fuel IH]; intros s; cbn [findall_from];
    [intros []|].
  destruct s as [|c rest]; [intros []|].
  destruct (open (c :: rest)) as [body|] eqn:Eo.
  - destruct (Hopen _ _ Eo) as [pre Epre].
    destruct (split_at_first close body) as [[g after]|] eqn:Es.
    + apply split_at_first_spec in Es.
      intros [<- | Hin].
      * rewrite Epre, Es. apply occurs_in_suffix.
        exists [], (close ++ after)%list. reflexivity.
      * rewrite Epre, Es. apply occurs_in_suffix.
        specialize (IH _ Hin). destruct IH as (p & q & ->).
        exists (g ++ close ++ p)%list, q.
        rewrite <- !app_assoc. reflexivity.
    + intros Hin. apply (occurs_in_suffix _ [c]). apply IH. exact Hin.
  - intros Hin. apply (occurs_in_suffix _ [c]). apply IH. exact Hin.
Qed.

Lemma extract_from_markdown_sound (text ex : str) :
  In ex (extract_from_markdown text) ->
  strip ex = ex /\ occurs_in ex text.
Proof.
  unfold extract_from_markdown, findall. intros H.
  apply in_map_iff in H. destruct H as (m & <- & Hm).
  apply filter_In in Hm. destruct Hm as [Hm _].
  split.
  - apply stripped_fixed, strip_stripped.
  - apply (occurs_in_trans _ m); [apply strip_occurs|].
    apply (findall_from_occurs _ _ _ _ _ markdown_open_suffix Hm).
Qed.

Lemma extract_from_html_sound (text ex : str) :
  In ex (extract_from_html text) ->
  strip ex = ex /\ occurs_in ex text.
Proof.
  unfold extract_from_html, findall. intros H.
  apply filter_In in H. destruct H as [H _].
  apply in_map_iff in H. destruct H as (m & <- & Hm).
  split.
  - apply stripped_fixed, strip_stripped.
  - apply (occurs_in_trans _ m); [apply strip_occurs|].
    apply (findall_from_occurs _ _ _ _ _ html_open_suffix Hm).
Qed.

Lemma NoDup_filter {A} (f : A -> bool) (l : list A) :
  NoDup l -> NoDup (List.filter f l).
Proof.
  induction 1 as [|x l Hx Hl IH]; cbn [List.filter]; [constructor|].
  destruct (f x); [|exact IH].
  constructor; [|exact IH].
  intros Hin. apply filter_In in Hin. apply Hx, Hin.
Qed.

Variable list_of_set : list str -> list str.
Hypothesis list_of_set_distinct : forall l, NoDup (list_of_set l).
Hypothesis list_of_set_members :
  forall l x, In x (list_of_set l) <-> In x l.

(** X20: whatever order the set yields, the examples [extract] returns are
    pairwise different, each longer than 50 characters, each without
    white space at either end, and each a piece of a crawled page's
    content or of the README. *)
Theorem extract_examples_sound (crawled_data : option CrawlData)
        (github_info : option GithubInfo) :
  let examples := extract list_of_set crawled_data github_info in
  NoDup examples
  /\ forall ex, In ex examples ->
       50 < len ex /\ strip ex = ex
       /\ exists text,
            source_text crawled_data github_info text
            /\ occurs_in ex text.
Proof.
  unfold extract. split.
  - apply NoDup_filter, list_of_set_distinct.
  - intros ex Hex. apply filter_In in Hex. destruct Hex as [Hin Hlen].
    apply Z.gtb_lt in Hlen. split; [exact Hlen|].
    apply (proj1 (list_of_set_members _ _)) in Hin.
    apply in_app_or in Hin. destruct Hin as [Hdoc | Hreadme].
    + destruct crawled_data as [data|]; [|destruct Hdoc].
      destruct (crawl_results data) as [results|] eqn:Er; [|destruct Hdoc].
      apply in_flat_map in Hdoc. destruct Hdoc as (page & Hpage & Hin).
      destruct (page_content page) as [content|] eqn:Ec.
      * assert (Hs : strip ex = ex /\ occurs_in ex content).
        { apply in_app_or in Hin. destruct Hin as [Hin | Hin].
          - apply extract_from_markdown_sound, Hin.
          - apply extract_from_html_sound, Hin. }
        destruct Hs as [Hs Ho]. split; [exact Hs|].
        exists content. split; [|exact Ho].
        left. exists data, results, page. auto.
      * destruct Hin.
    + destruct github_info as [info|]; [|destruct Hreadme].
      destruct (gh_readme info) as [readme|] eqn:Eg; [|destruct Hreadme].
      destruct (truthy readme); [|destruct Hreadme].
      destruct (extract_from_markdown_sound _ _ Hreadme) as [Hs Ho].
      split; [exact Hs|]. exists readme. split; [|exact Ho].
      right. exists info. auto.
Qed.

End ExtractProperties.

Section FencedBlocks.
Import Py Agent CodeExampleExtractor ExtractSpec.

Definition BACKTICK : char := 96%N.

Lemma split_at_first_length (pat s before after : str) :
  split_at_first pat s = Some (before, after) ->
  (List.length after <= List.length s)%nat.
Proof.
  intros H. apply split_at_first_spec in H. subst s.
  rewrite !length_app. lia.
Qed.

Lemma findall_from_fuel (open : str -> option str) (close : str) :
  (forall s body, open s = Some body ->
                  (List.length body < List.length s)%nat) ->
  forall fuel1 fuel2 s,
    (List.length s < fuel1)%nat -> (List.length s < fuel2)%nat ->
    findall_from open close fuel1 s = findall_from open close fuel2 s.
Proof.
  intros Hopen. induction fuel1 as [|fuel1 IH]; intros fuel2 s H1 H2;
    [lia|].
  destruct fuel2 as [|fuel2]; [lia|].
  cbn [findall_from]. destruct s as [|c rest]; [reflexivity|].
  cbn [List.length] in H1, H2.
  destruct (open (c :: rest)) as [body|] eqn:Eo.
  - specialize (Hopen _ _ Eo). cbn [List.length] in Hopen.
    destruct (split_at_first close body) as [[g after]|] eqn:Es.
    + apply split_at_first_length in Es.
      f_equal. apply IH; lia.
    + apply IH; lia.
  - apply IH; lia.
Qed.

Lemma markdown_open_shorter (s body : str) :
  markdown_open s = Some body -> (List.length body < List.length s)%nat.
Proof.
  unfold markdown_open.
  destruct (is_prefix (FENCE ++ codes "python" ++ [NL]) s) eqn:E1.
  - intros H. injection H as <-.
    rewrite (is_prefix_skipn _ _ E1) at 2. rewrite length_app.
    cbn [List.length FENCE codes app]. cbn. lia.
  - destruct (is_prefix (FENCE ++ [NL]) s) eqn:E2; [|discriminate].
    intros H. injection H as <-.
    rewrite (is_prefix_skipn _ _ E2) at 2. rewrite length_app.
    cbn. lia.
Qed.

Lemma split_at_first_fence (body rest : str) :
  ~ In BACKTICK body ->
  split_at_first FENCE (body ++ FENCE ++ rest) = Some (body, rest).
Proof.
  induction body as [|c body IH]; intros Hbody.
  - cbn [app]. destruct rest; reflexivity.
  - assert (Hc : (BACKTICK =? c)%N = false).
    { apply N.eqb_neq. intros E. apply Hbody. left. symmetry. exact E. }
    cbn [app split_at_first].
    change (is_prefix FENCE (c :: body ++ FENCE ++ rest))
      with ((BACKTICK =? c)%N
            && is_prefix [BACKTICK; BACKTICK] (body ++ FENCE ++ rest)).
    rewrite Hc. cbn [andb]. cbn [app] in IH. rewrite IH; [reflexivity|].
    intros H. apply Hbody. right. exact H.
Qed.

(** X21: a fenced block at the start of a text, tagged [python] or untagged,
    whose body holds no backquote, is extracted with the white space at
    its ends removed, unless nothing else is in it; the blocks that
    follow are those of the text behind the closing fence. *)
Theorem extract_from_markdown_leading_block (tag body rest : str) :
  tag = [] \/ tag = codes "python" ->
  ~ In BACKTICK body ->
  extract_from_markdown (FENCE ++ tag ++ [NL] ++ body ++ FENCE ++ rest)
  = ((if truthy (strip body) then [strip body] else [])
       ++ extract_from_markdown rest)%list.
Proof.
  intros Htag Hbody.
  assert (Hfind :
            findall markdown_open FENCE
                    (FENCE ++ tag ++ [NL] ++ body ++ FENCE ++ rest)
            = body :: findall markdown_open FENCE rest).
  { unfold findall.
    assert (Hopen : markdown_open
                      (FENCE ++ tag ++ [NL] ++ body ++ FENCE ++ rest)
                    = Some (body ++ FENCE ++ rest)%list).
    { destruct Htag as [-> | ->]; reflexivity. }
    assert (Hlen : (List.length rest
                    < List.length
                        (FENCE ++ tag ++ [NL] ++ body ++ FENCE ++ rest))%nat).
    { rewrite !length_app. cbn [List.length FENCE]. cbn. lia. }
    remember (FENCE ++ tag ++ [NL] ++ body ++ FENCE ++ rest)%list
      as text eqn:Etext.
    destruct text as [|c text'].
    - destruct Htag as [-> | ->]; discriminate.
    - change (findall_from markdown_open FENCE
                           (S (List.length (c :: text'))) (c :: text'))
        with (match (match markdown_open (c :: text') with
                     | Some body => split_at_first FENCE body
                     | None => None
                     end) with
              | Some (group, after) =>
                  group :: findall_from markdown_open FENCE
                                        (List.length (c :: text')) after
              | None => findall_from markdown_open FENCE
                                     (List.length (c :: text')) text'
              end).
      rewrite Hopen, (split_at_first_fence _ _ Hbody). f_equal.
      apply (findall_from_fuel _ _ markdown_open_shorter); lia. }
  unfold extract_from_markdown. rewrite Hfind.
  cbn [List.filter]. destruct (truthy (strip body)); reflexivity.
Qed.

End FencedBlocks.

(* ================================================================== *)
(** * Properties of [clean_code] and [extract_urls] *)
(* ================================================================== *)

Section CleanCodeProperties.
Import Py CleanCode.

Local Abbreviation B := 96%N.

(** ** Removing the fences *)

Lemma fence_prefix (c : char) (s : str) :
  is_prefix FENCE (c :: s) = ((B =? c)%N && is_prefix [B; B] s).
Proof. reflexivity. Qed.

Lemma contains_cons (needle : str) (c : char) (s : str) :
  contains needle (c :: s)
  = (is_prefix needle (c :: s) || contains needle s).
Proof. reflexivity. Qed.

Lemma remove_fences_plain (fuel : nat) (c : char) (rest : str) :
  is_prefix FENCE (c :: rest) = false ->
  remove_fences FENCE (S fuel) (c :: rest)
  = c :: remove_fences FENCE fuel rest.
Proof. intros H. cbn [remove_fences]. rewrite H. reflexivity. Qed.

(** Text that does not start with two backquotes does not start with
    them after the fences are removed either. *)
Lemma remove_fences_head (fuel : nat) (s : str) :
  (List.length s < fuel)%nat ->
  is_prefix [B; B] s = false ->
  is_prefix [B; B] (remove_fences FENCE fuel s) = false.
Proof.
  intros Hfuel Hs.
  destruct fuel as [|fuel]; [lia|].
  destruct s as [|c rest]; [reflexivity|].
  destruct (N.eqb_spec B c) as [<- | Hc].
  - (* one backquote, then something else *)
    destruct rest as [|d rest].
    + destruct fuel; reflexivity.
    + assert (Hd : (B =? d)%N = false).
      { cbn [is_prefix] in Hs. rewrite N.eqb_refl in Hs. cbn [andb] in Hs.
        destruct (B =? d)%N; [discriminate | reflexivity]. }
      rewrite remove_fences_plain
        by (rewrite fence_prefix; cbn [is_prefix]; rewrite Hd;
            reflexivity).
      destruct fuel as [|fuel]; [cbn [List.length] in Hfuel; lia|].
      rewrite remove_fences_plain
        by (rewrite fence_prefix, Hd; reflexivity).
      cbn [is_prefix]. rewrite Hd. reflexivity.
  - assert (Hc' : (B =? c)%N = false) by (apply N.eqb_neq; exact Hc).
    rewrite remove_fences_plain by (rewrite fence_prefix, Hc'; reflexivity).
    cbn [is_prefix]. rewrite Hc'. reflexivity.
Qed.

Lemma skipn_length_le {A} (n : nat) (l : list A) :
  (List.length (skipn n l) <= List.length l)%nat.
Proof. rewrite length_skipn. lia. Qed.

(** What [re.sub] leaves holds no fence. *)
Lemma remove_fences_free (fuel : nat) (s : str) :
  (List.length s < fuel)%nat ->
  contains FENCE (remove_fences FENCE fuel s) = false.
Proof.
  revert s. induction fuel as [|fuel IH]; intros s Hfuel; [lia|].
  destruct s as [|c rest]; [reflexivity|].
  cbn [remove_fences]. cbn [List.length] in Hfuel.
  destruct (is_prefix FENCE (c :: rest)) eqn:Ep.
  - apply IH.
    pose proof (skipn_length_le (List.length FENCE) (c :: rest)) as Hle.
    assert (Hlt : (List.length (skipn (List.length FENCE) (c :: rest))
                   < List.length (c :: rest))%nat).
    { rewrite length_skipn. cbn [List.length FENCE codes]. cbn. lia. }
    cbn [List.length] in Hlt.
    destruct (skipn (List.length FENCE) (c :: rest)) as [|n after];
      [cbn [List.length]; lia|].
    cbn [List.length] in Hlt.
    destruct (n =? NL)%N; cbn [List.length]; lia.
  - rewrite contains_cons, (IH rest) by lia.
    rewrite orb_false_r, fence_prefix.
    rewrite fence_prefix in Ep.
    destruct (B =? c)%N; [|reflexivity]. cbn [andb] in *.
    apply remove_fences_head; [lia | exact Ep].
Qed.

(** Text without a fence is left as it is, by each of the two
    patterns. *)
Lemma remove_fences_nothing (fence : str) (fuel : nat) (s : str) :
  is_prefix FENCE fence = true ->
  contains FENCE s = false ->
  (List.length s < fuel)%nat ->
  remove_fences fence fuel s = s.
Proof.
  intros Hfence. revert fuel.
  induction s as [|c rest IH]; intros fuel Hs Hfuel.
  - destruct fuel; reflexivity.
  - destruct fuel as [|fuel]; [lia|].
    rewrite contains_cons in Hs. apply orb_false_iff in Hs.
    destruct Hs as [Hp Hrest].
    cbn [remove_fences].
    destruct (is_prefix fence (c :: rest)) eqn:Ep.
    + exfalso.
      apply is_prefix_spec in Ep. destruct Ep as [post Ep].
      apply is_prefix_spec in Hfence. destruct Hfence as [post' Hfence].
      assert (is_prefix FENCE (c :: rest) = true) as Hyes.
      { apply is_prefix_spec. exists (post' ++ post)%list.
        rewrite Ep, Hfence, <- app_assoc. reflexivity. }
      congruence.
    + f_equal. apply IH; [exact Hrest|]. cbn [List.length] in Hfuel. lia.
Qed.

(** ** Lines *)

Definition no_newline (line : str) : Prop := ~ In NL line.

Lemma split_lines_nonempty (s : str) : split_lines s <> [].
Proof.
  destruct s as [|c rest]; cbn [split_lines]; [discriminate|].
  destruct (c =? NL)%N; [discriminate|].
  destruct (split_lines rest); discriminate.
Qed.

Lemma join_cons (sep p : str) (ps : list str) :
  ps <> [] -> join sep (p :: ps) = (p ++ sep ++ join sep ps)%list.
Proof. destruct ps; [congruence | reflexivity]. Qed.

Lemma join_split_lines (s : str) : join [NL] (split_lines s) = s.
Proof.
  induction s as [|c rest IH]; [reflexivity|].
  cbn [split_lines]. pose proof (split_lines_nonempty rest) as Hne.
  destruct (N.eqb_spec c NL) as [-> | Hc].
  - rewrite join_cons by exact Hne. rewrite IH. reflexivity.
  - destruct (split_lines rest) as [|line lines]; [congruence|].
    destruct lines as [|l2 lines].
    + cbn [join] in *. rewrite IH. reflexivity.
    + rewrite <- IH. rewrite !join_cons by discriminate. reflexivity.
Qed.

Lemma split_lines_no_newline (s : str) :
  Forall no_newline (split_lines s).
Proof.
  induction s as [|c rest IH]; cbn [split_lines].
  - constructor; [intros [] | constructor].
  - destruct (N.eqb_spec c NL) as [-> | Hc].
    + constructor; [intros [] | exact IH].
    + destruct (split_lines rest) as [|line lines].
      * constructor; [|constructor].
        intros [E | []]. congruence.
      * inversion IH as [|? ? Hline Hlines]; subst.
        constructor; [|exact Hlines].
        intros [E | Hin]; [congruence | exact (Hline Hin)].
Qed.

Lemma split_lines_app (line rest : str) :
  no_newline line ->
  split_lines (line ++ NL :: rest) = line :: split_lines rest.
Proof.
  induction line as [|c line IH]; intros Hline.
  - reflexivity.
  - cbn [app split_lines].
    destruct (N.eqb_spec c NL) as [-> | Hc].
    + exfalso. apply Hline. left. reflexivity.
    + rewrite IH; [reflexivity|].
      intros Hin. apply Hline. right. exact Hin.
Qed.

Lemma split_lines_single (line : str) :
  no_newline line -> split_lines line = [line].
Proof.
  induction line as [|c line IH]; intros Hline; [reflexivity|].
  cbn [split_lines].
  destruct (N.eqb_spec c NL) as [-> | Hc].
  - exfalso. apply Hline. left. reflexivity.
  - rewrite IH; [reflexivity|].
    intros Hin. apply Hline. right. exact Hin.
Qed.

(** Splitting undoes joining. *)
Lemma split_lines_join (lines : list str) :
  lines <> [] -> Forall no_newline lines ->
  split_lines (join [NL] lines) = lines.
Proof.
  induction lines as [|line lines IH]; [congruence|].
  intros _ Hall. inversion Hall as [|? ? Hline Hlines]; subst.
  destruct lines as [|l2 lines].
  - apply split_lines_single, Hline.
  - rewrite join_cons by discriminate. cbn [app].
    rewrite split_lines_app by exact Hline.
    rewrite IH; [reflexivity | discriminate | exact Hlines].
Qed.

Lemma is_prefix_before_newline (p u rest : str) :
  no_newline p -> p <> [] ->
  is_prefix p (u ++ NL :: rest) = is_prefix p u.
Proof.
  revert u. induction p as [|x p IH]; intros u Hp Hne; [congruence|].
  destruct u as [|y u].
  - cbn [app is_prefix].
    destruct (N.eqb_spec x NL) as [-> | Hx]; [|reflexivity].
    exfalso. apply Hp. left. reflexivity.
  - cbn [app is_prefix]. destruct p as [|x' p].
    + reflexivity.
    + rewrite IH; [reflexivity | | discriminate].
      intros Hin. apply Hp. right. exact Hin.
Qed.

Lemma fence_no_newline : no_newline FENCE.
Proof. intros H. cbn in H. intuition discriminate. Qed.

Lemma contains_across_newline (a b : str) :
  contains FENCE (a ++ NL :: b) = (contains FENCE a || contains FENCE b).
Proof.
  induction a as [|x a IH].
  - reflexivity.
  - cbn [app]. rewrite !contains_cons, IH.
    change (x :: a ++ NL :: b) with ((x :: a) ++ NL :: b)%list.
    rewrite is_prefix_before_newline
      by (exact fence_no_newline || discriminate).
    rewrite orb_assoc. reflexivity.
Qed.

Lemma contains_join (lines : list str) :
  contains FENCE (join [NL] lines) = existsb (contains FENCE) lines.
Proof.
  induction lines as [|line lines IH]; [reflexivity|].
  destruct lines as [|l2 lines].
  - cbn [join existsb]. rewrite orb_false_r. reflexivity.
  - rewrite join_cons by discriminate. cbn [app].
    rewrite contains_across_newline, IH. reflexivity.
Qed.

Lemma rstrip_in (s : str) (c : char) : In c (rstrip s) -> In c s.
Proof.
  intros H. destruct (rstrip_prefix s) as [post E]. rewrite E.
  apply in_or_app. left. exact H.
Qed.

Lemma rstrip_idempotent (s : str) : rstrip (rstrip s) = rstrip s.
Proof.
  unfold rstrip. rewrite rev_involutive.
  destruct (lstrip_head (rev s)) as [E | H].
  - rewrite E. reflexivity.
  - rewrite (lstrip_visible _ H). reflexivity.
Qed.

Lemma contains_prefix (a post : str) :
  contains FENCE (a ++ post) = false -> contains FENCE a = false.
Proof.
  intros H. destruct (contains FENCE a) eqn:E; [|reflexivity].
  apply contains_spec in E. destruct E as (p & q & ->).
  assert (contains FENCE ((p ++ FENCE ++ q) ++ post) = true) as Hyes.
  { apply contains_spec. exists p, (q ++ post)%list.
    rewrite <- !app_assoc. reflexivity. }
  congruence.
Qed.

(** ** Dropping the empty lines at both ends *)

Definition trim (lines : list str) : list str :=
  rev (drop_empty (rev (drop_empty lines))).

Lemma drop_empty_suffix (lines : list str) :
  exists pre, lines = (pre ++ drop_empty lines)%list.
Proof.
  induction lines as [|line lines (pre & E)]; cbn [drop_empty].
  - exists []. reflexivity.
  - destruct (truthy line).
    + exists []. reflexivity.
    + exists (line :: pre). cbn [app]. rewrite <- E. reflexivity.
Qed.

Lemma drop_empty_head (lines : list str) :
  match drop_empty lines with
  | [] => True
  | line :: _ => truthy line = true
  end.
Proof.
  induction lines as [|line lines IH]; cbn [drop_empty]; [exact I|].
  destruct (truthy line) eqn:E; [exact E | exact IH].
Qed.

Lemma drop_empty_fixed (lines : list str) :
  match lines with
  | [] => True
  | line :: _ => truthy line = true
  end ->
  drop_empty lines = lines.
Proof.
  destruct lines as [|line lines]; [reflexivity|].
  intros H. cbn [drop_empty]. rewrite H. reflexivity.
Qed.

Lemma trim_spec (lines : list str) :
  incl (trim lines) lines
  /\ drop_empty (trim lines) = trim lines
  /\ drop_empty (rev (trim lines)) = rev (trim lines).
Proof.
  unfold trim.
  destruct (drop_empty_suffix lines) as (pre1 & E1).
  pose proof (drop_empty_head lines) as H1.
  set (D := drop_empty lines) in *.
  destruct (drop_empty_suffix (rev D)) as (pre2 & E2).
  pose proof (drop_empty_head (rev D)) as H2.
  set (E := drop_empty (rev D)) in *.
  assert (HD : D = (rev E ++ rev pre2)%list).
  { rewrite <- rev_app_distr, <- E2, rev_involutive. reflexivity. }
  repeat apply conj.
  - intros x Hx. rewrite E1. apply in_or_app. right.
    rewrite HD. apply in_or_app. left. exact Hx.
  - apply drop_empty_fixed.
    destruct (rev E) as [|line rest] eqn:Er; [exact I|].
    rewrite HD in H1. exact H1.
  - rewrite rev_involutive. apply drop_empty_fixed. exact H2.
Qed.

(** ** The result *)

Lemma clean_code_unfold (code : str) :
  clean_code code
  = join [NL]
         (trim (List.map rstrip
                  (split_lines
                     (re_sub_fence FENCE
                        (re_sub_fence FENCE_PYTHON code))))).
Proof. reflexivity. Qed.

Lemma trimmed_lines (code : str) :
  exists lines,
    clean_code code = join [NL] lines
    /\ Forall (fun line => rstrip line = line /\ no_newline line
                           /\ contains FENCE line = false) lines
    /\ drop_empty lines = lines
    /\ drop_empty (rev lines) = rev lines.
Proof.
  rewrite clean_code_unfold.
  set (text := re_sub_fence FENCE (re_sub_fence FENCE_PYTHON code)).
  assert (Hfree : contains FENCE text = false).
  { unfold text, re_sub_fence. apply remove_fences_free. lia. }
  destruct (trim_spec (List.map rstrip (split_lines text)))
    as (Hincl & Hfront & Hback).
  exists (trim (List.map rstrip (split_lines text))).
  repeat apply conj; try assumption; try reflexivity.
  apply Forall_forall. intros line Hline.
  apply Hincl in Hline. apply in_map_iff in Hline.
  destruct Hline as (raw & <- & Hraw).
  repeat apply conj.
  - apply rstrip_idempotent.
  - intros Hin. apply rstrip_in in Hin.
    pose proof (split_lines_no_newline text) as Hall.
    rewrite Forall_forall in Hall. exact (Hall _ Hraw Hin).
  - rewrite <- (join_split_lines text), contains_join in Hfree.
    destruct (rstrip_prefix raw) as [post Epost].
    apply (contains_prefix _ post). rewrite <- Epost.
    destruct (contains FENCE raw) eqn:Eraw; [|reflexivity].
    assert (existsb (contains FENCE) (split_lines text) = true) as Hyes.
    { apply existsb_exists. exists raw. auto. }
    congruence.
Qed.

(** X22: the text [clean_code] returns holds no code fence; none of its
    lines ends in white space; and unless it is empty, neither its
    first nor its last line is empty. *)
Theorem clean_code_lines (code : str) :
  let lines := split_lines (clean_code code) in
  contains FENCE (clean_code code) = false
  /\ Forall (fun line => rstrip line = line) lines
  /\ (clean_code code <> [] ->
      truthy (hd [] lines) = true /\ truthy (last lines []) = true).
Proof.
  destruct (trimmed_lines code) as (ls & -> & Hall & Hfront & Hback).
  cbn zeta. repeat apply conj.
  - rewrite contains_join.
    destruct (existsb (contains FENCE) ls) eqn:E; [|reflexivity].
    apply existsb_exists in E. destruct E as (line & Hin & Hline).
    rewrite Forall_forall in Hall.
    destruct (Hall _ Hin) as (_ & _ & Hfree). congruence.
  - destruct ls as [|l0 ls'].
    + repeat constructor.
    + rewrite split_lines_join;
        [ | discriminate
          | eapply Forall_impl; [|exact Hall]; cbn beta; tauto ].
      eapply Forall_impl; [|exact Hall]. cbn beta. tauto.
  - intros Hne. destruct ls as [|l0 ls'];
      [exfalso; apply Hne; reflexivity|].
    rewrite split_lines_join;
      [ | discriminate
        | eapply Forall_impl; [|exact Hall]; cbn beta; tauto ].
    split.
    + pose proof (drop_empty_head (l0 :: ls')) as H.
      rewrite Hfront in H. exact H.
    + pose proof (drop_empty_head (rev (l0 :: ls'))) as H.
      rewrite Hback in H.
      rewrite <- (rev_involutive (l0 :: ls')).
      destruct (rev (l0 :: ls')) as [|x xs] eqn:Er.
      * apply (f_equal (@rev str)) in Er.
        rewrite rev_involutive in Er. discriminate.
      * cbn [rev]. rewrite last_last. exact H.
Qed.

(** X23: cleaning text that [clean_code] returned changes nothing. *)
Theorem clean_code_idempotent (code : str) :
  clean_code (clean_code code) = clean_code code.
Proof.
  destruct (trimmed_lines code) as (ls & E & Hall & Hfront & Hback).
  assert (Hfree : contains FENCE (clean_code code) = false).
  { rewrite E, contains_join.
    destruct (existsb (contains FENCE) ls) eqn:Ex; [|reflexivity].
    apply existsb_exists in Ex. destruct Ex as (line & Hin & Hline).
    rewrite Forall_forall in Hall.
    destruct (Hall _ Hin) as (_ & _ & Hf). congruence. }
  rewrite (clean_code_unfold (clean_code code)).
  unfold re_sub_fence at 2.
  rewrite (remove_fences_nothing FENCE_PYTHON _ _ eq_refl Hfree)
    by lia.
  unfold re_sub_fence.
  rewrite (remove_fences_nothing FENCE _ _ eq_refl Hfree) by lia.
  rewrite E. destruct ls as [|l0 ls']; [reflexivity|].
  rewrite split_lines_join;
    [ | discriminate
      | eapply Forall_impl; [|exact Hall]; cbn beta; tauto ].
  assert (Hmap : List.map rstrip (l0 :: ls') = l0 :: ls').
  { rewrite <- (map_id (l0 :: ls')) at 2. apply map_ext_in.
    intros line Hin. rewrite Forall_forall in Hall.
    apply (Hall _ Hin). }
  rewrite Hmap. unfold trim. rewrite Hfront, Hback, rev_involutive.
  reflexivity.
Qed.

End CleanCodeProperties.

Section UrlProperties.
Import Py Urls.

(** A scheme and then at least one accepted character. *)
Definition well_formed_url (url : str) : Prop :=
  exists scheme run,
    url = (scheme ++ run)%list
    /\ (scheme = codes "http://" \/ scheme = codes "https://")
    /\ run <> []
    /\ Forall (fun c => url_char c = true) run.

(** [url] stands in [text] and what follows it there, if anything, is a
    character the class refuses. *)
Definition ends_at_refused (url text : str) : Prop :=
  exists pre post,
    text = (pre ++ url ++ post)%list
    /\ match post with
       | [] => True
       | c :: _ => url_char c = false
       end.

Lemma take_run_spec (s : str) :
  s = (fst (take_run s) ++ snd (take_run s))%list
  /\ Forall (fun c => url_char c = true) (fst (take_run s))
  /\ match snd (take_run s) with
     | [] => True
     | c :: _ => url_char c = false
     end.
Proof.
  induction s as [|c rest (E & Hrun & Hnext)]; cbn [take_run].
  - repeat split. constructor.
  - destruct (url_char c) eqn:Hc.
    + destruct (take_run rest) as [run after]. cbn [fst snd] in *.
      repeat split.
      * rewrite E at 1. reflexivity.
      * constructor; assumption.
      * exact Hnext.
    + cbn [fst snd]. repeat split; [constructor | exact Hc].
Qed.

Lemma match_scheme_spec (scheme s url after : str) :
  match_scheme scheme s = Some (url, after) ->
  s = (url ++ after)%list
  /\ (exists run, url = (scheme ++ run)%list /\ run <> []
                  /\ Forall (fun c => url_char c = true) run)
  /\ match after with
     | [] => True
     | c :: _ => url_char c = false
     end.
Proof.
  unfold match_scheme.
  destruct (is_prefix scheme s) eqn:Ep; [|discriminate].
  pose proof (is_prefix_skipn _ _ Ep) as Es.
  destruct (take_run_spec (skipn (List.length scheme) s))
    as (E & Hrun & Hnext).
  destruct (take_run (skipn (List.length scheme) s)) as [run rest].
  cbn [fst snd] in *.
  destruct run as [|c run]; [discriminate|].
  intros H. injection H as <- <-.
  repeat split.
  - rewrite Es at 1. rewrite E at 1. rewrite <- app_assoc. reflexivity.
  - exists (c :: run). repeat split; [discriminate | exact Hrun].
  - exact Hnext.
Qed.

Lemma match_url_spec (s url after : str) :
  match_url s = Some (url, after) ->
  s = (url ++ after)%list /\ well_formed_url url
  /\ match after with
     | [] => True
     | c :: _ => url_char c = false
     end.
Proof.
  unfold match_url.
  destruct (match_scheme (codes "https://") s) as [[u a]|] eqn:E1.
  - intros H. injection H as <- <-.
    destruct (match_scheme_spec _ _ _ _ E1) as (Es & (run & Eu & Hne & Hrun) & Hn).
    repeat split; [exact Es | | exact Hn].
    exists (codes "https://"), run. auto.
  - intros E2.
    destruct (match_scheme_spec _ _ _ _ E2) as (Es & (run & Eu & Hne & Hrun) & Hn).
    repeat split; [exact Es | | exact Hn].
    exists (codes "http://"), run. auto.
Qed.

Lemma ends_at_refused_later (url pre s : str) :
  ends_at_refused url s -> ends_at_refused url (pre ++ s).
Proof.
  intros (p & q & -> & H). exists (pre ++ p)%list, q.
  rewrite <- app_assoc. auto.
Qed.

Lemma findall_urls_sound (fuel : nat) (s url : str) :
  In url (findall_urls fuel s) ->
  well_formed_url url /\ ends_at_refused url s.
Proof.
  revert s. induction fuel as [|fuel IH]; intros s; cbn [findall_urls];
    [intros []|].
  destruct s as [|c rest]; [intros []|].
  destruct (match_url (c :: rest)) as [[u after]|] eqn:Em.
  - destruct (match_url_spec _ _ _ Em) as (Es & Hwf & Hnext).
    intros [<- | Hin].
    + split; [exact Hwf|]. exists [], after. split; [exact Es | exact Hnext].
    + destruct (IH _ Hin) as [H1 H2]. split; [exact H1|].
      rewrite Es. apply ends_at_refused_later, H2.
  - intros Hin. destruct (IH _ Hin) as [H1 H2]. split; [exact H1|].
    apply (ends_at_refused_later _ [c]), H2.
Qed.

(** X24: every URL [extract_urls] returns starts with [http://] or
    [https://], goes on with at least one character, none of them white
    space or one of the refused characters, stands in the text, and ends
    where the text ends or a refused character follows. *)
Theorem extract_urls_sound (text url : str) :
  In url (extract_urls text) ->
  well_formed_url url /\ ends_at_refused url text.
Proof. apply findall_urls_sound. Qed.

End UrlProperties.

(* ================================================================== *)
(** * Instances of the further properties *)
(* ================================================================== *)

(** The three short paragraphs under [chunk_size = 10]. *)
Lemma chunk_text_size_bound_witness :
  exists out,
    Chunker.chunk_text 0 ChunkerExamples.chunker_10_2
                       ChunkerExamples.three_paragraphs = Some out
    /\ Forall (fun chunk =>
                 Py.len chunk
                 <= Chunker.chunk_size ChunkerExamples.chunker_10_2) out.
Proof.
  eexists. split; [reflexivity|].
  apply (chunk_text_size_bound ChunkerExamples.chunker_10_2)
    with (text := ChunkerExamples.three_paragraphs) (fuel := 0%nat).
  - cbn. lia.
  - reflexivity.
Defined.

(** The same paragraphs under an overlap of 1. *)
Lemma chunk_text_stripped_witness :
  exists out,
    Chunker.chunk_text 0 ChunkerExamples.chunker_10_1
                       ChunkerExamples.three_paragraphs = Some out
    /\ Forall (fun chunk => Py.strip chunk = chunk) out.
Proof.
  eexists. split; [reflexivity|].
  apply (chunk_text_stripped ChunkerExamples.chunker_10_1
           ChunkerExamples.three_paragraphs 0%nat).
  reflexivity.
Defined.

(** The text on which an overlap of 2 never returns is chunked by a
    chunker built with [CHUNK_OVERLAP=0]: its attribute
    [self.chunk_overlap] is 0. *)
Lemma chunk_text_returns_without_overlap_witness :
  Chunker.chunk_overlap CoverageExamples.chunker_10_0 = 0
  /\ exists fuel out,
      Chunker.chunk_text fuel CoverageExamples.chunker_10_0
                         ChunkerExamples.stuck_text = Some out.
Proof.
  split; [reflexivity|].
  apply (chunk_text_returns_without_overlap CoverageExamples.chunker_10_0).
  - cbn. lia.
  - cbn. lia.
Defined.

(** Two one-line definitions under the default sizes. *)
Lemma chunk_code_chunks_witness :
  exists out,
    ChunkCode.chunk_code 0 ChunkerExamples.default_chunker
                         CoverageExamples.two_definitions = Some out
    /\ Forall (code_chunk_ok ChunkerExamples.default_chunker) out.
Proof.
  eexists. split; [reflexivity|].
  apply (chunk_code_chunks ChunkerExamples.default_chunker)
    with (code := CoverageExamples.two_definitions) (fuel := 0%nat).
  - cbn. lia.
  - cbn. lia.
  - reflexivity.
Defined.

(** Two inserts around a [clear] on the empty table: the second id is
    above the first although the first row is gone. *)
Lemma insert_ids_increase_witness :
  let ops := [StoreOps.Insert (Py.codes "a") [] None; StoreOps.Clear;
              StoreOps.Insert (Py.codes "b") [] None] in
  StoreOps.well_formed Store.empty
  /\ StronglySorted Z.lt (snd (StoreOps.run Store.empty ops))
  /\ Store.last_id (fst (StoreOps.run Store.empty ops)) = 0 + 2
  /\ Store.count (fst (StoreOps.run Store.empty ops)) = 1.
Proof.
  intros ops.
  assert (H : StoreOps.well_formed Store.empty)
    by (split; constructor).
  pose proof (insert_ids_increase Store.empty ops H) as Hrun.
  destruct (StoreOps.run Store.empty ops) as [final ids] eqn:E.
  destruct Hrun as (_ & Hsorted & _ & Hlast & _).
  vm_compute in E. injection E as <- <-.
  split; [exact H|]. split; [exact Hsorted|].
  split; [exact Hlast | reflexivity].
Defined.

(** Two of the three stored rows are asked for. *)
Lemma search_result_count_witness :
  exists results,
    VectorDatabase.search SearchExamples.dot SearchExamples.norm
                          RetrieveExamples.store [Float.one; Float.zero] 2
    = Some results
    /\ Py.len results = 2.
Proof.
  eexists. split; [reflexivity|].
  destruct (search_result_count SearchExamples.dot SearchExamples.norm
              RetrieveExamples.store
              [Float.one; Float.zero] 2 _ eq_refl) as (_ & H & _).
  apply H. lia.
Defined.

(** One row inserted into the empty table and searched for. *)
Lemma insert_then_search_witness :
  exists results r,
    Store.search SearchExamples.dot SearchExamples.norm
      (fst (Store.insert Store.empty (Py.codes "doc")
                         [Float.one; Float.zero] None))
      [Float.one; Float.zero] 1
    = Some results
    /\ In r results
    /\ VectorDatabase.res_id r = 1
    /\ VectorDatabase.res_text r = Py.codes "doc".
Proof.
  destruct (insert_then_search SearchExamples.dot SearchExamples.norm
              Store.empty (Py.codes "doc")
              [Float.one; Float.zero] None [Float.one; Float.zero]
              _ eq_refl) as (_ & r & Hin & Hid & Htext & _).
  eexists. exists r. split; [reflexivity|].
  split; [exact Hin|]. split; [exact Hid | exact Htext].
Defined.

(** A query without keyword on two results in descending order. *)
Lemma rank_keeps_search_order_witness :
  ContextManager.rank_and_filter RankExamples.ascii_lower
    RankExamples.two_results RetrieveExamples.query
  = List.map (fun result =>
                {| ContextManager.sc_result := result;
                   ContextManager.adjusted_score :=
                     VectorDatabase.res_similarity result |})
             RankExamples.two_results.
Proof.
  apply (rank_keeps_search_order RankExamples.ascii_lower).
  - intros H. apply contains_spec in H. vm_compute in H. discriminate.
  - intros H. apply contains_spec in H. vm_compute in H. discriminate.
  - intros H. apply contains_spec in H. vm_compute in H. discriminate.
  - repeat constructor.
Defined.

(** The store of three rows with a budget of 10 tokens and [top_k = 3]. *)
Lemma retrieve_at_most_top_k_witness :
  ContextManager.retrieve_relevant_context
    RankExamples.ascii_lower RetrieveExamples.embed_east
    SearchExamples.dot SearchExamples.norm
    RetrieveExamples.manager Config.defaults RetrieveExamples.query
    RetrieveExamples.library (Some 3)
  = Some [RetrieveExamples.text_a]
  /\ Py.len [RetrieveExamples.text_a] <= 3.
Proof.
  assert (E : ContextManager.retrieve_relevant_context
                RankExamples.ascii_lower RetrieveExamples.embed_east
                SearchExamples.dot SearchExamples.norm
                RetrieveExamples.manager Config.defaults
                RetrieveExamples.query RetrieveExamples.library (Some 3)
              = Some [RetrieveExamples.text_a])
    by (vm_compute; reflexivity).
  split; [exact E|].
  destruct (retrieve_at_most_top_k
              RankExamples.ascii_lower RetrieveExamples.embed_east
              SearchExamples.dot SearchExamples.norm
              RetrieveExamples.manager Config.defaults
              RetrieveExamples.query RetrieveExamples.library (Some 3)
              [RetrieveExamples.text_a] E) as [H _].
  apply H. lia.
Defined.

(** The dot products of the examples, on a row and a query of the
    store. *)
Lemma cosine_similarity_symmetric_witness :
  VectorDatabase.cosine_similarity SearchExamples.dot SearchExamples.norm
    [SearchExamples.one32; Float.zero]
    [SearchExamples.one32; SearchExamples.one32]
  = VectorDatabase.cosine_similarity SearchExamples.dot SearchExamples.norm
      [SearchExamples.one32; SearchExamples.one32]
      [SearchExamples.one32; Float.zero].
Proof.
  apply (cosine_similarity_symmetric
           SearchExamples.dot SearchExamples.norm
           SearchExamples.dot64 SearchExamples.norm64).
  - intros vec1 vec2. apply dot_from_comm.
  - intros vec1 vec2. apply dot_from_comm.
Defined.

(** Two examples indexed into the empty table. *)
Lemma index_content_appends_witness :
  exists table' n,
    Indexing.index_content CoverageExamples.embed_all_east 0
      ChunkerExamples.default_chunker Store.empty None None
      (Some CoverageExamples.two_examples) = Some (table', n)
    /\ StoreOps.well_formed table'
    /\ Store.count table' = 2.
Proof.
  do 2 eexists. split; [reflexivity|].
  destruct (index_content_appends CoverageExamples.embed_all_east 0
              ChunkerExamples.default_chunker Store.empty _ None None
              (Some CoverageExamples.two_examples) _
              (conj (SSorted_nil _) (Forall_nil _)) eq_refl)
    as (Hwf & _).
  split; [exact Hwf | reflexivity].
Defined.

(** A repository that was not found and an empty list of examples. *)
Lemma index_content_nothing_witness :
  Indexing.index_content CoverageExamples.embed_all_east 0
    ChunkerExamples.default_chunker Store.empty None
    (Some {| Agent.gh_found := false; Agent.gh_readme := None |})
    (Some [])
  = Some (Store.empty, 0).
Proof.
  apply index_content_nothing.
  split; [left; reflexivity|].
  split; [|right; reflexivity].
  right. eexists. split; [reflexivity|]. left. reflexivity.
Defined.

(** The two examples are the texts of the two rows. *)
Lemma index_examples_verbatim_witness :
  exists table' new,
    Indexing.index_content CoverageExamples.embed_all_east 0
      ChunkerExamples.default_chunker Store.empty None None
      (Some CoverageExamples.two_examples)
    = Some (table', 2)
    /\ Store.rows table' = new
    /\ List.map VectorDatabase.row_text new
       = CoverageExamples.two_examples.
Proof.
  destruct (index_examples_verbatim CoverageExamples.embed_all_east 0
              ChunkerExamples.default_chunker Store.empty
              CoverageExamples.two_examples eq_refl)
    as (table' & new & H1 & H2 & H3 & _).
  exists table', new. split; [exact H1|]. split; [exact H2 | exact H3].
Defined.

(** Six characters cut to three, plus the ellipsis. *)
Lemma truncate_text_length_witness :
  Helpers.truncate_text (Py.codes "abcdef") 3 = Py.codes "abc..."
  /\ Py.len (Helpers.truncate_text (Py.codes "abcdef") 3) = 3 + 3.
Proof.
  destruct (truncate_text_length (Py.codes "abcdef") 3) as (_ & H & _).
  - lia.
  - apply H. cbn. lia.
Defined.

(** Two one-character contexts under a limit of 30. *)
Lemma format_context_within_witness :
  Py.len (Helpers.format_context [Py.codes "a"; Py.codes "b"] 30) <= 30.
Proof.
  destruct (format_context_within [Py.codes "a"; Py.codes "b"] 30)
    as [H _].
  - lia.
  - exact H.
Defined.

(** The README's fenced block is the one example. *)
Lemma extract_examples_sound_witness :
  CodeExampleExtractor.extract CoverageExamples.first_occurrences None
    (Some CoverageExamples.github)
  = [CoverageExamples.readme_block]
  /\ 50 < Py.len CoverageExamples.readme_block
  /\ Py.strip CoverageExamples.readme_block = CoverageExamples.readme_block.
Proof.
  split; [vm_compute; reflexivity|].
  destruct (extract_examples_sound CoverageExamples.first_occurrences
              (fun l => NoDup_nodup _ l)
              (fun l x => nodup_In _ l x)
              None (Some CoverageExamples.github)) as [_ H].
  destruct (H CoverageExamples.readme_block) as (Hlen & Hstrip & _).
  - vm_compute. left. reflexivity.
  - split; [exact Hlen | exact Hstrip].
Defined.

(** A tagged block with nothing behind it. *)
Lemma extract_from_markdown_leading_block_witness :
  CodeExampleExtractor.extract_from_markdown
    (CodeExampleExtractor.FENCE ++ Py.codes "python" ++ [Py.NL]
       ++ Py.codes "x = 1" ++ CodeExampleExtractor.FENCE ++ [])%list
  = ((if Py.truthy (Py.strip (Py.codes "x = 1"))
      then [Py.strip (Py.codes "x = 1")] else [])
       ++ CodeExampleExtractor.extract_from_markdown [])%list.
Proof.
  apply extract_from_markdown_leading_block.
  - right. reflexivity.
  - intros H. vm_compute in H. intuition discriminate.
Defined.

(** A URL followed by a space. *)
Lemma extract_urls_sound_witness :
  well_formed_url (Py.codes "http://a.b")
  /\ ends_at_refused (Py.codes "http://a.b") (Py.codes "see http://a.b now").
Proof.
  apply extract_urls_sound. vm_compute. left. reflexivity.
Defined.
